(** * @rumenx/feed: the feed aggregate, its validator and its renderers

    A shallow embedding of [src/utils/Validator.ts], [src/utils/XmlHelper.ts],
    [src/utils/DateHelper.ts] and [src/core/Feed.ts], followed by the
    properties of the feed that the specification states and by further
    properties of the helpers and of the feed, read from the code.

    Conventions of the embedding.
    - A JavaScript string is a [string]: a sequence of code units, of which
      the model covers the units below 256.
    - A value of TypeScript type [T | undefined] (an optional field) is an
      [option T]; a parameter typed [any] is a [JsValue].
    - The [Feed] object is a record; a method is a computation in the monad
      [M], which threads the object and the clock and may throw.
    - Priorities are IEEE doubles ([float]); counts, byte sizes and pixel
      sizes are integers ([Z] or [nat]). *)

From Stdlib Require Import String Ascii List ZArith Lia Bool.
From Stdlib Require Import PrimFloat Uint63 DecimalString.
Import ListNotations.
Local Open Scope list_scope.
Local Open Scope string_scope.

(* ================================================================= *)
(** ** JavaScript strings and values *)

Module Js.

(** [typeof]-distinguishable values that reach the [any]-typed validators. *)
Inductive JsValue :=
| JUndefined
| JNull
| JBool (b : bool)
| JNum (x : float)
| JStr (s : string).

(** White space as [String.prototype.trim] and the regex class [\s] see it,
    among the code units below 256: TAB, LF, VT, FF, CR, SP and NBSP. *)
Definition isWhiteSpace (c : ascii) : bool :=
  let n := nat_of_ascii c in
  ((9 <=? n) && (n <=? 13) || (n =? 32) || (n =? 160))%nat.

(** Line terminators (what the regex atom [.] refuses): LF and CR. *)
Definition isLineTerminator (c : ascii) : bool :=
  let n := nat_of_ascii c in ((n =? 10) || (n =? 13))%nat.

Fixpoint trimStart (s : string) : string :=
  match s with
  | EmptyString => EmptyString
  | String c s' => if isWhiteSpace c then trimStart s' else s
  end.

Fixpoint trimEnd (s : string) : string :=
  match s with
  | EmptyString => EmptyString
  | String c s' =>
      match trimEnd s' with
      | EmptyString => if isWhiteSpace c then EmptyString else String c EmptyString
      | t => String c t
      end
  end.

(** [s.trim()] *)
Definition trim (s : string) : string := trimEnd (trimStart s).

(** A string is truthy when it is not empty. *)
Definition nonEmpty (s : string) : bool :=
  match s with EmptyString => false | _ => true end.

(** [s.startsWith(p)] *)
Definition startsWith (p s : string) : bool := String.prefix p s.

(** [s.endsWith(p)] *)
Fixpoint endsWith (p s : string) : bool :=
  (p =? s) ||
  match s with
  | EmptyString => false
  | String _ s' => endsWith p s'
  end.

(** [s.slice(0, -1)] *)
Fixpoint sliceDropLast (s : string) : string :=
  match s with
  | EmptyString => EmptyString
  | String c EmptyString => EmptyString
  | String c s' => String c (sliceDropLast s')
  end.

Definition lowerChar (c : ascii) : ascii :=
  let n := nat_of_ascii c in
  if ((65 <=? n) && (n <=? 90) ||
      (192 <=? n) && (n <=? 222) && negb (n =? 215))%nat
  then ascii_of_nat (n + 32) else c.

(** [s.toLowerCase()] *)
Fixpoint toLowerCase (s : string) : string :=
  match s with
  | EmptyString => EmptyString
  | String c s' => String (lowerChar c) (toLowerCase s')
  end.

(** [indent.repeat(n)] for a count that is not negative. *)
Fixpoint repeat (s : string) (n : nat) : string :=
  match n with
  | O => EmptyString
  | S k => s ++ repeat s k
  end.

(** [s.replace(/c/g, by)] for a single character [c]. *)
Fixpoint replaceAll (c : ascii) (by_ : string) (s : string) : string :=
  match s with
  | EmptyString => EmptyString
  | String d s' =>
      if Ascii.eqb c d then by_ ++ replaceAll c by_ s'
      else String d (replaceAll c by_ s')
  end.

(** The double quote, as a code unit and as a string. *)
Definition quote : ascii := ascii_of_nat 34.
Definition dq : string := String quote EmptyString.

(** [xs.join(sep)] *)
Definition join (sep : string) (xs : list string) : string := String.concat sep xs.

(** [String(n)] for an array index or an integral number. *)
Definition natToString (n : nat) : string := NilZero.string_of_uint (Nat.to_uint n).
Definition intToString (z : Z) : string := NilZero.string_of_int (Z.to_int z).

(** [forall]-test over the code units of a string. *)
Fixpoint allChars (p : ascii -> bool) (s : string) : bool :=
  match s with
  | EmptyString => true
  | String c s' => p c && allChars p s'
  end.

(** The longest prefix whose code units satisfy [p], and what follows it. *)
Fixpoint spanChars (p : ascii -> bool) (s : string) : string * string :=
  match s with
  | EmptyString => (EmptyString, EmptyString)
  | String c s' =>
      if p c then let '(a, b) := spanChars p s' in (String c a, b)
      else (EmptyString, s)
  end.

(** A regex literal matched at the start of [s] under the flag [i]: ASCII
    letters match in either case. Returns what follows the match. *)
Fixpoint matchLiteralCI (lit s : string) : option string :=
  match lit with
  | EmptyString => Some s
  | String l lit' =>
      match s with
      | EmptyString => None
      | String c s' =>
          if Ascii.eqb (lowerChar l) (if (nat_of_ascii c <? 128)%nat then lowerChar c else c)
          then matchLiteralCI lit' s' else None
      end
  end.

End Js.
Export Js.

(* ================================================================= *)
(** ** Regular expressions *)

(** The patterns of the source that repeat a character class are kept as
    syntax and tested by derivatives. *)
Module Regex.

Inductive t :=
| Empty
| Eps
| Class (p : ascii -> bool)
| Seq (a b : t)
| Alt (a b : t)
| Star (a : t).

(** [a+] *)
Definition Plus (a : t) : t := Seq a (Star a).

(** A literal code unit. *)
Definition Chr (c : ascii) : t := Class (Ascii.eqb c).

Fixpoint nullable (r : t) : bool :=
  match r with
  | Empty => false
  | Eps => true
  | Class _ => false
  | Seq a b => nullable a && nullable b
  | Alt a b => nullable a || nullable b
  | Star _ => true
  end.

(** What is left of [r] after the code unit [c]. *)
Fixpoint deriv (c : ascii) (r : t) : t :=
  match r with
  | Empty => Empty
  | Eps => Empty
  | Class p => if p c then Eps else Empty
  | Seq a b =>
      if nullable a then Alt (Seq (deriv c a) b) (deriv c b)
      else Seq (deriv c a) b
  | Alt a b => Alt (deriv c a) (deriv c b)
  | Star a => Seq (deriv c a) (Star a)
  end.

(** [/^r$/.test(s)] *)
Fixpoint test (r : t) (s : string) : bool :=
  match s with
  | EmptyString => nullable r
  | String c s' => test (deriv c r) s'
  end.

End Regex.

(* ================================================================= *)
(** ** src/utils/Validator.ts *)

Module Validator.

(** [interface ValidationError] *)
Record ValidationError := mkError {
  field : string;
  type : string;
  message : string;
  value : JsValue
}.

(** The regex prefix [^https?:\/\/] under the flag [i]; returns what
    follows the scheme. *)
Definition matchScheme (s : string) : option string :=
  match matchLiteralCI "https://" s with
  | Some r => Some r
  | None => matchLiteralCI "http://" s
  end.

(** [/^https?:\/\/[^\s/$.?#].[^\s]*$/i.test(s)] *)
Definition urlPattern_test (s : string) : bool :=
  match matchScheme s with
  | Some (String c1 (String c2 rest)) =>
      negb (isWhiteSpace c1 ||
            Ascii.eqb c1 "/" || Ascii.eqb c1 "$" || Ascii.eqb c1 "." ||
            Ascii.eqb c1 "?" || Ascii.eqb c1 "#")
      && negb (isLineTerminator c2)
      && allChars (fun c => negb (isWhiteSpace c)) rest
  | _ => false
  end.

Definition isValidUrl (url : JsValue) : bool :=
  match url with
  | JStr s => if negb (nonEmpty (trim s)) then false else urlPattern_test (trim s)
  | _ => false
  end.

(** The capture group of [url.match(/^https?:\/\/([^/]+)/i)]. *)
Definition hostnameMatch (url : string) : option string :=
  match matchScheme url with
  | Some r =>
      let host := fst (spanChars (fun c => negb (Ascii.eqb c "/")) r) in
      if nonEmpty host then Some host else None
  | None => None
  end.

Definition isAllowedDomain (url : string) (allowedDomains : list string) : bool :=
  match allowedDomains with
  | [] => true
  | _ =>
      match hostnameMatch url with
      | None => false
      | Some h =>
          let hostname := toLowerCase h in
          if negb (nonEmpty hostname) then false
          else
            existsb (fun domain =>
                       let normalizedDomain := toLowerCase domain in
                       (hostname =? normalizedDomain) ||
                       endsWith ("." ++ normalizedDomain) hostname)
                    allowedDomains
      end
  end.

(** [/^[a-z]{2}(-[A-Z]{2})?$/.test(lang)] *)
Definition isLowerAZ (c : ascii) : bool :=
  let n := nat_of_ascii c in ((97 <=? n) && (n <=? 122))%nat.
Definition isUpperAZ (c : ascii) : bool :=
  let n := nat_of_ascii c in ((65 <=? n) && (n <=? 90))%nat.

Definition langPattern_test (lang : string) : bool :=
  match lang with
  | String a (String b EmptyString) => isLowerAZ a && isLowerAZ b
  | String a (String b (String "-" (String c (String d EmptyString)))) =>
      isLowerAZ a && isLowerAZ b && isUpperAZ c && isUpperAZ d
  | _ => false
  end.

Definition isValidLanguageCode (lang : JsValue) : bool :=
  match lang with
  | JStr s => if negb (nonEmpty (trim s)) then false else langPattern_test s
  | _ => false
  end.

Definition isValidPriority (priority : JsValue) : bool :=
  match priority with
  | JNum x => PrimFloat.leb 0 x && PrimFloat.leb x 1
  | _ => false
  end.

Definition validateRequiredString (value : JsValue) (fieldName : string)
  : option ValidationError :=
  let bad :=
    match value with
    | JStr s => negb (nonEmpty (trim s))
    | _ => true
    end in
  if bad then
    Some {| field := fieldName;
            type := "required";
            message := fieldName ++ " is required and must be a non-empty string";
            value := value |}
  else None.

Definition validateUrl (url : JsValue) (fieldName : string)
  (allowedDomains : list string) : option ValidationError :=
  match validateRequiredString url fieldName with
  | Some stringError => Some stringError
  | None =>
      if negb (isValidUrl url) then
        Some {| field := fieldName;
                type := "invalid_url";
                message := fieldName ++ " must be a valid HTTP or HTTPS URL";
                value := url |}
      else if negb (match url with
                    | JStr s => isAllowedDomain s allowedDomains
                    | _ => false
                    end) then
        Some {| field := fieldName;
                type := "domain_not_allowed";
                message := fieldName ++ " domain is not in the allowed domains list";
                value := url |}
      else None
  end.

(** The class [[^\s@]]. *)
Definition notSpaceNorAt (c : ascii) : bool :=
  negb (isWhiteSpace c || Ascii.eqb c "@").

(** [/^[^\s@]+@[^\s@]+\.[^\s@]+$/] *)
Definition emailPattern : Regex.t :=
  Regex.Seq (Regex.Plus (Regex.Class notSpaceNorAt))
    (Regex.Seq (Regex.Chr "@")
       (Regex.Seq (Regex.Plus (Regex.Class notSpaceNorAt))
          (Regex.Seq (Regex.Chr ".")
             (Regex.Plus (Regex.Class notSpaceNorAt))))).

Definition isValidEmail (email : JsValue) : bool :=
  match email with
  | JStr s => if negb (nonEmpty (trim s)) then false else Regex.test emailPattern s
  | _ => false
  end.

End Validator.

(* ================================================================= *)
(** ** src/types/FeedTypes.ts and src/types/FeedItemTypes.ts *)

(** A [Date] object: its time value in milliseconds since the epoch, or
    [None] for an Invalid Date. *)
Definition DateObject := option Z.

(** [Date | string | number], the argument type of the date helpers. *)
Inductive DateInput :=
| DateOfObject (d : DateObject)
| DateOfString (s : string)
| DateOfNumber (n : Z).

(** [Date | string], the type of [pubdate] and [publication_date]. *)
Inductive DateOrString :=
| AsDate (d : DateObject)
| AsString (s : string).

Definition toDateInput (p : DateOrString) : DateInput :=
  match p with
  | AsDate d => DateOfObject d
  | AsString s => DateOfString s
  end.

Inductive ChangeFrequency :=
| always | hourly | daily | weekly | monthly | yearly | never.

(** [string | string[]] *)
Inductive Category :=
| CategoryOne (c : string)
| CategoryMany (cs : list string).

Module EnclosureData.
Record t := mk {
  url : string;
  type : string;
  length : option Z
}.
End EnclosureData.

Module ImageData.
Record t := mk {
  url : string;
  title : option string;
  caption : option string;
  type : option string;
  width : option Z;
  height : option Z;
  license : option string;
  geoLocation : option string
}.
End ImageData.

Module VideoData.
Record t := mk {
  thumbnail_url : string;
  title : string;
  description : string;
  content_url : string;
  duration : option Z;
  rating : option float;
  view_count : option Z;
  publication_date : option string;
  family_friendly : option bool;
  tags : option (list string)
}.
End VideoData.

Module TranslationData.
Record t := mk {
  language : string;
  url : string
}.
End TranslationData.

Module NewsData.
Record t := mk {
  sitename : string;
  language : string;
  publication_date : DateOrString;
  title : string;
  keywords : option string
}.
End NewsData.

Module FeedItemData.
Record t := mk {
  title : string;
  description : string;
  link : string;
  author : option string;
  pubdate : option DateOrString;
  guid : option string;
  category : option Category;
  enclosure : option EnclosureData.t;
  images : option (list ImageData.t);
  videos : option (list VideoData.t);
  translations : option (list TranslationData.t);
  news : option NewsData.t;
  priority : option float;
  changefreq : option ChangeFrequency
}.
End FeedItemData.

Module FeedConfig.
(** [interface FeedConfig]: every option may be left out. *)
Record t := mk {
  baseUrl : option string;
  validate : option bool;
  escapeContent : option bool;
  prettyPrint : option bool;
  dateFormat : option string;
  language : option string;
  maxItems : option Z;
  maxFileSize : option Z;
  allowedDomains : option (list string);
  version : option string
}.
End FeedConfig.

Module FeedStats.
Record t := mk {
  totalItems : nat;
  totalImages : nat;
  totalVideos : nat;
  totalTranslations : nat;
  averagePriority : float;
  lastModified : string;
  sizeEstimate : Z
}.
End FeedStats.

(* ================================================================= *)
(** ** src/utils/Validator.ts: the item validator *)

Module ItemValidator.
Import Validator.

(** [if (e) errors.push(e)] *)
Definition pushIf (errors : list ValidationError) (e : option ValidationError)
  : list ValidationError :=
  match e with
  | Some err => (errors ++ [err])%list
  | None => errors
  end.

(** [xs.forEach((x, index) => body)], the body updating [errors]. *)
Fixpoint forEachIndexed {A Acc : Type} (body : A -> nat -> Acc -> Acc)
  (xs : list A) (index : nat) (s : Acc) : Acc :=
  match xs with
  | [] => s
  | x :: xs' => forEachIndexed body xs' (S index) (body x index s)
  end.

Definition indexed (array : string) (index : nat) (prop : string) : string :=
  array ++ "[" ++ natToString index ++ "]." ++ prop.

Definition validateFeedItem (item : FeedItemData.t) (allowedDomains : list string)
  : list ValidationError :=
  let errors : list ValidationError := [] in
  (* required fields *)
  let errors := pushIf errors
                  (validateRequiredString (JStr (FeedItemData.title item)) "title") in
  let errors := pushIf errors
                  (validateRequiredString (JStr (FeedItemData.description item)) "description") in
  let errors := pushIf errors
                  (validateUrl (JStr (FeedItemData.link item)) "link" allowedDomains) in
  (* optional fields *)
  let errors :=
    match FeedItemData.author item with
    | Some author => pushIf errors (validateRequiredString (JStr author) "author")
    | None => errors
    end in
  let errors :=
    match FeedItemData.priority item with
    | Some priority =>
        if negb (isValidPriority (JNum priority)) then
          (errors ++ [ {| field := "priority";
                          type := "invalid_range";
                          message := "priority must be a number between 0.0 and 1.0";
                          value := JNum priority |} ])%list
        else errors
    | None => errors
    end in
  (* images *)
  let errors :=
    match FeedItemData.images item with
    | Some images =>
        forEachIndexed
          (fun image index errors =>
             pushIf errors
               (validateUrl (JStr (ImageData.url image))
                  (indexed "images" index "url") allowedDomains))
          images 0 errors
    | None => errors
    end in
  (* videos *)
  let errors :=
    match FeedItemData.videos item with
    | Some videos =>
        forEachIndexed
          (fun video index errors =>
             let errors := pushIf errors
               (validateUrl (JStr (VideoData.thumbnail_url video))
                  (indexed "videos" index "thumbnail_url") allowedDomains) in
             let errors := pushIf errors
               (validateUrl (JStr (VideoData.content_url video))
                  (indexed "videos" index "content_url") allowedDomains) in
             let errors := pushIf errors
               (validateRequiredString (JStr (VideoData.title video))
                  (indexed "videos" index "title")) in
             pushIf errors
               (validateRequiredString (JStr (VideoData.description video))
                  (indexed "videos" index "description")))
          videos 0 errors
    | None => errors
    end in
  (* translations *)
  let errors :=
    match FeedItemData.translations item with
    | Some translations =>
        forEachIndexed
          (fun translation index errors =>
             let errors := pushIf errors
               (validateRequiredString (JStr (TranslationData.language translation))
                  (indexed "translations" index "language")) in
             let errors :=
               if negb (isValidLanguageCode (JStr (TranslationData.language translation)))
               then (errors ++ [ {| field := indexed "translations" index "language";
                                    type := "invalid_language";
                                    message := "language must be a valid RFC 3066 language code";
                                    value := JStr (TranslationData.language translation) |} ])%list
               else errors in
             pushIf errors
               (validateUrl (JStr (TranslationData.url translation))
                  (indexed "translations" index "url") allowedDomains))
          translations 0 errors
    | None => errors
    end in
  errors.

End ItemValidator.

(* ================================================================= *)
(** ** The host environment and the monad of methods *)

(** What the program asks of its host: the wall clock, read by every
    [new Date()], and the parser behind [new Date(string)], whose
    grammar beyond ISO 8601 is left to the implementation.  [clock n] is
    the time value of the [n]-th reading; [dateParse s] is a time value
    or [None] for an Invalid Date. *)
Module Host.
Record t := mk {
  clock : nat -> Z;
  dateParse : string -> option Z
}.
End Host.

(** The object a method runs on, the host, and how often the clock has
    been read. *)
Record World (T : Type) := mkWorld {
  this : T;
  host : Host.t;
  reads : nat
}.
Arguments mkWorld {T} _ _ _.
Arguments this {T} _.
Arguments host {T} _.
Arguments reads {T} _.

Inductive JsError :=
| Error (message : string)
| RangeError (message : string).

Inductive Outcome (A : Type) :=
| Returned (a : A)
| Thrown (e : JsError).
Arguments Returned {A} _.
Arguments Thrown {A} _.

(** A method body: from the world before to its outcome and the world
    after.  A throw keeps the world as it was at the throw. *)
Definition M (T A : Type) : Type := World T -> Outcome A * World T.

Definition ret {T A} (a : A) : M T A := fun w => (Returned a, w).

Definition bind {T A B} (m : M T A) (k : A -> M T B) : M T B :=
  fun w =>
    match m w with
    | (Returned a, w') => k a w'
    | (Thrown e, w') => (Thrown e, w')
    end.

Definition throw {T A} (e : JsError) : M T A := fun w => (Thrown e, w).

Definition getThis {T} : M T T := fun w => (Returned (this w), w).

Definition setThis {T} (o : T) : M T unit :=
  fun w => (Returned tt, mkWorld o (host w) (reads w)).

(** The time value of [new Date()]. *)
Definition now {T} : M T Z :=
  fun w => (Returned (Host.clock (host w) (reads w)),
            mkWorld (this w) (host w) (S (reads w))).

(** The time value of [new Date(s)]. *)
Definition parse {T} (s : string) : M T (option Z) :=
  fun w => (Returned (Host.dateParse (host w) s), w).

(** A computation that neither reads nor writes the world. *)
Definition lift {T A} (o : Outcome A) : M T A := fun w => (o, w).

(** [try { m } catch { handler }]: what [m] did to the world before it
    threw stays done. *)
Definition tryCatch {T A} (m : M T A) (handler : M T A) : M T A :=
  fun w =>
    match m w with
    | (Returned a, w') => (Returned a, w')
    | (Thrown _, w') => handler w'
    end.

Declare Scope js_scope.
Delimit Scope js_scope with js.
Notation "x <- c ;; k" := (bind c (fun x => k))
  (at level 61, c at next level, right associativity) : js_scope.
Notation "c ;;; k" := (bind c (fun _ => k))
  (at level 61, right associativity) : js_scope.
Local Open Scope js_scope.

(** [for (const x of xs) acc += body(x)], for string accumulators. *)
Fixpoint forEachAppend {T A} (body : A -> M T string) (xs : list A) (acc : string)
  : M T string :=
  match xs with
  | [] => ret acc
  | x :: xs' => s <- body x ;; forEachAppend body xs' (acc ++ s)
  end.

(* ================================================================= *)
(** ** src/utils/DateHelper.ts *)

Module DateHelper.
Local Open Scope Z_scope.

(** *** The [Date] built-ins the helpers call *)

(** Year, month (1-12) and day (1-31) of a day number counted from
    1970-01-01, in the proleptic Gregorian calendar. *)
Definition civilFromDays (z : Z) : Z * Z * Z :=
  let z := z + 719468 in
  let era := z / 146097 in
  let doe := z - era * 146097 in
  let yoe := (doe - doe / 1460 + doe / 36524 - doe / 146096) / 365 in
  let y := yoe + era * 400 in
  let doy := doe - (365 * yoe + yoe / 4 - yoe / 100) in
  let mp := (5 * doy + 2) / 153 in
  let d := doy - (153 * mp + 2) / 5 + 1 in
  let m := if mp <? 10 then mp + 3 else mp - 9 in
  (if m <=? 2 then y + 1 else y, m, d).

(** A natural number in decimal, zero-padded to [width] digits. *)
Definition padStart (width : nat) (n : Z) : string :=
  let s := intToString n in
  Js.repeat "0" (width - String.length s) ++ s.

Definition timeOfDay (t : Z) : string :=
  let ms := t mod 86400000 in
  padStart 2 (ms / 3600000) ++ ":" ++
  padStart 2 (ms / 60000 mod 60) ++ ":" ++
  padStart 2 (ms / 1000 mod 60).

(** [Date.prototype.toISOString] of a valid time value. *)
Definition toISOString (t : Z) : string :=
  let '(y, m, d) := civilFromDays (t / 86400000) in
  let year :=
    if (0 <=? y) && (y <=? 9999) then padStart 4 y
    else if y <? 0 then "-" ++ padStart 6 (- y)
    else "+" ++ padStart 6 y in
  year ++ "-" ++ padStart 2 m ++ "-" ++ padStart 2 d ++ "T" ++
  timeOfDay t ++ "." ++ padStart 3 (t mod 1000) ++ "Z".

Definition dayName (t : Z) : string :=
  nth (Z.to_nat ((t / 86400000 + 4) mod 7))
      ["Sun"; "Mon"; "Tue"; "Wed"; "Thu"; "Fri"; "Sat"] "".

Definition monthName (m : Z) : string :=
  nth (Z.to_nat (m - 1))
      ["Jan"; "Feb"; "Mar"; "Apr"; "May"; "Jun";
       "Jul"; "Aug"; "Sep"; "Oct"; "Nov"; "Dec"] "".

(** [Date.prototype.toUTCString]; an Invalid Date prints as such. *)
Definition toUTCString (d : DateObject) : string :=
  match d with
  | None => "Invalid Date"
  | Some t =>
      let '(y, m, d) := civilFromDays (t / 86400000) in
      dayName t ++ ", " ++ padStart 2 d ++ " " ++ monthName m ++ " " ++
      (if y <? 0 then "-" ++ padStart 4 (- y) else padStart 4 y) ++ " " ++
      timeOfDay t ++ " GMT"
  end.

(** [new Date(n)] for an integral [n]: valid within 8.64e15 ms of the epoch. *)
Definition dateOfNumber (n : Z) : DateObject :=
  if Z.abs n <=? 8640000000000000 then Some n else None.

(** *** The helpers *)

(** [!date]: an empty string and the number 0 are falsy. *)
Definition falsy (date : DateInput) : bool :=
  match date with
  | DateOfObject _ => false
  | DateOfString s => negb (nonEmpty s)
  | DateOfNumber n => n =? 0
  end.

Definition formatDate {T} (date : DateInput) : M T string :=
  if falsy date then
    (t <- now ;; ret (toISOString t))%js
  else
    match date with
    | DateOfString s =>
        (parsed <- parse s ;;
         match parsed with
         | None => throw (Error ("Invalid date string: " ++ s))
         | Some t => ret (toISOString t)
         end)%js
    | DateOfNumber n =>
        match dateOfNumber n with
        | None => throw (Error ("Invalid date number: " ++ intToString n))
        | Some t => ret (toISOString t)
        end
    | DateOfObject d =>
        match d with
        | None => throw (Error "Invalid Date object")
        | Some t => ret (toISOString t)
        end
    end.

Definition formatRssDate {T} (date : DateInput) : M T string :=
  (isoDate <- formatDate date ;;
   dateObj <- parse isoDate ;;
   ret (toUTCString dateObj))%js.

Definition formatAtomDate {T} (date : DateInput) : M T string :=
  formatDate date.

Definition getCurrentDate {T} : M T string :=
  (t <- now ;; ret (toISOString t))%js.

(** *** Local time *)

(** What [isValidFeedDate] asks of the host's time zone: the local year of
    a time value ([getFullYear]) and the date object of a local calendar
    day ([new Date(year, monthIndex, day)]). *)
Module LocalTime.
Record t := mk {
  getFullYear : Z -> Z;
  ofYearMonthDay : Z -> Z -> Z -> DateObject
}.
End LocalTime.

(** [a <= b] on date objects: both are converted to numbers, and an
    Invalid Date, being NaN, compares false. *)
Definition dateLeb (a b : DateObject) : bool :=
  match a, b with
  | Some x, Some y => x <=? y
  | _, _ => false
  end.

Definition isValidFeedDate {T} (tz : LocalTime.t) (date : DateInput)
  (maxYearsInPast maxYearsInFuture : Z) : M T bool :=
  tryCatch
    (iso <- formatDate date ;;
     dateObj <- parse iso ;;
     now_ <- now ;;
     let minDate :=
       LocalTime.ofYearMonthDay tz (LocalTime.getFullYear tz now_ - maxYearsInPast) 0 1 in
     let maxDate :=
       LocalTime.ofYearMonthDay tz (LocalTime.getFullYear tz now_ + maxYearsInFuture) 11 31 in
     ret (dateLeb minDate dateObj && dateLeb dateObj maxDate))%js
    (ret false).

End DateHelper.

(* ================================================================= *)
(** ** src/utils/XmlHelper.ts *)

Module XmlHelper.

Definition escapeXml (text : string) : string :=
  replaceAll "'" "&#39;"
    (replaceAll quote "&quot;"
       (replaceAll ">" "&gt;"
          (replaceAll "<" "&lt;"
             (replaceAll "&" "&amp;" text)))).

(** [xml.split(/(<[^>]*>)/)], scanned left to right.  [text] is the text
    read since the last tag; [tag] is the tag being read, if a ['<'] has
    been seen.  A ['<'] that no ['>'] follows stays text. *)
Fixpoint splitTags (xml : string) (text : string) (tag : option string)
  : list string :=
  match xml with
  | EmptyString =>
      match tag with
      | None => [text]
      | Some t => [text ++ t]
      end
  | String c xml' =>
      match tag with
      | None =>
          if Ascii.eqb c "<" then splitTags xml' text (Some "<")
          else splitTags xml' (text ++ String c "") None
      | Some t =>
          if Ascii.eqb c ">" then text :: (t ++ ">") :: splitTags xml' "" None
          else splitTags xml' text (Some (t ++ String c ""))
      end
  end.

(** [indent.repeat(level)]: a negative count is a RangeError. *)
Definition repeatIndent (indent : string) (level : Z) : Outcome string :=
  if (level <? 0)%Z then Thrown (RangeError "Invalid count value")
  else Returned (Js.repeat indent (Z.to_nat level)).

(** [tokens[i]?.trim()], the empty string beyond the array. *)
Definition tokenAt (tokens : list string) (i : nat) : string :=
  trim (nth i tokens "").

(** One turn of the loop of [formatXml] at index [i]. *)
Definition formatStep (indent : string) (tokens : list string) (i : nat)
  (st : string * Z) : Outcome (string * Z) :=
  let '(result, level) := st in
  let token := tokenAt tokens i in
  if negb (nonEmpty token) then Returned (result, level)
  else if startsWith "<?xml" token then
    Returned (result ++ token ++ "
", level)
  else if startsWith "</" token then
    let level := (level - 1)%Z in
    let prevToken := match i with O => "" | S j => tokenAt tokens j end in
    let isInlineContent := nonEmpty prevToken && negb (startsWith "<" prevToken) in
    match (if negb isInlineContent then repeatIndent indent level else Returned "") with
    | Thrown e => Thrown e
    | Returned pad =>
        let result := result ++ pad ++ token in
        let result := if (i <? List.length tokens - 1)%nat then result ++ "
" else result in
        Returned (result, level)
    end
  else if startsWith "<" token && negb (endsWith "/>" token) then
    match repeatIndent indent level with
    | Thrown e => Thrown e
    | Returned pad =>
        let result := result ++ pad ++ token in
        let nextToken := tokenAt tokens (i + 1) in
        let tokenAfter := tokenAt tokens (i + 2) in
        let isSimpleInline :=
          nonEmpty nextToken && negb (startsWith "<" nextToken)
          && startsWith "</" tokenAfter in
        let result := if negb isSimpleInline then result ++ "
" else result in
        Returned (result, (level + 1)%Z)
    end
  else if endsWith "/>" token then
    match repeatIndent indent level with
    | Thrown e => Thrown e
    | Returned pad => Returned (result ++ pad ++ token ++ "
", level)
    end
  else
    let nextToken := tokenAt tokens (i + 1) in
    let isInlineContent := startsWith "</" nextToken in
    if isInlineContent then Returned (result ++ token, level)
    else
      match repeatIndent indent level with
      | Thrown e => Thrown e
      | Returned pad => Returned (result ++ pad ++ token ++ "
", level)
      end.

(** [for (let i = ...; i < tokens.length; i++)], with [n] turns left. *)
Fixpoint formatLoop (indent : string) (tokens : list string) (n i : nat)
  (st : string * Z) : Outcome (string * Z) :=
  match n with
  | O => Returned st
  | S n' =>
      match formatStep indent tokens i st with
      | Thrown e => Thrown e
      | Returned st' => formatLoop indent tokens n' (S i) st'
      end
  end.

Definition formatXml (xml : string) (indent : string) : Outcome string :=
  let tokens := splitTags xml "" None in
  match formatLoop indent tokens (List.length tokens) 0 ("", 0%Z) with
  | Thrown e => Thrown e
  | Returned (result, _) => Returned (trim result)
  end.

(** [content.replace(/]]>/g, by)] *)
Fixpoint replaceCdataEnd (by_ : string) (content : string) : string :=
  match content with
  | EmptyString => EmptyString
  | String a rest1 =>
      match rest1 with
      | String b (String c rest3) =>
          if Ascii.eqb a "]" && Ascii.eqb b "]" && Ascii.eqb c ">"
          then by_ ++ replaceCdataEnd by_ rest3
          else String a (replaceCdataEnd by_ rest1)
      | _ => String a (replaceCdataEnd by_ rest1)
      end
  end.

Definition createCdata (content : string) : string :=
  let escapedContent := replaceCdataEnd "]]]]><![CDATA[>" content in
  "<![CDATA[" ++ escapedContent ++ "]]>".

(** The classes [[a-zA-Z_]] and [[a-zA-Z0-9_.-]]. *)
Definition isNameStart (c : ascii) : bool :=
  let n := nat_of_ascii c in
  ((97 <=? n) && (n <=? 122) || (65 <=? n) && (n <=? 90) || (n =? 95))%nat.
Definition isNameChar (c : ascii) : bool :=
  let n := nat_of_ascii c in
  ((97 <=? n) && (n <=? 122) || (65 <=? n) && (n <=? 90) || (48 <=? n) && (n <=? 57)
   || (n =? 95) || (n =? 46) || (n =? 45))%nat.

(** [/^[a-zA-Z_][a-zA-Z0-9_.-]*$/] *)
Definition xmlNamePattern : Regex.t :=
  Regex.Seq (Regex.Class isNameStart) (Regex.Star (Regex.Class isNameChar)).

Definition isValidXmlTagName (name : string) : bool :=
  Regex.test xmlNamePattern name.

(** [createElement(tagName, content, attributes, escapeContent)];
    [attributes] is given as [Object.entries] lists it. *)
Definition createElement (tagName content : string)
  (attributes : list (string * string)) (escapeContent : bool) : Outcome string :=
  if negb (isValidXmlTagName tagName) then
    Thrown (Error ("Invalid XML tag name: " ++ tagName))
  else
    let attrs :=
      join " " (map (fun '(key, value) => key ++ "=" ++ dq ++ escapeXml value ++ dq)
                    attributes) in
    let attrString := if nonEmpty attrs then " " ++ attrs else "" in
    let processedContent := if escapeContent then escapeXml content else content in
    if negb (nonEmpty content) then
      Returned ("<" ++ tagName ++ attrString ++ "/>")
    else
      Returned ("<" ++ tagName ++ attrString ++ ">" ++ processedContent
                ++ "</" ++ tagName ++ ">").

End XmlHelper.

(* ================================================================= *)
(** ** src/core/Feed.ts *)

Definition nl : string := String (ascii_of_nat 10) EmptyString.

(** Truthiness of optional fields. *)
Definition truthyString (o : option string) : bool :=
  match o with Some s => nonEmpty s | None => false end.
Definition truthyNumber (o : option Z) : bool :=
  match o with Some n => negb (n =? 0)%Z | None => false end.
Definition truthyDate (o : option DateOrString) : bool :=
  match o with
  | Some (AsDate _) => true
  | Some (AsString s) => nonEmpty s
  | None => false
  end.

(** [a || b] on strings and numbers, [a ?? b] on anything. *)
Definition orString (a : option string) (b : string) : string :=
  match a with Some s => if nonEmpty s then s else b | None => b end.
Definition orNumber (a : option Z) (b : Z) : Z :=
  match a with Some n => if (n =? 0)%Z then b else n | None => b end.
Definition orArray {A} (a : option (list A)) (b : list A) : list A :=
  match a with Some l => l | None => b end.
Definition nullish {A} (a : option A) (b : A) : A :=
  match a with Some v => v | None => b end.

Module FeedItem.
Import DateHelper.

Record t := mk { data : FeedItemData.t }.

(** [constructor(data) { this.data = { ...data } }] *)
Definition new (data : FeedItemData.t) : t := mk data.

Definition getTitle : M t string :=
  (i <- getThis ;; ret (FeedItemData.title (data i)))%js.
Definition getDescription : M t string :=
  (i <- getThis ;; ret (FeedItemData.description (data i)))%js.
Definition getLink : M t string :=
  (i <- getThis ;; ret (FeedItemData.link (data i)))%js.
Definition getAuthor : M t (option string) :=
  (i <- getThis ;; ret (FeedItemData.author (data i)))%js.

Definition getPubDate : M t string :=
  (i <- getThis ;;
   if negb (truthyDate (FeedItemData.pubdate (data i))) then getCurrentDate
   else
     match FeedItemData.pubdate (data i) with
     | Some (AsString s) => ret s
     | Some (AsDate (Some t)) => ret (toISOString t)
     | Some (AsDate None) => throw (RangeError "Invalid time value")
     | None => getCurrentDate
     end)%js.

End FeedItem.

(** [Required<FeedConfig>]: the configuration the feed holds. *)
Module Config.
Record t := mk {
  baseUrl : string;
  validate : bool;
  escapeContent : bool;
  prettyPrint : bool;
  dateFormat : string;
  language : string;
  maxItems : Z;
  maxFileSize : Z;
  allowedDomains : list string;
  version : string
}.
End Config.

Module Feed.
Import Validator ItemValidator DateHelper XmlHelper.

(** The fields of [class Feed], but for [adapters], which the class
    stores and never reads. *)
Record t := mk {
  config : Config.t;
  items : list FeedItem.t;
  title : string;
  description : string;
  link : string;
  language : string;
  copyright : string;
  managingEditor : string;
  webMaster : string;
  category : string;
  generator : string;
  docs : string;
  lastBuildDate : string
}.

(** Assignments to single fields. *)
Definition withItems (v : list FeedItem.t) (f : t) : t :=
  mk (config f) v (title f) (description f) (link f) (language f) (copyright f)
     (managingEditor f) (webMaster f) (category f) (generator f) (docs f)
     (lastBuildDate f).
Definition withTitle (v : string) (f : t) : t :=
  mk (config f) (items f) v (description f) (link f) (language f) (copyright f)
     (managingEditor f) (webMaster f) (category f) (generator f) (docs f)
     (lastBuildDate f).
Definition withDescription (v : string) (f : t) : t :=
  mk (config f) (items f) (title f) v (link f) (language f) (copyright f)
     (managingEditor f) (webMaster f) (category f) (generator f) (docs f)
     (lastBuildDate f).
Definition withLink (v : string) (f : t) : t :=
  mk (config f) (items f) (title f) (description f) v (language f) (copyright f)
     (managingEditor f) (webMaster f) (category f) (generator f) (docs f)
     (lastBuildDate f).
Definition withLanguage (v : string) (f : t) : t :=
  mk (config f) (items f) (title f) (description f) (link f) v (copyright f)
     (managingEditor f) (webMaster f) (category f) (generator f) (docs f)
     (lastBuildDate f).
Definition withCopyright (v : string) (f : t) : t :=
  mk (config f) (items f) (title f) (description f) (link f) (language f) v
     (managingEditor f) (webMaster f) (category f) (generator f) (docs f)
     (lastBuildDate f).
Definition withManagingEditor (v : string) (f : t) : t :=
  mk (config f) (items f) (title f) (description f) (link f) (language f) (copyright f)
     v (webMaster f) (category f) (generator f) (docs f) (lastBuildDate f).
Definition withWebMaster (v : string) (f : t) : t :=
  mk (config f) (items f) (title f) (description f) (link f) (language f) (copyright f)
     (managingEditor f) v (category f) (generator f) (docs f) (lastBuildDate f).
Definition withCategory (v : string) (f : t) : t :=
  mk (config f) (items f) (title f) (description f) (link f) (language f) (copyright f)
     (managingEditor f) (webMaster f) v (generator f) (docs f) (lastBuildDate f).
Definition withLastBuildDate (v : string) (f : t) : t :=
  mk (config f) (items f) (title f) (description f) (link f) (language f) (copyright f)
     (managingEditor f) (webMaster f) (category f) (generator f) (docs f) v.

(** [this.x = v] *)
Definition assign (upd : t -> t) : M t unit :=
  (f <- getThis ;; setThis (upd f))%js.

(** The configuration the constructor computes. *)
Definition effectiveConfig (config : FeedConfig.t) : Config.t :=
  {| Config.baseUrl := orString (FeedConfig.baseUrl config) "";
     Config.validate := nullish (FeedConfig.validate config) false;
     Config.escapeContent := nullish (FeedConfig.escapeContent config) true;
     Config.prettyPrint := nullish (FeedConfig.prettyPrint config) false;
     Config.dateFormat := orString (FeedConfig.dateFormat config) "ISO";
     Config.language := orString (FeedConfig.language config) "en";
     Config.maxItems := orNumber (FeedConfig.maxItems config) 50000;
     Config.maxFileSize := orNumber (FeedConfig.maxFileSize config) (50 * 1024 * 1024);
     Config.allowedDomains := orArray (FeedConfig.allowedDomains config) [];
     Config.version := nullish (FeedConfig.version config) "1.0.0" |}.

(** The object [new Feed(config)] builds, given the value its
    [lastBuildDate] initialiser drew: the other initialisers, then the
    constructor body, which sets [config] and overwrites [language]. *)
Definition make (lastBuildDate : string) (config : FeedConfig.t) : t :=
  let cfg := effectiveConfig config in
  {| config := cfg;
     items := [];
     title := ""; description := ""; link := "";
     language := Config.language cfg;
     copyright := ""; managingEditor := ""; webMaster := ""; category := "";
     generator := "@rumenx/feed";
     docs := "https://www.rssboard.org/rss-specification";
     lastBuildDate := lastBuildDate |}.

(** [new Feed(config)] *)
Definition new {T} (config : FeedConfig.t) : M T t :=
  (lastBuildDate <- getCurrentDate ;; ret (make lastBuildDate config))%js.

Definition setTitle (title : string) : M t unit := assign (withTitle (trim title)).
Definition getTitle : M t string := (f <- getThis ;; ret (Feed.title f))%js.
Definition setDescription (description : string) : M t unit :=
  assign (withDescription (trim description)).
Definition getDescription : M t string := (f <- getThis ;; ret (Feed.description f))%js.
Definition setLink (link : string) : M t unit := assign (withLink (trim link)).
Definition getLink : M t string := (f <- getThis ;; ret (Feed.link f))%js.
Definition setLanguage (language : string) : M t unit :=
  assign (withLanguage (trim language)).
Definition getLanguage : M t string := (f <- getThis ;; ret (Feed.language f))%js.
Definition setCopyright (copyright : string) : M t unit :=
  assign (withCopyright (trim copyright)).
Definition setManagingEditor (email : string) : M t unit :=
  assign (withManagingEditor (trim email)).
Definition setCategory (category : string) : M t unit :=
  assign (withCategory (trim category)).
Definition setWebMaster (email : string) : M t unit :=
  assign (withWebMaster (trim email)).

(** [private resolveUrl(url)] *)
Definition resolveUrl (cfg : Config.t) (url : string) : string :=
  if negb (nonEmpty (Config.baseUrl cfg))
     || startsWith "http://" url || startsWith "https://" url
  then url
  else
    let base := if endsWith "/" (Config.baseUrl cfg)
                then sliceDropLast (Config.baseUrl cfg)
                else Config.baseUrl cfg in
    let path := if startsWith "/" url then url else "/" ++ url in
    base ++ path.

(** [private processItemData(itemData)] *)
Definition processItemData (cfg : Config.t) (itemData : FeedItemData.t)
  : FeedItemData.t :=
  if nonEmpty (Config.baseUrl cfg) then
    FeedItemData.mk
      (FeedItemData.title itemData)
      (FeedItemData.description itemData)
      (resolveUrl cfg (FeedItemData.link itemData))
      (FeedItemData.author itemData)
      (FeedItemData.pubdate itemData)
      (FeedItemData.guid itemData)
      (FeedItemData.category itemData)
      (FeedItemData.enclosure itemData)
      (option_map
         (map (fun img =>
                 ImageData.mk (resolveUrl cfg (ImageData.url img))
                   (ImageData.title img) (ImageData.caption img) (ImageData.type img)
                   (ImageData.width img) (ImageData.height img)
                   (ImageData.license img) (ImageData.geoLocation img)))
         (FeedItemData.images itemData))
      (option_map
         (map (fun video =>
                 VideoData.mk (resolveUrl cfg (VideoData.thumbnail_url video))
                   (VideoData.title video) (VideoData.description video)
                   (resolveUrl cfg (VideoData.content_url video))
                   (VideoData.duration video) (VideoData.rating video)
                   (VideoData.view_count video) (VideoData.publication_date video)
                   (VideoData.family_friendly video) (VideoData.tags video)))
         (FeedItemData.videos itemData))
      (option_map
         (map (fun trans =>
                 TranslationData.mk (TranslationData.language trans)
                   (resolveUrl cfg (TranslationData.url trans))))
         (FeedItemData.translations itemData))
      (FeedItemData.news itemData)
      (FeedItemData.priority itemData)
      (FeedItemData.changefreq itemData)
  else itemData.

Definition addItem (itemData : FeedItemData.t) : M t unit :=
  (f <- getThis ;;
   (if Config.validate (config f) then
      let errors := validateFeedItem itemData (Config.allowedDomains (config f)) in
      if (0 <? List.length errors)%nat then
        throw (Error ("Validation failed: " ++ join ", " (map message errors)))
      else ret tt
    else ret tt) ;;;
   let processedData := processItemData (config f) itemData in
   let item := FeedItem.new processedData in
   assign (fun f => withItems (items f ++ [item])%list f) ;;;
   d <- getCurrentDate ;;
   assign (withLastBuildDate d))%js.

(** [xs.forEach(x => body(x))] *)
Fixpoint forEach {A} (body : A -> M t unit) (xs : list A) : M t unit :=
  match xs with
  | [] => ret tt
  | x :: xs' => (body x ;;; forEach body xs')%js
  end.

Definition addItems (itemsData : list FeedItemData.t) : M t unit :=
  forEach addItem itemsData.

Definition getItems : M t (list FeedItem.t) := (f <- getThis ;; ret (items f))%js.
Definition getItemCount : M t nat := (f <- getThis ;; ret (List.length (items f)))%js.

Definition removeItems (predicate : FeedItem.t -> bool) : M t unit :=
  (assign (fun f => withItems (filter (fun item => negb (predicate item)) (items f)) f) ;;;
   d <- getCurrentDate ;;
   assign (withLastBuildDate d))%js.

Definition clear : M t unit :=
  (assign (withItems []) ;;;
   d <- getCurrentDate ;;
   assign (withLastBuildDate d))%js.

Definition validate : M t (list ValidationError) :=
  (f <- getThis ;;
   let errors : list ValidationError := [] in
   let errors :=
     if negb (nonEmpty (trim (title f))) then
       (errors ++ [ {| field := "title"; type := "required";
                       message := "Feed title is required";
                       value := JStr (title f) |} ])%list
     else errors in
   let errors :=
     if negb (nonEmpty (trim (description f))) then
       (errors ++ [ {| field := "description"; type := "required";
                       message := "Feed description is required";
                       value := JStr (description f) |} ])%list
     else errors in
   let errors :=
     if negb (nonEmpty (trim (link f))) then
       (errors ++ [ {| field := "link"; type := "required";
                       message := "Feed link is required";
                       value := JStr (link f) |} ])%list
     else errors in
   let errors :=
     forEachIndexed
       (fun item index errors =>
          let itemErrors :=
            validateFeedItem (FeedItem.data item) (Config.allowedDomains (config f)) in
          fold_left
            (fun errors error =>
               (errors ++ [ {| field := "items[" ++ natToString index ++ "]." ++ field error;
                               type := type error;
                               message := message error;
                               value := value error |} ])%list)
            itemErrors errors)
       (items f) 0%nat errors in
   ret errors)%js.

(** [private estimateSize()] *)
Definition estimateSize (f : t) : Z :=
  let baseSize := 1000%Z in
  let averageItemSize := 2000%Z in
  (baseSize + Z.of_nat (List.length (items f)) * averageItemSize)%Z.

Definition lengthOrZero {A} (o : option (list A)) : nat :=
  match o with Some l => List.length l | None => 0%nat end.

Definition numberOfNat (n : nat) : float :=
  PrimFloat.of_uint63 (Uint63.of_Z (Z.of_nat n)).

Definition getStats : M t FeedStats.t :=
  (f <- getThis ;;
   let totalImages :=
     fold_left (fun sum item => (sum + lengthOrZero (FeedItemData.images (FeedItem.data item)))%nat)
               (items f) 0%nat in
   let totalVideos :=
     fold_left (fun sum item => (sum + lengthOrZero (FeedItemData.videos (FeedItem.data item)))%nat)
               (items f) 0%nat in
   let totalTranslations :=
     fold_left (fun sum item => (sum + lengthOrZero (FeedItemData.translations (FeedItem.data item)))%nat)
               (items f) 0%nat in
   let priorities :=
     flat_map (fun item => match FeedItemData.priority (FeedItem.data item) with
                           | Some p => [p]
                           | None => []
                           end) (items f) in
   let averagePriority :=
     if (0 <? List.length priorities)%nat then
       PrimFloat.div (fold_left PrimFloat.add priorities 0%float)
                     (numberOfNat (List.length priorities))
     else 0%float in
   ret {| FeedStats.totalItems := List.length (items f);
          FeedStats.totalImages := totalImages;
          FeedStats.totalVideos := totalVideos;
          FeedStats.totalTranslations := totalTranslations;
          FeedStats.averagePriority := averagePriority;
          FeedStats.lastModified := lastBuildDate f;
          FeedStats.sizeEstimate := estimateSize f |})%js.

Definition shouldSplit : M t bool :=
  (f <- getThis ;;
   ret ((Config.maxItems (config f) <? Z.of_nat (List.length (items f)))%Z
        || (Config.maxFileSize (config f) <? estimateSize f)%Z))%js.

(** [private hasMedia()] *)
Definition hasMedia (f : t) : bool :=
  existsb (fun item =>
             match FeedItemData.images (FeedItem.data item) with
             | Some images => (0 <? List.length images)%nat
             | None => false
             end
             ||
             match FeedItemData.videos (FeedItem.data item) with
             | Some videos => (0 <? List.length videos)%nat
             | None => false
             end)
          (items f).

(** [private hasGoogleNews()] *)
Definition hasGoogleNews (f : t) : bool :=
  existsb (fun item =>
             match FeedItemData.news (FeedItem.data item) with
             | Some _ => true
             | None => false
             end)
          (items f).

(** [for (const x of xs) s += piece(x)] *)
Definition appendEach {A} (piece : A -> string) (xs : list A) (s : string) : string :=
  fold_left (fun s x => s ++ piece x) xs s.

(** [Array.isArray(c) ? c : [c]] *)
Definition categories (c : Category) : list string :=
  match c with
  | CategoryOne c => [c]
  | CategoryMany cs => cs
  end.

(** [if (item.category)]: an array is truthy even when empty. *)
Definition truthyCategory (o : option Category) : bool :=
  match o with
  | Some (CategoryOne c) => nonEmpty c
  | Some (CategoryMany _) => true
  | None => false
  end.

(** [private generateRSSItem(item)] *)
Definition generateRSSItem (item : FeedItemData.t) : M t string :=
  (let rssItem := "    <item>" ++ nl in
   let rssItem := rssItem ++ "      <title>" ++ escapeXml (FeedItemData.title item)
                          ++ "</title>" ++ nl in
   let rssItem := rssItem ++ "      <link>" ++ escapeXml (FeedItemData.link item)
                          ++ "</link>" ++ nl in
   let rssItem := rssItem ++ "      <description>"
                          ++ escapeXml (FeedItemData.description item)
                          ++ "</description>" ++ nl in
   let rssItem :=
     match FeedItemData.author item with
     | Some author =>
         if nonEmpty author
         then rssItem ++ "      <author>" ++ escapeXml author ++ "</author>" ++ nl
         else rssItem
     | None => rssItem
     end in
   let rssItem :=
     match FeedItemData.category item with
     | Some category =>
         if truthyCategory (Some category) then
           appendEach (fun cat => "      <category>" ++ escapeXml cat ++ "</category>" ++ nl)
                      (categories category) rssItem
         else rssItem
     | None => rssItem
     end in
   rssItem <-
     match FeedItemData.pubdate item with
     | Some pubdate =>
         if truthyDate (Some pubdate) then
           d <- formatRssDate (toDateInput pubdate) ;;
           ret (rssItem ++ "      <pubDate>" ++ d ++ "</pubDate>" ++ nl)
         else ret rssItem
     | None => ret rssItem
     end ;;
   let guid := nullish (FeedItemData.guid item) (FeedItemData.link item) in
   let rssItem := rssItem ++ "      <guid>" ++ escapeXml guid ++ "</guid>" ++ nl in
   let rssItem :=
     match FeedItemData.enclosure item with
     | Some enclosure =>
         let rssItem := rssItem ++ ("      <enclosure url=" ++ dq) ++ escapeXml (EnclosureData.url enclosure)
                                ++ (dq ++ " type=" ++ dq) ++ escapeXml (EnclosureData.type enclosure) ++ dq in
         let rssItem :=
           match EnclosureData.length enclosure with
           | Some length =>
               if truthyNumber (Some length)
               then rssItem ++ (" length=" ++ dq) ++ intToString length ++ dq
               else rssItem
           | None => rssItem
           end in
         rssItem ++ "/>" ++ nl
     | None => rssItem
     end in
   let rssItem :=
     match FeedItemData.images item with
     | Some images =>
         if (0 <? List.length images)%nat then
           appendEach
             (fun image =>
                let s := ("      <media:content url=" ++ dq) ++ escapeXml (ImageData.url image) ++ dq in
                let s := match ImageData.type image with
                         | Some type => if nonEmpty type
                                        then s ++ (" type=" ++ dq) ++ escapeXml type ++ dq else s
                         | None => s
                         end in
                let s := match ImageData.width image with
                         | Some width => if truthyNumber (Some width)
                                         then s ++ (" width=" ++ dq) ++ intToString width ++ dq else s
                         | None => s
                         end in
                let s := match ImageData.height image with
                         | Some height => if truthyNumber (Some height)
                                          then s ++ (" height=" ++ dq) ++ intToString height ++ dq else s
                         | None => s
                         end in
                s ++ "/>" ++ nl)
             images rssItem
         else rssItem
     | None => rssItem
     end in
   let rssItem :=
     match FeedItemData.videos item with
     | Some videos =>
         if (0 <? List.length videos)%nat then
           appendEach
             (fun video =>
                let s := ("      <media:content url=" ++ dq) ++ escapeXml (VideoData.content_url video)
                         ++ (dq ++ " type=" ++ dq ++ "video" ++ dq) in
                let s := match VideoData.duration video with
                         | Some duration => if truthyNumber (Some duration)
                                            then s ++ (" duration=" ++ dq) ++ intToString duration ++ dq
                                            else s
                         | None => s
                         end in
                let s := s ++ ">" ++ nl in
                let s := s ++ ("        <media:thumbnail url=" ++ dq)
                           ++ escapeXml (VideoData.thumbnail_url video) ++ (dq ++ "/>") ++ nl in
                s ++ "      </media:content>" ++ nl)
             videos rssItem
         else rssItem
     | None => rssItem
     end in
   let rssItem :=
     match FeedItemData.news item with
     | Some news =>
         match NewsData.keywords news with
         | Some keywords =>
             if nonEmpty keywords
             then rssItem ++ "      <news:keywords>" ++ escapeXml keywords
                          ++ "</news:keywords>" ++ nl
             else rssItem
         | None => rssItem
         end
     | None => rssItem
     end in
   ret (rssItem ++ "    </item>" ++ nl))%js.

Definition xmlDeclaration : string := ("<?xml version=" ++ dq ++ "1.0" ++ dq ++ " encoding=" ++ dq ++ "UTF-8" ++ dq ++ "?>").
Definition mediaNamespace : string := (" xmlns:media=" ++ dq ++ "http://search.yahoo.com/mrss/" ++ dq).
Definition newsNamespace : string :=
  (" xmlns:news=" ++ dq ++ "http://www.google.com/schemas/sitemap-news/0.9" ++ dq).

(** [`@rumenx/feed v${this.config.version || '1.0.0'}`] *)
Definition generatorTag (f : t) : string :=
  "<generator>@rumenx/feed v"
  ++ (if nonEmpty (Config.version (config f)) then Config.version (config f) else "1.0.0")
  ++ "</generator>" ++ nl.

(** [private generateRSS()] *)
Definition generateRSS : M t string :=
  (f <- getThis ;;
   let rss := ("<rss version=" ++ dq ++ "2.0" ++ dq) in
   let rss := if hasMedia f then rss ++ mediaNamespace else rss in
   let rss := if hasGoogleNews f then rss ++ newsNamespace else rss in
   let rss := rss ++ ">" ++ nl in
   let rss := rss ++ "  <channel>" ++ nl in
   let rss := rss ++ "    <title>" ++ escapeXml (title f) ++ "</title>" ++ nl in
   let rss := rss ++ "    <link>" ++ escapeXml (link f) ++ "</link>" ++ nl in
   let rss := rss ++ "    <description>" ++ escapeXml (description f) ++ "</description>" ++ nl in
   let rss := if nonEmpty (language f)
              then rss ++ "    <language>" ++ escapeXml (language f) ++ "</language>" ++ nl
              else rss in
   let rss := if nonEmpty (managingEditor f)
              then rss ++ "    <managingEditor>" ++ escapeXml (managingEditor f)
                       ++ "</managingEditor>" ++ nl
              else rss in
   let rss := if nonEmpty (webMaster f)
              then rss ++ "    <webMaster>" ++ escapeXml (webMaster f) ++ "</webMaster>" ++ nl
              else rss in
   let rss := if nonEmpty (category f)
              then rss ++ "    <category>" ++ escapeXml (category f) ++ "</category>" ++ nl
              else rss in
   let rss := if nonEmpty (copyright f)
              then rss ++ "    <copyright>" ++ escapeXml (copyright f) ++ "</copyright>" ++ nl
              else rss in
   d <- formatRssDate (DateOfString (lastBuildDate f)) ;;
   let rss := rss ++ "    <lastBuildDate>" ++ d ++ "</lastBuildDate>" ++ nl in
   let rss := rss ++ "    " ++ generatorTag f in
   rss <- forEachAppend (fun feedItem => generateRSSItem (FeedItem.data feedItem))
                        (items f) rss ;;
   let rss := rss ++ "  </channel>" ++ nl in
   let rss := rss ++ "</rss>" in
   lift (formatXml (xmlDeclaration ++ nl ++ rss) "  "))%js.

(** [private generateAtomEntry(item)] *)
Definition generateAtomEntry (item : FeedItemData.t) : M t string :=
  (let entry := "  <entry>" ++ nl in
   let entry := entry ++ "    <title>" ++ escapeXml (FeedItemData.title item)
                      ++ "</title>" ++ nl in
   let entry := entry ++ ("    <link href=" ++ dq) ++ escapeXml (FeedItemData.link item)
                      ++ (dq ++ "/>") ++ nl in
   let id := nullish (FeedItemData.guid item) (FeedItemData.link item) in
   let entry := entry ++ "    <id>" ++ escapeXml id ++ "</id>" ++ nl in
   entry <-
     match FeedItemData.pubdate item with
     | Some pubdate =>
         if truthyDate (Some pubdate) then
           d <- formatAtomDate (toDateInput pubdate) ;;
           ret (entry ++ "    <updated>" ++ d ++ "</updated>" ++ nl)
         else ret entry
     | None => ret entry
     end ;;
   let entry := entry ++ "    <summary>" ++ escapeXml (FeedItemData.description item)
                      ++ "</summary>" ++ nl in
   let entry :=
     match FeedItemData.author item with
     | Some author =>
         if nonEmpty author then
           entry ++ "    <author>" ++ nl
                 ++ "      <name>" ++ escapeXml author ++ "</name>" ++ nl
                 ++ "    </author>" ++ nl
         else entry
     | None => entry
     end in
   let entry :=
     match FeedItemData.category item with
     | Some category =>
         if truthyCategory (Some category) then
           appendEach (fun cat => ("    <category term=" ++ dq) ++ escapeXml cat ++ (dq ++ "/>") ++ nl)
                      (categories category) entry
         else entry
     | None => entry
     end in
   ret (entry ++ "  </entry>" ++ nl))%js.

(** [private generateAtom()] *)
Definition generateAtom : M t string :=
  (f <- getThis ;;
   let atom := ("<feed xmlns=" ++ dq ++ "http://www.w3.org/2005/Atom" ++ dq ++ ">") ++ nl in
   let atom := atom ++ "  <title>" ++ escapeXml (title f) ++ "</title>" ++ nl in
   let atom := atom ++ ("  <link href=" ++ dq) ++ escapeXml (link f) ++ (dq ++ "/>") ++ nl in
   let atom := atom ++ "  <id>" ++ escapeXml (link f) ++ "</id>" ++ nl in
   d <- formatAtomDate (DateOfString (lastBuildDate f)) ;;
   let atom := atom ++ "  <updated>" ++ d ++ "</updated>" ++ nl in
   let atom := if nonEmpty (description f)
               then atom ++ "  <subtitle>" ++ escapeXml (description f) ++ "</subtitle>" ++ nl
               else atom in
   let atom := if nonEmpty (managingEditor f)
               then atom ++ "  <author>" ++ nl
                         ++ "    <email>" ++ escapeXml (managingEditor f) ++ "</email>" ++ nl
                         ++ "  </author>" ++ nl
               else atom in
   let atom := if nonEmpty (copyright f)
               then atom ++ "  <rights>" ++ escapeXml (copyright f) ++ "</rights>" ++ nl
               else atom in
   let atom := atom ++ "  " ++ generatorTag f in
   atom <- forEachAppend (fun feedItem => generateAtomEntry (FeedItem.data feedItem))
                         (items f) atom ;;
   let atom := atom ++ "</feed>" in
   lift (formatXml (xmlDeclaration ++ nl ++ atom) "  "))%js.

(** [toXML(format)]; a caller may force any string into [format]. *)
Definition toXML (format : string) : M t string :=
  if (format =? "rss")%string then generateRSS
  else if (format =? "atom")%string then generateAtom
  else throw (Error ("Unsupported feed format: " ++ format)).

End Feed.

(* ================================================================= *)
(** ** The validation rules as the specification words them *)

Module Rules.
Import Validator.

(** A field must be a non-empty string after trimming. *)
Definition requiredRule (v : string) (name : string) : list ValidationError :=
  if nonEmpty (trim v) then []
  else [ mkError name "required"
           (name ++ " is required and must be a non-empty string") (JStr v) ].

(** A URL field must be a required string, then match the URL grammar, then,
    under a non-empty list of allowed domains, name a host that is one of
    them or a subdomain of one; the first of the three that fails is the
    violation of the field. *)
Definition urlRule (v : string) (name : string) (allowedDomains : list string)
  : list ValidationError :=
  if negb (nonEmpty (trim v)) then requiredRule v name
  else if negb (urlPattern_test (trim v)) then
    [ mkError name "invalid_url" (name ++ " must be a valid HTTP or HTTPS URL") (JStr v) ]
  else if negb (isAllowedDomain v allowedDomains) then
    [ mkError name "domain_not_allowed"
        (name ++ " domain is not in the allowed domains list") (JStr v) ]
  else [].

(** A priority must lie in [0.0, 1.0]. *)
Definition priorityRule (p : float) : list ValidationError :=
  if PrimFloat.leb 0 p && PrimFloat.leb p 1 then []
  else [ mkError "priority" "invalid_range"
           "priority must be a number between 0.0 and 1.0" (JNum p) ].

(** A language must match the language-tag grammar. *)
Definition languageRule (l : string) (name : string) : list ValidationError :=
  if nonEmpty (trim l) && langPattern_test l then []
  else [ mkError name "invalid_language"
           "language must be a valid RFC 3066 language code" (JStr l) ].

(** A rule applied to every element of an optional array, index by index. *)
Definition perIndex {A} (rule : nat -> A -> list ValidationError)
  (xs : option (list A)) : list ValidationError :=
  match xs with
  | None => []
  | Some l => flat_map (fun '(i, x) => rule i x) (combine (seq 0 (List.length l)) l)
  end.

Definition path (array : string) (i : nat) (prop : string) : string :=
  array ++ "[" ++ natToString i ++ "]." ++ prop.

(** All violations of an item, in the fixed order of the rules. *)
Definition violationsInOrder (item : FeedItemData.t) (allowedDomains : list string)
  : list ValidationError :=
  (requiredRule (FeedItemData.title item) "title"
   ++ requiredRule (FeedItemData.description item) "description"
   ++ urlRule (FeedItemData.link item) "link" allowedDomains
   ++ match FeedItemData.author item with
      | Some a => requiredRule a "author"
      | None => []
      end
   ++ match FeedItemData.priority item with
      | Some p => priorityRule p
      | None => []
      end
   ++ perIndex (fun i image =>
                  urlRule (ImageData.url image) (path "images" i "url") allowedDomains)
               (FeedItemData.images item)
   ++ perIndex (fun i video =>
                  urlRule (VideoData.thumbnail_url video)
                          (path "videos" i "thumbnail_url") allowedDomains
                  ++ urlRule (VideoData.content_url video)
                             (path "videos" i "content_url") allowedDomains
                  ++ requiredRule (VideoData.title video) (path "videos" i "title")
                  ++ requiredRule (VideoData.description video)
                                  (path "videos" i "description"))
               (FeedItemData.videos item)
   ++ perIndex (fun i translation =>
                  requiredRule (TranslationData.language translation)
                               (path "translations" i "language")
                  ++ languageRule (TranslationData.language translation)
                                  (path "translations" i "language")
                  ++ urlRule (TranslationData.url translation)
                             (path "translations" i "url") allowedDomains)
               (FeedItemData.translations item))%list.

(** The item of scenario (c): an empty title and a link that is no URL. *)
Definition scenarioItem : FeedItemData.t :=
  FeedItemData.mk "" "D" "not-a-url"
    None None None None None None None None None None None.

End Rules.

(* ================================================================= *)
(** ** The vocabulary of the properties *)

(** *** Strings *)

(** [s] occurs in [t]. *)
Definition Occurs (s t : string) : Prop := exists a b, t = a ++ s ++ b.

(** Occurrence of one string in another, decided. *)
Fixpoint occursb (s t : string) : bool :=
  String.prefix s t
  || match t with
     | EmptyString => false
     | String _ t' => occursb s t'
     end.

(** [s] starts with [p]. *)
Definition Extends (p s : string) : Prop := exists t, s = p ++ t.

(** No ['<'] in [s] is followed by [c], and none ends [s]: no tag whose
    name starts with [c] opens in [s]. *)
Fixpoint opensNo (c : ascii) (s : string) : bool :=
  match s with
  | EmptyString => true
  | String a s' =>
      (if Ascii.eqb a "<" then
         match s' with
         | EmptyString => false
         | String b _ => negb (Ascii.eqb b c)
         end
       else true)
      && opensNo c s'
  end.

Definition noLt (s : string) : bool := allChars (fun a => negb (Ascii.eqb a "<")) s.

(** *** Computations *)

(** [m] run from [w] leaves the world as it is: the object, the host and
    the number of clock readings. *)
Definition pureAt {T A} (m : M T A) (w : World T) : Prop := snd (m w) = w.

(** What holds of the value [m] returns from [w], if it returns. *)
Definition post {T A} (m : M T A) (w : World T) (Q : A -> Prop) : Prop :=
  forall a w', m w = (Returned a, w') -> Q a.

(** [m] returns from [w] a string that satisfies [P], and leaves [w]. *)
Definition yields {T} (m : M T string) (w : World T) (P : string -> Prop) : Prop :=
  exists s, m w = (Returned s, w) /\ P s.

Definition isReturned {A} (o : Outcome A) : bool :=
  match o with Returned _ => true | Thrown _ => false end.

(** *** Insertion *)

Module Insertion.
Import Validator ItemValidator DateHelper Feed.

(** The world after a successful [addItem]. *)
Definition inserted (itemData : FeedItemData.t) (w : World Feed.t) : World Feed.t :=
  mkWorld
    (withLastBuildDate (toISOString (Host.clock (host w) (reads w)))
       (withItems (items (this w)
                   ++ [FeedItem.new (processItemData (config (this w)) itemData)])%list
                  (this w)))
    (host w) (S (reads w)).

(** The world after the successful insertion of every element, in order. *)
Fixpoint insertedAll (xs : list FeedItemData.t) (w : World Feed.t) : World Feed.t :=
  match xs with
  | [] => w
  | x :: xs' => insertedAll xs' (inserted x w)
  end.

(** [addItem] accepts the data: the feed does not validate, or no error is
    reported. *)
Definition accepted (w : World Feed.t) (x : FeedItemData.t) : Prop :=
  Config.validate (config (this w)) = false
  \/ validateFeedItem x (Config.allowedDomains (config (this w))) = [].

Definition failureMessage (errors : list ValidationError) : string :=
  "Validation failed: " ++ join ", " (map message errors).

(** A setter returns, and changes nothing but its own field: in
    particular it reads no clock and keeps [lastBuildDate]. *)
Definition keepsLastBuildDate (m : M Feed.t unit) (w : World Feed.t) : Prop :=
  exists w',
    m w = (Returned tt, w')
    /\ lastBuildDate (this w') = lastBuildDate (this w)
    /\ items (this w') = items (this w)
    /\ reads w' = reads w.

End Insertion.

(** *** URLs *)

Module Urls.

(** The base with a trailing slash stripped. *)
Definition isStrippedBase (baseUrl base : string) : Prop :=
  baseUrl = base ++ "/" \/ (baseUrl = base /\ endsWith "/" baseUrl = false).

(** The path with a leading slash inserted if absent. *)
Definition isSlashedPath (url path : string) : Prop :=
  (path = url /\ startsWith "/" url = true)
  \/ (path = "/" ++ url /\ startsWith "/" url = false).

Definition isAbsolute (url : string) : bool :=
  startsWith "http://" url || startsWith "https://" url.

End Urls.

(** *** Constructor options *)

Module Options.

(** A configuration with the five [||]-defaulted scalar options replaced. *)
Definition withOrOptions (baseUrl dateFormat language : option string)
  (maxItems maxFileSize : option Z) (c : FeedConfig.t) : FeedConfig.t :=
  FeedConfig.mk baseUrl (FeedConfig.validate c) (FeedConfig.escapeContent c)
    (FeedConfig.prettyPrint c) dateFormat language maxItems maxFileSize
    (FeedConfig.allowedDomains c) (FeedConfig.version c).

(** A configuration with the four [??]-defaulted options replaced. *)
Definition withNullishOptions (validate escapeContent prettyPrint : option bool)
  (version : option string) (c : FeedConfig.t) : FeedConfig.t :=
  FeedConfig.mk (FeedConfig.baseUrl c) validate escapeContent prettyPrint
    (FeedConfig.dateFormat c) (FeedConfig.language c) (FeedConfig.maxItems c)
    (FeedConfig.maxFileSize c) (FeedConfig.allowedDomains c) version.

(** One option supplied with its falsy value, or left out, the others
    left as they are. *)
Definition falsyBaseUrl c :=
  withOrOptions (Some "") (FeedConfig.dateFormat c) (FeedConfig.language c)
    (FeedConfig.maxItems c) (FeedConfig.maxFileSize c) c.
Definition noBaseUrl c :=
  withOrOptions None (FeedConfig.dateFormat c) (FeedConfig.language c)
    (FeedConfig.maxItems c) (FeedConfig.maxFileSize c) c.
Definition falsyDateFormat c :=
  withOrOptions (FeedConfig.baseUrl c) (Some "") (FeedConfig.language c)
    (FeedConfig.maxItems c) (FeedConfig.maxFileSize c) c.
Definition noDateFormat c :=
  withOrOptions (FeedConfig.baseUrl c) None (FeedConfig.language c)
    (FeedConfig.maxItems c) (FeedConfig.maxFileSize c) c.
Definition falsyLanguage c :=
  withOrOptions (FeedConfig.baseUrl c) (FeedConfig.dateFormat c) (Some "")
    (FeedConfig.maxItems c) (FeedConfig.maxFileSize c) c.
Definition noLanguage c :=
  withOrOptions (FeedConfig.baseUrl c) (FeedConfig.dateFormat c) None
    (FeedConfig.maxItems c) (FeedConfig.maxFileSize c) c.
Definition falsyMaxItems c :=
  withOrOptions (FeedConfig.baseUrl c) (FeedConfig.dateFormat c) (FeedConfig.language c)
    (Some 0%Z) (FeedConfig.maxFileSize c) c.
Definition noMaxItems c :=
  withOrOptions (FeedConfig.baseUrl c) (FeedConfig.dateFormat c) (FeedConfig.language c)
    None (FeedConfig.maxFileSize c) c.
Definition falsyMaxFileSize c :=
  withOrOptions (FeedConfig.baseUrl c) (FeedConfig.dateFormat c) (FeedConfig.language c)
    (FeedConfig.maxItems c) (Some 0%Z) c.
Definition noMaxFileSize c :=
  withOrOptions (FeedConfig.baseUrl c) (FeedConfig.dateFormat c) (FeedConfig.language c)
    (FeedConfig.maxItems c) None c.

End Options.

(** *** Namespaces *)

Module Namespaces.

(** The start tag of the RSS root element, with or without the two
    namespace declarations. *)
Definition rootTag (media news : bool) : string :=
  "<rss version=" ++ dq ++ "2.0" ++ dq
  ++ (if media then Feed.mediaNamespace else "")
  ++ (if news then Feed.newsNamespace else "") ++ ">".

(** The item has at least one image or at least one video. *)
Definition carriesMedia (item : FeedItem.t) : Prop :=
  (exists images, FeedItemData.images (FeedItem.data item) = Some images /\ images <> [])
  \/ (exists videos, FeedItemData.videos (FeedItem.data item) = Some videos /\ videos <> []).

(** The item has a news block. *)
Definition carriesNews (item : FeedItem.t) : Prop :=
  exists news, FeedItemData.news (FeedItem.data item) = Some news.

Definition mediaDeclaration : string :=
  "xmlns:media=" ++ dq ++ "http://search.yahoo.com/mrss/" ++ dq.

Definition newsDeclaration : string :=
  "xmlns:news=" ++ dq ++ "http://www.google.com/schemas/sitemap-news/0.9" ++ dq.

End Namespaces.

(** *** A sample host and sample feeds, for the examples *)

Module Sample.
Import DateHelper.
Local Open Scope Z_scope.

Definition digit (c : ascii) : option Z :=
  let n := nat_of_ascii c in
  if ((48 <=? n) && (n <=? 57))%nat then Some (Z.of_nat (n - 48)) else None.

Fixpoint digits (s : string) (acc : Z) : option Z :=
  match s with
  | EmptyString => Some acc
  | String c s' =>
      match digit c with
      | Some d => digits s' (10 * acc + d)
      | None => None
      end
  end.

Definition daysFromCivil (y m d : Z) : Z :=
  let y := if m <=? 2 then y - 1 else y in
  let era := y / 400 in
  let yoe := y - era * 400 in
  let doy := (153 * (if 2 <? m then m - 3 else m + 9) + 2) / 5 + d - 1 in
  let doe := yoe * 365 + yoe / 4 - yoe / 100 + doy in
  era * 146097 + doe - 719468.

(** A date parser that reads the format [YYYY-MM-DDTHH:mm:ss.sssZ] and
    nothing else. *)
Definition parseIso (s : string) : option Z :=
  let part i n := digits (substring i n s) 0 in
  if negb (String.length s =? 24)%nat then None
  else
    match part 0%nat 4%nat, part 5%nat 2%nat, part 8%nat 2%nat,
          part 11%nat 2%nat, part 14%nat 2%nat, part 17%nat 2%nat, part 20%nat 3%nat with
    | Some y, Some m, Some d, Some hh, Some mm, Some ss, Some ms =>
        Some (daysFromCivil y m d * 86400000 + hh * 3600000 + mm * 60000 + ss * 1000 + ms)
    | _, _, _, _, _, _, _ => None
    end.

(** A clock that starts on 2024-01-01T12:00:00Z and gains a second per
    reading. *)
Definition host : Host.t :=
  Host.mk (fun n => 1704110400000 + 1000 * Z.of_nat n) parseIso.

(** The world after [new Feed(config)] on the sample host. *)
Definition feedOf (config : FeedConfig.t) : World Feed.t :=
  mkWorld (Feed.make (toISOString (Host.clock host 0)) config) host 1.

Definition defaults : FeedConfig.t :=
  FeedConfig.mk None None None None None None None None None None.

Definition validating : FeedConfig.t :=
  FeedConfig.mk None (Some true) None None None None None None None None.

Definition withBase : FeedConfig.t :=
  FeedConfig.mk (Some "https://example.com/") None None None None None None None None None.

Definition plainItem (title link : string) : FeedItemData.t :=
  FeedItemData.mk title "B" link
    None None None None None None None None None None None.

Definition imageItem : FeedItemData.t :=
  FeedItemData.mk "A" "B" "https://ex.com/a" None None None None None
    (Some [ImageData.mk "https://ex.com/i.jpg" None None None None None None None])
    None None None None None.

(** The sample feed with [maxItems: 2] and [maxFileSize: 5000], holding
    two items: both limits are met exactly. *)
Definition boundaryWorld : World Feed.t :=
  snd (Feed.addItems
         [plainItem "A" "https://ex.com/a"; plainItem "B" "https://ex.com/b"]
         (feedOf
            (FeedConfig.mk None None None None None None (Some 2%Z) (Some 5000%Z) None None))).

(** The feed of scenario (a), titled "T", with the item "A". *)
Definition scenarioFeed : World Feed.t :=
  snd ((Feed.setTitle "T" ;;; Feed.setDescription "D" ;;; Feed.setLink "https://ex.com" ;;;
        Feed.addItem (plainItem "A" "https://ex.com/a"))%js
         (feedOf defaults)).

(** The feed of scenario (b): the same, with an item that has an image. *)
Definition scenarioFeedWithImage : World Feed.t :=
  snd (Feed.addItem imageItem scenarioFeed).

(** The entry that scenario (a) inserted: no pubdate was given. *)
Definition scenarioEntry : FeedItem.t :=
  FeedItem.new (plainItem "A" "https://ex.com/a").

End Sample.

(** ** The vocabulary of the further properties *)

(** *** Characters *)

(** [c] does not occur in [s]. *)
Definition lacks (c : ascii) (s : string) : bool :=
  allChars (fun a => negb (Ascii.eqb a c)) s.

(** How often [c] occurs in [s]. *)
Fixpoint countChar (c : ascii) (s : string) : nat :=
  match s with
  | EmptyString => 0
  | String a s' => (if Ascii.eqb a c then 1 else 0) + countChar c s'
  end.

(** The five characters that [escapeXml] replaces. *)
Definition isSpecial (c : ascii) : bool :=
  Ascii.eqb c "&" || Ascii.eqb c "<" || Ascii.eqb c ">"
  || Ascii.eqb c quote || Ascii.eqb c "'".

(** The five entities that [escapeXml] writes. *)
Definition entities : list string :=
  ["&amp;"; "&lt;"; "&gt;"; "&quot;"; "&#39;"].

(** Every [c] of [s] starts one of [heads]. *)
Fixpoint startsOnly (c : ascii) (heads : list string) (s : string) : bool :=
  match s with
  | EmptyString => true
  | String a s' =>
      (if Ascii.eqb a c then existsb (fun h => String.prefix h s) heads else true)
      && startsOnly c heads s'
  end.

(** What [escapeXml] writes for one character. *)
Definition escapeChar (c : ascii) : string :=
  if Ascii.eqb c "&" then "&amp;"
  else if Ascii.eqb c "<" then "&lt;"
  else if Ascii.eqb c ">" then "&gt;"
  else if Ascii.eqb c quote then "&quot;"
  else if Ascii.eqb c "'" then "&#39;"
  else String c "".

(** *** CDATA sections *)

(** [xml] is a run of CDATA sections, each from [<![CDATA[] to the first
    []]>] after it, and [text] is what the sections hold, one after the
    other. *)
Inductive Sections : string -> string -> Prop :=
| sections_none : Sections "" ""
| sections_more (held rest text : string) :
    occursb "]]>" held = false ->
    Sections rest text ->
    Sections ("<![CDATA[" ++ held ++ "]]>" ++ rest) (held ++ text).

(** One attribute as [createElement] writes it. *)
Definition attribute (kv : string * string) : string :=
  let '(key, value) := kv in key ++ "=" ++ dq ++ XmlHelper.escapeXml value ++ dq.

(** *** White space *)

(** [s] without its white space. *)
Fixpoint withoutWhiteSpace (s : string) : string :=
  match s with
  | EmptyString => EmptyString
  | String c s' =>
      if isWhiteSpace c then withoutWhiteSpace s' else String c (withoutWhiteSpace s')
  end.

(** [s] is empty or starts with a character that is not white space. *)
Definition startsClean (s : string) : bool :=
  match s with
  | EmptyString => true
  | String c _ => negb (isWhiteSpace c)
  end.

(** *** The language of a regular expression *)

Inductive Matches : Regex.t -> string -> Prop :=
| matches_eps : Matches Regex.Eps ""
| matches_class p c : p c = true -> Matches (Regex.Class p) (String c "")
| matches_seq a b s1 s2 :
    Matches a s1 -> Matches b s2 -> Matches (Regex.Seq a b) (s1 ++ s2)
| matches_alt_l a b s : Matches a s -> Matches (Regex.Alt a b) s
| matches_alt_r a b s : Matches b s -> Matches (Regex.Alt a b) s
| matches_star_nil a : Matches (Regex.Star a) ""
| matches_star_more a s1 s2 :
    Matches a s1 -> Matches (Regex.Star a) s2 -> Matches (Regex.Star a) (s1 ++ s2).

(** *** Names *)

(** [k] holds no ['<'], no ['>'] and no double quote. *)
Definition isPlainName (k : string) : bool :=
  lacks "<" k && lacks ">" k && lacks quote k.

(** *** The feed's own validation *)

Module FeedRules.
Import Validator ItemValidator.

(** A metadata field of the feed must not be blank. *)
Definition feedRule (v name : string) : list ValidationError :=
  if nonEmpty (trim v) then []
  else [ mkError name "required" ("Feed " ++ name ++ " is required") (JStr v) ].

Definition feedViolations (f : Feed.t) : list ValidationError :=
  (feedRule (Feed.title f) "title"
   ++ feedRule (Feed.description f) "description"
   ++ feedRule (Feed.link f) "link")%list.

(** An error of the item at [index], as the feed reports it. *)
Definition atItem (index : nat) (e : ValidationError) : ValidationError :=
  mkError ("items[" ++ natToString index ++ "]." ++ field e) (type e) (message e) (value e).

Definition itemViolations (f : Feed.t) : list ValidationError :=
  flat_map (fun '(index, item) =>
              map (atItem index)
                  (validateFeedItem (FeedItem.data item)
                     (Config.allowedDomains (Feed.config f))))
           (combine (seq 0 (List.length (Feed.items f))) (Feed.items f)).

(** Every item of the feed passes the item validator. *)
Definition itemsValid (f : Feed.t) : Prop :=
  Forall (fun item =>
            validateFeedItem (FeedItem.data item)
              (Config.allowedDomains (Feed.config f)) = [])
         (Feed.items f).

(** What a validating feed without base URL keeps. *)
Definition strict (w : World Feed.t) : Prop :=
  Config.validate (Feed.config (this w)) = true
  /\ Config.baseUrl (Feed.config (this w)) = ""
  /\ itemsValid (this w).

End FeedRules.

(** *** Calls *)

Module Calls.

(** The methods that change a feed, as a caller may issue them. *)
Inductive Call :=
| SetTitle (v : string)
| SetDescription (v : string)
| SetLink (v : string)
| SetLanguage (v : string)
| SetCopyright (v : string)
| SetManagingEditor (v : string)
| SetWebMaster (v : string)
| SetCategory (v : string)
| AddItem (d : FeedItemData.t)
| AddItems (ds : list FeedItemData.t)
| RemoveItems (predicate : FeedItem.t -> bool)
| Clear.

Definition run (c : Call) : M Feed.t unit :=
  match c with
  | SetTitle v => Feed.setTitle v
  | SetDescription v => Feed.setDescription v
  | SetLink v => Feed.setLink v
  | SetLanguage v => Feed.setLanguage v
  | SetCopyright v => Feed.setCopyright v
  | SetManagingEditor v => Feed.setManagingEditor v
  | SetWebMaster v => Feed.setWebMaster v
  | SetCategory v => Feed.setCategory v
  | AddItem d => Feed.addItem d
  | AddItems ds => Feed.addItems ds
  | RemoveItems predicate => Feed.removeItems predicate
  | Clear => Feed.clear
  end.

(** The world after the calls, one after the other; a call that throws
    is caught and the next one goes on from where the throw left the
    world. *)
Fixpoint after (cs : list Call) (w : World Feed.t) : World Feed.t :=
  match cs with
  | [] => w
  | c :: cs' => after cs' (snd (run c w))
  end.

(** The world after [new Feed(config)], called when the clock has been
    read [n] times. *)
Definition fresh (config : FeedConfig.t) (h : Host.t) (n : nat) : World Feed.t :=
  mkWorld (Feed.make (DateHelper.toISOString (Host.clock h n)) config) h (S n).

End Calls.

(** *** Dates *)



(** [m] run from [w] throws. *)
Definition throwsAt {T A} (m : M T A) (w : World T) : Prop :=
  isReturned (fst (m w)) = false.

(** [w'] has the object and the host of [w]: only the clock may have been
    read in between. *)
Definition sameFeed {T} (w w' : World T) : Prop :=
  this w' = this w /\ host w' = host w.

(** *** URLs and domains *)

(** The characters of the two scheme literals. *)
Definition isSchemeChar (l : ascii) : bool :=
  existsb (Ascii.eqb l) ["h"; "t"; "p"; "s"; ":"; "/"]%char.

(** [s] is [http://] or [https://] in any letter case. *)
Definition isHttpScheme (s : string) : Prop :=
  toLowerCase s = "http://" \/ toLowerCase s = "https://".

(** Letter case apart, [authority] is [domain] or ends with a dot and
    [domain]. *)
Definition namesDomain (authority domain : string) : Prop :=
  toLowerCase authority = toLowerCase domain
  \/ exists sub, toLowerCase authority = sub ++ "." ++ toLowerCase domain.

(** *** Nesting *)

(** The nesting level after a trimmed token read at [level], as
    [formatXml] counts it: a closing tag lowers it, an opening tag raises
    it.  [None] when the token would be indented at a level below zero. *)
Definition levelAfter (token : string) (level : Z) : option Z :=
  if negb (nonEmpty token) then Some level
  else if startsWith "<?xml" token then Some level
  else if startsWith "</" token then
    if (level - 1 <? 0)%Z then None else Some (level - 1)%Z
  else if startsWith "<" token && negb (endsWith "/>" token) then
    if (level <? 0)%Z then None else Some (level + 1)%Z
  else if (level <? 0)%Z then None else Some level.

(** The level after the tokens, one after the other. *)
Fixpoint levelsAfter (tokens : list string) (level : Z) : option Z :=
  match tokens with
  | [] => Some level
  | t :: ts =>
      match levelAfter (trim t) level with
      | Some l => levelsAfter ts l
      | None => None
      end
  end.

(** *** Reading a document tag by tag *)

(** The first [n] code units of [s], or all of [s] if it has fewer. *)
Fixpoint firstN (n : nat) (s : string) : string :=
  match n, s with
  | S k, String c s' => String c (firstN k s')
  | _, _ => EmptyString
  end.

(** The last code unit of [s], or [d] if [s] is empty. *)
Fixpoint lastOr (d : ascii) (s : string) : ascii :=
  match s with
  | EmptyString => d
  | String c s' => lastOr c s'
  end.

(** Where a reader of the document stands: outside of any tag, or inside
    one of which it has kept the first five code units and the last. *)
Inductive Reading :=
| Outside
| Inside (head : string) (last : ascii).

(** The level after the tag that ['>'] closes; [None] for a closing tag at
    level zero. *)
Definition closes (head : string) (last : ascii) (level : nat) : option nat :=
  if (head =? "<?xml")%string then Some level
  else if (firstN 2 head =? "</")%string then
    match level with O => None | S l => Some l end
  else if negb (Ascii.eqb last "/") then Some (S level)
  else Some level.

(** The level and the place after reading [xml] from [level] and [r]. *)
Fixpoint scan (xml : string) (level : nat) (r : Reading) : option (nat * Reading) :=
  match xml with
  | EmptyString => Some (level, r)
  | String c xml' =>
      match r with
      | Outside =>
          if Ascii.eqb c "<" then scan xml' level (Inside "<" "<")
          else scan xml' level Outside
      | Inside head last =>
          if Ascii.eqb c ">" then
            match closes head last level with
            | Some l => scan xml' l Outside
            | None => None
            end
          else
            scan xml' level
                 (Inside (if (String.length head <? 5)%nat then head ++ String c "" else head) c)
      end
  end.

(** *** Feeds that can be rendered *)

(** The host makes a date of the string, which is not empty. *)
Definition parses (h : Host.t) (s : string) : bool :=
  nonEmpty s && match Host.dateParse h s with Some _ => true | None => false end.

(** The date is absent or empty, or the host makes a date of it. *)
Definition datable (h : Host.t) (p : option DateOrString) : bool :=
  match p with
  | None => true
  | Some (AsString s) => negb (nonEmpty s) || parses h s
  | Some (AsDate (Some _)) => true
  | Some (AsDate None) => false
  end.

(** The feed has a [lastBuildDate] that the host reads back, every
    [pubdate] of its items is datable, and its version holds no ['<']. *)
Definition renderable (w : World Feed.t) : bool :=
  parses (host w) (Feed.lastBuildDate (this w))
  && forallb (fun item => datable (host w) (FeedItemData.pubdate (FeedItem.data item)))
             (Feed.items (this w))
  && lacks "<" (Config.version (Feed.config (this w))).

(** What the reader knows of the tag that [splitTags] is reading. *)
Definition keeps (r : Reading) (tag : option string) : Prop :=
  match r, tag with
  | Outside, None => True
  | Inside head last, Some t =>
      exists u, t = "<" ++ u /\ head = firstN 5 t /\ last = lastOr "<" t
  | _, _ => False
  end.

(** *** The tags of an item *)

(** How the tags of an RSS item and of an Atom entry start. *)
Definition rssItemTags : list string :=
  ["<item>"; "</item>"; "<title>"; "</title>"; "<link>"; "</link>";
   "<description>"; "</description>"; "<author>"; "</author>";
   "<category>"; "</category>"; "<pubDate>"; "</pubDate>"; "<guid>"; "</guid>";
   "<enclosure url="; "<media:content url="; "<media:thumbnail url=";
   "</media:content>"; "<news:keywords>"; "</news:keywords>"].

Definition atomEntryTags : list string :=
  ["<entry>"; "</entry>"; "<title>"; "</title>"; "<link href="; "<id>"; "</id>";
   "<updated>"; "</updated>"; "<summary>"; "</summary>"; "<author>"; "</author>";
   "<name>"; "</name>"; "<category term="].

(* ================================================================= *)
(** * Properties *)

(** ** Strings *)

Section StringFacts.

Lemma append_assoc (a b c : string) : (a ++ b) ++ c = a ++ (b ++ c).
Proof. induction a as [|x a IH]; simpl; [reflexivity | now rewrite IH]. Qed.

Lemma append_nil_r (a : string) : a ++ "" = a.
Proof. induction a as [|x a IH]; simpl; [reflexivity | now rewrite IH]. Qed.

End StringFacts.

(** ** The item validator *)

Module ValidatorFacts.
Import Validator ItemValidator Rules.

Lemma pushIf_required errors v name :
  pushIf errors (validateRequiredString (JStr v) name)
  = (errors ++ requiredRule v name)%list.
Proof.
  unfold validateRequiredString, requiredRule.
  destruct (nonEmpty (trim v)); simpl; [now rewrite app_nil_r | reflexivity].
Qed.

Lemma pushIf_url errors v name ad :
  pushIf errors (validateUrl (JStr v) name ad)
  = (errors ++ urlRule v name ad)%list.
Proof.
  unfold validateUrl, validateRequiredString, urlRule, requiredRule, isValidUrl.
  destruct (nonEmpty (trim v)); simpl; [|reflexivity].
  destruct (urlPattern_test (trim v)); simpl; [|reflexivity].
  destruct (isAllowedDomain v ad); simpl; [now rewrite app_nil_r | reflexivity].
Qed.

Lemma forEachIndexed_rule {A} (body : A -> nat -> list ValidationError -> list ValidationError)
  (rule : nat -> A -> list ValidationError) :
  (forall x i errors, body x i errors = (errors ++ rule i x)%list) ->
  forall xs i errors,
    forEachIndexed body xs i errors
    = (errors ++ flat_map (fun '(i, x) => rule i x)
                          (combine (seq i (List.length xs)) xs))%list.
Proof.
  intros Hbody xs; induction xs as [|x xs IH]; intros i errors; simpl.
  - now rewrite app_nil_r.
  - rewrite IH, Hbody, <- app_assoc. reflexivity.
Qed.

Lemma images_loop ad images errors :
  forEachIndexed
    (fun image index errors =>
       pushIf errors
         (validateUrl (JStr (ImageData.url image)) (indexed "images" index "url") ad))
    images 0 errors
  = (errors ++ perIndex (fun i image =>
                           urlRule (ImageData.url image) (path "images" i "url") ad)
                        (Some images))%list.
Proof.
  unfold perIndex. apply forEachIndexed_rule.
  intros x i e. now rewrite pushIf_url.
Qed.

Lemma videos_loop ad videos errors :
  forEachIndexed
    (fun video index errors =>
       let errors := pushIf errors
         (validateUrl (JStr (VideoData.thumbnail_url video))
            (indexed "videos" index "thumbnail_url") ad) in
       let errors := pushIf errors
         (validateUrl (JStr (VideoData.content_url video))
            (indexed "videos" index "content_url") ad) in
       let errors := pushIf errors
         (validateRequiredString (JStr (VideoData.title video))
            (indexed "videos" index "title")) in
       pushIf errors
         (validateRequiredString (JStr (VideoData.description video))
            (indexed "videos" index "description")))
    videos 0 errors
  = (errors ++ perIndex (fun i video =>
                  urlRule (VideoData.thumbnail_url video)
                          (path "videos" i "thumbnail_url") ad
                  ++ urlRule (VideoData.content_url video)
                             (path "videos" i "content_url") ad
                  ++ requiredRule (VideoData.title video) (path "videos" i "title")
                  ++ requiredRule (VideoData.description video)
                                  (path "videos" i "description"))
               (Some videos))%list.
Proof.
  unfold perIndex. apply forEachIndexed_rule.
  intros x i e. cbv zeta.
  rewrite !pushIf_required, !pushIf_url, <- !app_assoc. reflexivity.
Qed.

Lemma translations_loop ad translations errors :
  forEachIndexed
    (fun translation index errors =>
       let errors := pushIf errors
         (validateRequiredString (JStr (TranslationData.language translation))
            (indexed "translations" index "language")) in
       let errors :=
         if negb (isValidLanguageCode (JStr (TranslationData.language translation)))
         then (errors ++ [ {| field := indexed "translations" index "language";
                              type := "invalid_language";
                              message := "language must be a valid RFC 3066 language code";
                              value := JStr (TranslationData.language translation) |} ])%list
         else errors in
       pushIf errors
         (validateUrl (JStr (TranslationData.url translation))
            (indexed "translations" index "url") ad))
    translations 0 errors
  = (errors ++ perIndex (fun i translation =>
                  requiredRule (TranslationData.language translation)
                               (path "translations" i "language")
                  ++ languageRule (TranslationData.language translation)
                                  (path "translations" i "language")
                  ++ urlRule (TranslationData.url translation)
                             (path "translations" i "url") ad)
               (Some translations))%list.
Proof.
  unfold perIndex. apply forEachIndexed_rule.
  intros x i e. cbv zeta.
  rewrite pushIf_required, pushIf_url.
  unfold isValidLanguageCode, languageRule.
  destruct (nonEmpty (trim (TranslationData.language x))); simpl;
    [destruct (langPattern_test (TranslationData.language x)); simpl|];
    rewrite ?app_nil_r, <- ?app_assoc; reflexivity.
Qed.

Lemma validateFeedItem_rules item ad :
  validateFeedItem item ad = violationsInOrder item ad.
Proof.
  unfold validateFeedItem, violationsInOrder. cbv zeta.
  rewrite !pushIf_required, !pushIf_url.
  destruct (FeedItemData.author item) as [author|];
    rewrite ?pushIf_required;
  (destruct (FeedItemData.priority item) as [p|];
   [unfold isValidPriority, priorityRule;
    destruct (PrimFloat.leb 0 p && PrimFloat.leb p 1); cbn [negb]|]);
  (destruct (FeedItemData.images item) as [images|]; rewrite ?images_loop);
  (destruct (FeedItemData.videos item) as [videos|]; rewrite ?videos_loop);
  (destruct (FeedItemData.translations item) as [translations|];
   rewrite ?translations_loop);
  cbn [perIndex app]; rewrite ?app_nil_r, <- ?app_assoc; reflexivity.
Qed.

End ValidatorFacts.

(** ** Occurrences *)

Lemma Occurs_join sep x xs : In x xs -> Occurs x (join sep xs).
Proof.
  unfold join. induction xs as [|y ys IH]; intros Hin; [destruct Hin|].
  destruct Hin as [->|Hin].
  - destruct ys as [|z zs]; simpl.
    + exists "", "". now rewrite append_nil_r.
    + exists "", (sep ++ String.concat sep (z :: zs)). reflexivity.
  - destruct ys as [|z zs]; [destruct Hin|].
    destruct (IH Hin) as (a & b & E).
    exists (y ++ sep ++ a), b.
    change (String.concat sep (y :: z :: zs)) with (y ++ sep ++ String.concat sep (z :: zs)).
    rewrite E, !append_assoc. reflexivity.
Qed.

Lemma Occurs_after p s t : Occurs s t -> Occurs s (p ++ t).
Proof.
  intros (a & b & ->). exists (p ++ a), b. now rewrite append_assoc.
Qed.

(** ** C1: the validator reports every violation, in the order of the rules *)

(** C1. For every item and every list of allowed domains, [validateFeedItem]
    returns exactly the violations of all the rules, none skipped after an
    earlier one fails, in the fixed order: title, description, link (the
    first failing of required, URL grammar, domain), author if present,
    priority if present, then index by index the image URLs, the four video
    fields and the three translation checks.  The item
    [{title: "", description: "D", link: "not-a-url"}] yields exactly
    title/required followed by link/invalid_url, whatever the allowed
    domains. *)
Theorem validateFeedItem_all_violations_in_rule_order :
  (forall item allowedDomains,
     ItemValidator.validateFeedItem item allowedDomains
     = Rules.violationsInOrder item allowedDomains)
  /\ (forall allowedDomains,
        map (fun e => (Validator.field e, Validator.type e))
            (ItemValidator.validateFeedItem Rules.scenarioItem allowedDomains)
        = [("title", "required"); ("link", "invalid_url")]).
Proof.
  split.
  - apply ValidatorFacts.validateFeedItem_rules.
  - intros ad. reflexivity.
Qed.

(** ** C2: eager validation in [addItem] *)

Module AddItemFacts.
Import Validator ItemValidator DateHelper Feed Insertion.

Lemma addItem_rejects w d :
  Config.validate (config (this w)) = true ->
  validateFeedItem d (Config.allowedDomains (config (this w))) <> [] ->
  addItem d w
  = (Thrown (Error (failureMessage
                      (validateFeedItem d (Config.allowedDomains (config (this w)))))), w).
Proof.
  intros Hv He. unfold addItem, bind, getThis. rewrite Hv.
  destruct (validateFeedItem d (Config.allowedDomains (config (this w)))) as [|e es];
    [congruence|]. reflexivity.
Qed.

Lemma addItem_accepts w d :
  Config.validate (config (this w)) = false
  \/ validateFeedItem d (Config.allowedDomains (config (this w))) = [] ->
  addItem d w = (Returned tt, inserted d w).
Proof.
  intros H. unfold addItem, bind, getThis, inserted.
  destruct H as [->| ->]; [|destruct (Config.validate (config (this w)))]; reflexivity.
Qed.

End AddItemFacts.

(** C2. On a feed that validates, [addItem] with data for which
    [validateFeedItem] reports errors throws an error whose message is
    "Validation failed: " followed by all the error messages joined by
    ", " (each of them occurs in it), and leaves the world as it was: no
    item is appended and [lastBuildDate] is untouched.  With no error
    reported it returns, having appended exactly one item (the processed
    data) at the end and set [lastBuildDate] to the current date. *)
Theorem addItem_validates_eagerly (w : World Feed.t) (itemData : FeedItemData.t) :
  Config.validate (Feed.config (this w)) = true ->
  let errors :=
    ItemValidator.validateFeedItem itemData
      (Config.allowedDomains (Feed.config (this w))) in
  (errors <> [] ->
     Feed.addItem itemData w
     = (Thrown (Error ("Validation failed: " ++ join ", " (map Validator.message errors))), w)
     /\ forall e, In e errors ->
          Occurs (Validator.message e)
                 ("Validation failed: " ++ join ", " (map Validator.message errors)))
  /\ (errors = [] ->
      Feed.addItem itemData w
      = (Returned tt,
         mkWorld
           (Feed.withLastBuildDate
              (DateHelper.toISOString (Host.clock (host w) (reads w)))
              (Feed.withItems
                 (Feed.items (this w)
                  ++ [FeedItem.new (Feed.processItemData (Feed.config (this w)) itemData)])%list
                 (this w)))
           (host w) (S (reads w)))).
Proof.
  intros Hv errors. split.
  - intros He. split.
    + now apply AddItemFacts.addItem_rejects.
    + intros e Hin. apply Occurs_after, Occurs_join, in_map, Hin.
  - intros He. apply AddItemFacts.addItem_accepts. now right.
Qed.

(** The theorem at the validating sample feed and the item of scenario (c). *)
Lemma addItem_validates_eagerly_witness :
  Config.validate (Feed.config (this (Sample.feedOf Sample.validating))) = true
  /\ Feed.addItem Rules.scenarioItem (Sample.feedOf Sample.validating)
     = (Thrown (Error "Validation failed: title is required and must be a non-empty string, link must be a valid HTTP or HTTPS URL"),
        Sample.feedOf Sample.validating).
Proof.
  split; [reflexivity|].
  refine (proj1 (proj1 (addItem_validates_eagerly
                          (Sample.feedOf Sample.validating) Rules.scenarioItem
                          eq_refl) _)).
  discriminate.
Defined.

(** ** C5: the size estimate and [shouldSplit] *)

(** C5. [getStats().sizeEstimate] is 1000 + 2000 * item count;
    [shouldSplit()] is true exactly when the item count exceeds [maxItems]
    or the estimate exceeds [maxFileSize], hence false when both equal
    their limits.  Neither call changes the world. *)
Theorem sizeEstimate_linear_and_shouldSplit_strict (w : World Feed.t) :
  let count := Z.of_nat (List.length (Feed.items (this w))) in
  let cfg := Feed.config (this w) in
  (exists stats,
     Feed.getStats w = (Returned stats, w)
     /\ FeedStats.sizeEstimate stats = (1000 + 2000 * count)%Z)
  /\ (exists b,
        Feed.shouldSplit w = (Returned b, w)
        /\ (b = true <->
            (count > Config.maxItems cfg
             \/ 1000 + 2000 * count > Config.maxFileSize cfg)%Z)
        /\ (count = Config.maxItems cfg ->
            (1000 + 2000 * count)%Z = Config.maxFileSize cfg ->
            b = false)).
Proof.
  intros count cfg. split.
  - eexists. split; [reflexivity|].
    cbn [FeedStats.sizeEstimate]. unfold Feed.estimateSize. fold count. lia.
  - eexists. split; [reflexivity|].
    unfold Feed.estimateSize. fold count. fold cfg. split.
    + rewrite orb_true_iff, !Z.ltb_lt. lia.
    + intros H1 H2. apply orb_false_iff. rewrite !Z.ltb_ge. lia.
Qed.

(** At the boundary feed, two items against [maxItems: 2] and an estimate
    of 5000 against [maxFileSize: 5000], [shouldSplit()] is false. *)
Lemma shouldSplit_boundary_witness :
  fst (Feed.shouldSplit Sample.boundaryWorld) = Returned false.
Proof.
  destruct (proj2 (sizeEstimate_linear_and_shouldSplit_strict Sample.boundaryWorld))
    as (b & E & _ & Hb).
  rewrite E. cbn [fst]. f_equal. apply Hb; reflexivity.
Defined.

(** ** C10: falsy options fall back to the defaults, nullish ones do not *)

(** C10. [new Feed(config)] builds the same feed whether [maxItems: 0],
    [maxFileSize: 0], [baseUrl: ""], [dateFormat: ""] or [language: ""] is
    supplied or the option is left out, one at a time or all together, and
    with all five left out the effective values are "", "ISO", "en", 50000
    and 52428800; whereas [validate], [escapeContent], [prettyPrint] and
    [version] keep whatever is supplied, [false] and "" included. *)
Theorem constructor_defaults_falsy_but_keeps_nullish (c : FeedConfig.t) :
  (forall (T : Type) (w : World T),
     Feed.new (Options.falsyBaseUrl c) w = Feed.new (Options.noBaseUrl c) w
     /\ Feed.new (Options.falsyDateFormat c) w = Feed.new (Options.noDateFormat c) w
     /\ Feed.new (Options.falsyLanguage c) w = Feed.new (Options.noLanguage c) w
     /\ Feed.new (Options.falsyMaxItems c) w = Feed.new (Options.noMaxItems c) w
     /\ Feed.new (Options.falsyMaxFileSize c) w = Feed.new (Options.noMaxFileSize c) w
     /\ Feed.new (Options.withOrOptions (Some "") (Some "") (Some "")
                    (Some 0%Z) (Some 0%Z) c) w
        = Feed.new (Options.withOrOptions None None None None None c) w)
  /\ (let e := Feed.effectiveConfig
                 (Options.withOrOptions None None None None None c) in
      Config.baseUrl e = "" /\ Config.dateFormat e = "ISO" /\ Config.language e = "en"
      /\ Config.maxItems e = 50000%Z /\ Config.maxFileSize e = 52428800%Z)
  /\ (forall validate escapeContent prettyPrint version,
        let e := Feed.effectiveConfig
                   (Options.withNullishOptions (Some validate) (Some escapeContent)
                      (Some prettyPrint) (Some version) c) in
        Config.validate e = validate /\ Config.escapeContent e = escapeContent
        /\ Config.prettyPrint e = prettyPrint /\ Config.version e = version).
Proof.
  split; [|split].
  - intros T w. repeat split; reflexivity.
  - repeat split; reflexivity.
  - intros. repeat split; reflexivity.
Qed.

(** ** C3: relative URLs are resolved against the base *)

Module UrlFacts.
Import Feed Urls.

Lemma startsWith_split p s :
  startsWith p s = true <-> exists r, s = p ++ r.
Proof.
  unfold startsWith. revert s.
  induction p as [|c p IH]; intros s; simpl.
  - split; [intros _; exists s; reflexivity | intros _; now destruct s].
  - destruct s as [|d s]; simpl.
    + split; [discriminate | intros (r & E); discriminate].
    + destruct (ascii_dec c d) as [->|N].
      * rewrite IH. split; intros (r & E); exists r; [now rewrite E | now inversion E].
      * split; [discriminate | intros (r & E); inversion E; congruence].
Qed.

Lemma startsWith_append p s r :
  startsWith p s = true -> startsWith p (s ++ r) = true.
Proof.
  rewrite !startsWith_split. intros (q & ->). exists (q ++ r).
  now rewrite append_assoc.
Qed.

Lemma endsWith_char c s :
  endsWith (String c "") s = true -> sliceDropLast s ++ String c "" = s.
Proof.
  induction s as [|d s IH]; [discriminate|].
  cbn [endsWith]. intros H. apply orb_true_iff in H. destruct H as [H|H].
  - apply String.eqb_eq in H. inversion H; subst. reflexivity.
  - destruct s as [|e s]; [discriminate|].
    change (sliceDropLast (String d (String e s)) ++ String c "")
      with (String d (sliceDropLast (String e s) ++ String c "")).
    now rewrite (IH H).
Qed.

Lemma resolveUrl_absolute cfg u :
  isAbsolute u = true -> resolveUrl cfg u = u.
Proof.
  unfold isAbsolute, resolveUrl. intros H.
  rewrite <- orb_assoc, H, orb_true_r. reflexivity.
Qed.

Lemma resolveUrl_relative cfg u :
  nonEmpty (Config.baseUrl cfg) = true ->
  isAbsolute u = false ->
  exists base path,
    resolveUrl cfg u = base ++ path
    /\ isStrippedBase (Config.baseUrl cfg) base
    /\ isSlashedPath u path.
Proof.
  unfold isAbsolute, resolveUrl, isStrippedBase, isSlashedPath. intros Hb Hu.
  rewrite <- orb_assoc, Hu, Hb. cbn [negb orb].
  destruct (endsWith "/" (Config.baseUrl cfg)) eqn:Eb;
    destruct (startsWith "/" u) eqn:Eu;
    do 2 eexists; (split; [reflexivity|]); split;
    try (left; split; reflexivity); try (right; split; reflexivity).
  all: left; symmetry; now apply endsWith_char.
Qed.

Lemma resolveUrl_idempotent cfg u :
  isAbsolute (Config.baseUrl cfg) = true ->
  resolveUrl cfg (resolveUrl cfg u) = resolveUrl cfg u.
Proof.
  intros Habs.
  destruct (isAbsolute u) eqn:Eu.
  - rewrite (resolveUrl_absolute cfg u Eu). now apply resolveUrl_absolute.
  - assert (Hb : nonEmpty (Config.baseUrl cfg) = true).
    { destruct (Config.baseUrl cfg); [discriminate | reflexivity]. }
    destruct (resolveUrl_relative cfg u Hb Eu) as (base & path & E & Hbase & Hpath).
    apply resolveUrl_absolute. rewrite E.
    assert (Hslash : exists rest, path = "/" ++ rest).
    { destruct Hpath as [[-> H]|[-> _]]; [now apply startsWith_split | now exists u]. }
    destruct Hslash as (rest & ->).
    assert (Hpre : forall p, startsWith p (Config.baseUrl cfg) = true ->
                             startsWith p (base ++ "/" ++ rest) = true).
    { intros p Hp. destruct Hbase as [Eb|[Eb _]].
      - rewrite <- append_assoc, <- Eb. now apply startsWith_append.
      - rewrite <- Eb. now apply startsWith_append. }
    unfold isAbsolute in *. apply orb_true_iff in Habs. apply orb_true_iff.
    destruct Habs as [H|H]; [left | right]; now apply Hpre.
Qed.

Lemma processItemData_urls cfg d :
  nonEmpty (Config.baseUrl cfg) = true ->
  let d' := processItemData cfg d in
  FeedItemData.link d' = resolveUrl cfg (FeedItemData.link d)
  /\ option_map (map ImageData.url) (FeedItemData.images d')
     = option_map (map (fun i => resolveUrl cfg (ImageData.url i))) (FeedItemData.images d)
  /\ option_map (map VideoData.thumbnail_url) (FeedItemData.videos d')
     = option_map (map (fun v => resolveUrl cfg (VideoData.thumbnail_url v)))
                  (FeedItemData.videos d)
  /\ option_map (map VideoData.content_url) (FeedItemData.videos d')
     = option_map (map (fun v => resolveUrl cfg (VideoData.content_url v)))
                  (FeedItemData.videos d)
  /\ option_map (map TranslationData.url) (FeedItemData.translations d')
     = option_map (map (fun t => resolveUrl cfg (TranslationData.url t)))
                  (FeedItemData.translations d).
Proof.
  intros Hb. unfold processItemData. rewrite Hb. cbn.
  repeat split.
  - destruct (FeedItemData.images d); cbn; [now rewrite map_map | reflexivity].
  - destruct (FeedItemData.videos d); cbn; [now rewrite map_map | reflexivity].
  - destruct (FeedItemData.videos d); cbn; [now rewrite map_map | reflexivity].
  - destruct (FeedItemData.translations d); cbn; [now rewrite map_map | reflexivity].
Qed.

End UrlFacts.

(** C3. On a feed with a non-empty [baseUrl]: a URL starting with http://
    or https:// is resolved to itself; any other URL is resolved to the
    base, one trailing slash stripped, followed by the URL, a leading
    slash inserted if absent; insertion resolves the item link, every
    image URL, every video thumbnail and content URL and every translation
    URL in this way.  The result depends on the base and the URL only,
    so the same path against the same base resolves to the same URL, and
    when the base is itself absolute, resolving a result again returns
    it. *)
Theorem resolveUrl_against_base (cfg : Config.t) :
  nonEmpty (Config.baseUrl cfg) = true ->
  (forall u,
     (Urls.isAbsolute u = true -> Feed.resolveUrl cfg u = u)
     /\ (Urls.isAbsolute u = false ->
         exists base path,
           Feed.resolveUrl cfg u = base ++ path
           /\ Urls.isStrippedBase (Config.baseUrl cfg) base
           /\ Urls.isSlashedPath u path))
  /\ (forall d,
        let d' := Feed.processItemData cfg d in
        FeedItemData.link d' = Feed.resolveUrl cfg (FeedItemData.link d)
        /\ option_map (map ImageData.url) (FeedItemData.images d')
           = option_map (map (fun i => Feed.resolveUrl cfg (ImageData.url i)))
                        (FeedItemData.images d)
        /\ option_map (map VideoData.thumbnail_url) (FeedItemData.videos d')
           = option_map (map (fun v => Feed.resolveUrl cfg (VideoData.thumbnail_url v)))
                        (FeedItemData.videos d)
        /\ option_map (map VideoData.content_url) (FeedItemData.videos d')
           = option_map (map (fun v => Feed.resolveUrl cfg (VideoData.content_url v)))
                        (FeedItemData.videos d)
        /\ option_map (map TranslationData.url) (FeedItemData.translations d')
           = option_map (map (fun t => Feed.resolveUrl cfg (TranslationData.url t)))
                        (FeedItemData.translations d))
  /\ (forall cfg' u,
        Config.baseUrl cfg' = Config.baseUrl cfg ->
        Feed.resolveUrl cfg' u = Feed.resolveUrl cfg u)
  /\ (Urls.isAbsolute (Config.baseUrl cfg) = true ->
      forall u, Feed.resolveUrl cfg (Feed.resolveUrl cfg u) = Feed.resolveUrl cfg u).
Proof.
  intros Hb. split; [|split; [|split]].
  - intros u. split.
    + apply UrlFacts.resolveUrl_absolute.
    + now apply UrlFacts.resolveUrl_relative.
  - intros d. now apply UrlFacts.processItemData_urls.
  - intros cfg' u E. unfold Feed.resolveUrl. now rewrite E.
  - intros Habs u. now apply UrlFacts.resolveUrl_idempotent.
Qed.

(** The theorem at the base "https://example.com/": an absolute link is
    kept, and "relative-path" resolves to the base and the path. *)
Lemma resolveUrl_against_base_witness :
  nonEmpty (Config.baseUrl (Feed.effectiveConfig Sample.withBase)) = true
  /\ Feed.resolveUrl (Feed.effectiveConfig Sample.withBase) "https://other.com/absolute-path"
     = "https://other.com/absolute-path"
  /\ Feed.resolveUrl (Feed.effectiveConfig Sample.withBase) "relative-path"
     = "https://example.com/relative-path".
Proof.
  split; [reflexivity|]. split.
  - exact (proj1 (proj1 (resolveUrl_against_base
                           (Feed.effectiveConfig Sample.withBase) eq_refl)
                        "https://other.com/absolute-path") eq_refl).
  - reflexivity.
Defined.

(** ** C6: [addItems] inserts in order and does not roll back *)

Module AddItemsFacts.
Import Validator ItemValidator DateHelper Feed AddItemFacts Insertion.

Lemma inserted_config d w : config (this (inserted d w)) = config (this w).
Proof. reflexivity. Qed.

Lemma insertedAll_config xs : forall w,
  config (this (insertedAll xs w)) = config (this w).
Proof.
  induction xs as [|x xs IH]; intros w; simpl; [reflexivity|].
  now rewrite IH, inserted_config.
Qed.

Lemma insertedAll_items xs : forall w,
  items (this (insertedAll xs w))
  = (items (this w)
     ++ map (fun x => FeedItem.new (processItemData (config (this w)) x)) xs)%list.
Proof.
  induction xs as [|x xs IH]; intros w; simpl; [now rewrite app_nil_r|].
  rewrite IH, inserted_config. cbn. now rewrite <- app_assoc.
Qed.

Lemma insertedAll_reads xs : forall w,
  reads (insertedAll xs w) = (reads w + List.length xs)%nat.
Proof.
  induction xs as [|x xs IH]; intros w; simpl; [lia|].
  rewrite IH. cbn. lia.
Qed.

Lemma insertedAll_host xs : forall w, host (insertedAll xs w) = host w.
Proof.
  induction xs as [|x xs IH]; intros w; simpl; [reflexivity|].
  now rewrite IH.
Qed.

Lemma accepted_inserted d w x : accepted (inserted d w) x <-> accepted w x.
Proof. unfold accepted. rewrite inserted_config. reflexivity. Qed.

Lemma addItems_cons x xs w :
  addItems (x :: xs) w
  = match addItem x w with
    | (Returned _, w') => addItems xs w'
    | (Thrown e, w') => (Thrown e, w')
    end.
Proof. reflexivity. Qed.

Lemma addItems_accepted xs : forall w,
  (forall x, In x xs -> accepted w x) ->
  addItems xs w = (Returned tt, insertedAll xs w).
Proof.
  induction xs as [|x xs IH]; intros w H; [reflexivity|].
  rewrite addItems_cons, addItem_accepts by (apply H; now left).
  simpl. apply IH. intros y Hy. apply accepted_inserted, H. now right.
Qed.

Lemma addItems_stops pre d post : forall w,
  Config.validate (config (this w)) = true ->
  (forall x, In x pre ->
     validateFeedItem x (Config.allowedDomains (config (this w))) = []) ->
  validateFeedItem d (Config.allowedDomains (config (this w))) <> [] ->
  addItems (pre ++ d :: post) w
  = (Thrown (Error (failureMessage
                      (validateFeedItem d (Config.allowedDomains (config (this w)))))),
     insertedAll pre w).
Proof.
  induction pre as [|x pre IH]; intros w Hv Hpre Hd.
  - cbn [app]. rewrite addItems_cons, addItem_rejects by assumption. reflexivity.
  - cbn [app]. rewrite addItems_cons, addItem_accepts by (right; apply Hpre; now left).
    simpl insertedAll. rewrite IH; rewrite ?inserted_config; try assumption.
    + reflexivity.
    + intros y Hy. apply Hpre. now right.
Qed.

(** A successful [addItem] or [addItems] is an insertion. *)
Lemma addItem_returned d w w' :
  addItem d w = (Returned tt, w') -> w' = inserted d w.
Proof.
  intros H.
  destruct (Config.validate (config (this w))) eqn:Hv.
  - destruct (validateFeedItem d (Config.allowedDomains (config (this w)))) eqn:He.
    + rewrite addItem_accepts in H by now right. now inversion H.
    + rewrite addItem_rejects in H by (try assumption; rewrite He; discriminate).
      discriminate.
  - rewrite addItem_accepts in H by now left. now inversion H.
Qed.

Lemma addItem_thrown d w e w' :
  addItem d w = (Thrown e, w') -> w' = w.
Proof.
  intros H.
  destruct (Config.validate (config (this w))) eqn:Hv.
  - destruct (validateFeedItem d (Config.allowedDomains (config (this w)))) eqn:He.
    + rewrite addItem_accepts in H by now right. discriminate.
    + rewrite addItem_rejects in H by (try assumption; rewrite He; discriminate).
      now inversion H.
  - rewrite addItem_accepts in H by now left. discriminate.
Qed.

Lemma addItems_returned xs : forall w w',
  addItems xs w = (Returned tt, w') -> w' = insertedAll xs w.
Proof.
  induction xs as [|x xs IH]; intros w w' H.
  - now inversion H.
  - rewrite addItems_cons in H.
    destruct (addItem x w) as [[[]|e] w1] eqn:E; [|discriminate].
    apply addItem_returned in E. subst w1. simpl. now apply IH.
Qed.

Lemma insertedAll_lastBuildDate x xs : forall w,
  lastBuildDate (this (insertedAll (x :: xs) w))
  = toISOString (Host.clock (host w) (reads w + List.length xs)).
Proof.
  revert x. induction xs as [|y ys IH]; intros x w.
  - cbn [insertedAll inserted this lastBuildDate withLastBuildDate List.length].
    now rewrite Nat.add_0_r.
  - change (insertedAll (x :: y :: ys) w) with (insertedAll (y :: ys) (inserted x w)).
    rewrite IH.
    change (host (inserted x w)) with (host w).
    change (reads (inserted x w)) with (S (reads w)).
    cbn [List.length]. do 2 f_equal. lia.
Qed.

End AddItemsFacts.

(** C6. [addItems] applies [addItem] to each element in list order: when
    every element is accepted, all are inserted, in order, after the items
    already there.  When, on a validating feed, the elements before the
    k-th pass validation and the k-th does not, the call throws the
    validation error of the k-th, and the world it leaves is the world
    after [addItems] of the first k-1 alone: they stay inserted, in order,
    and nothing is rolled back. *)
Theorem addItems_in_order_without_rollback (w : World Feed.t) :
  let cfg := Feed.config (this w) in
  let errorsOf x := ItemValidator.validateFeedItem x (Config.allowedDomains cfg) in
  let itemOf x := FeedItem.new (Feed.processItemData cfg x) in
  (forall xs,
     (forall x, In x xs -> Config.validate cfg = false \/ errorsOf x = []) ->
     exists w',
       Feed.addItems xs w = (Returned tt, w')
       /\ Feed.items (this w') = (Feed.items (this w) ++ map itemOf xs)%list)
  /\ (forall pre d post,
        Config.validate cfg = true ->
        (forall x, In x pre -> errorsOf x = []) ->
        errorsOf d <> [] ->
        exists w',
          Feed.addItems (pre ++ d :: post) w
          = (Thrown (Error ("Validation failed: "
                            ++ join ", " (map Validator.message (errorsOf d)))), w')
          /\ Feed.addItems pre w = (Returned tt, w')
          /\ Feed.items (this w') = (Feed.items (this w) ++ map itemOf pre)%list).
Proof.
  intros cfg errorsOf itemOf. split.
  - intros xs H. exists (Insertion.insertedAll xs w). split.
    + now apply AddItemsFacts.addItems_accepted.
    + apply AddItemsFacts.insertedAll_items.
  - intros pre d post Hv Hpre Hd. exists (Insertion.insertedAll pre w).
    split; [|split].
    + now apply AddItemsFacts.addItems_stops.
    + apply AddItemsFacts.addItems_accepted. intros x Hx. right. now apply Hpre.
    + apply AddItemsFacts.insertedAll_items.
Qed.

(** On the validating sample feed, a batch whose second element is the
    item of scenario (c) throws and leaves the first element inserted. *)
Lemma addItems_in_order_without_rollback_witness :
  exists w',
    Feed.addItems
      [Sample.plainItem "A" "https://ex.com/a"; Rules.scenarioItem;
       Sample.plainItem "C" "https://ex.com/c"]
      (Sample.feedOf Sample.validating)
    = (Thrown (Error "Validation failed: title is required and must be a non-empty string, link must be a valid HTTP or HTTPS URL"), w')
    /\ map (fun i => FeedItemData.title (FeedItem.data i)) (Feed.items (this w')) = ["A"].
Proof.
  destruct (proj2 (addItems_in_order_without_rollback (Sample.feedOf Sample.validating))
              [Sample.plainItem "A" "https://ex.com/a"] Rules.scenarioItem
              [Sample.plainItem "C" "https://ex.com/c"])
    as (w' & E & _ & Hitems).
  - reflexivity.
  - intros x [<-|[]]. reflexivity.
  - discriminate.
  - exists w'. split; [exact E|]. rewrite Hitems. reflexivity.
Defined.

(** ** C8: which operations refresh [lastBuildDate] *)

Module SetterFacts.
Import Feed Insertion.

Lemma setters_keep_lastBuildDate v w :
  keepsLastBuildDate (setTitle v) w
  /\ keepsLastBuildDate (setDescription v) w
  /\ keepsLastBuildDate (setLink v) w
  /\ keepsLastBuildDate (setLanguage v) w
  /\ keepsLastBuildDate (setCopyright v) w
  /\ keepsLastBuildDate (setManagingEditor v) w
  /\ keepsLastBuildDate (setWebMaster v) w
  /\ keepsLastBuildDate (setCategory v) w.
Proof.
  repeat split; eexists; (split; [reflexivity|]); repeat split; reflexivity.
Qed.

End SetterFacts.

(** C8, as the specification states it, fails: on the sample feed, built
    at 12:00:00, [setTitle] is called when the clock reads 12:00:01, and
    [lastBuildDate] is not the current date afterwards. *)
Lemma setTitle_does_not_refresh_lastBuildDate :
  Feed.lastBuildDate (this (snd (Feed.setTitle "T" (Sample.feedOf Sample.defaults))))
  <> DateHelper.toISOString
       (Host.clock (host (Sample.feedOf Sample.defaults))
                   (reads (Sample.feedOf Sample.defaults))).
Proof. vm_compute. discriminate. Qed.

(** C8, amended. With [current] the date the clock gives at the call: a
    successful [addItem], [removeItems] and [clear] set [lastBuildDate] to
    [current]; a successful [addItems] of a non-empty list reads the clock
    once per element and leaves the date of its last insertion; a failed
    [addItem] and an [addItems] of no element leave [lastBuildDate] as it
    was; and so does every metadata setter, which reads no clock. *)
Theorem lastBuildDate_refreshed_by_item_operations (w : World Feed.t) :
  let dateAt n := DateHelper.toISOString (Host.clock (host w) n) in
  let current := dateAt (reads w) in
  (forall d w',
     Feed.addItem d w = (Returned tt, w') -> Feed.lastBuildDate (this w') = current)
  /\ (forall d e w',
        Feed.addItem d w = (Thrown e, w') ->
        Feed.lastBuildDate (this w') = Feed.lastBuildDate (this w))
  /\ (forall predicate, exists w',
        Feed.removeItems predicate w = (Returned tt, w')
        /\ Feed.lastBuildDate (this w') = current)
  /\ (exists w',
        Feed.clear w = (Returned tt, w') /\ Feed.lastBuildDate (this w') = current)
  /\ (forall x xs w',
        Feed.addItems (x :: xs) w = (Returned tt, w') ->
        Feed.lastBuildDate (this w') = dateAt (reads w + List.length xs)%nat)
  /\ (exists w',
        Feed.addItems [] w = (Returned tt, w')
        /\ Feed.lastBuildDate (this w') = Feed.lastBuildDate (this w))
  /\ (forall v,
        Insertion.keepsLastBuildDate (Feed.setTitle v) w
        /\ Insertion.keepsLastBuildDate (Feed.setDescription v) w
        /\ Insertion.keepsLastBuildDate (Feed.setLink v) w
        /\ Insertion.keepsLastBuildDate (Feed.setLanguage v) w
        /\ Insertion.keepsLastBuildDate (Feed.setCopyright v) w
        /\ Insertion.keepsLastBuildDate (Feed.setManagingEditor v) w
        /\ Insertion.keepsLastBuildDate (Feed.setWebMaster v) w
        /\ Insertion.keepsLastBuildDate (Feed.setCategory v) w).
Proof.
  intros dateAt current. repeat apply conj.
  - intros d w' H. apply AddItemsFacts.addItem_returned in H. now subst w'.
  - intros d e w' H. apply AddItemsFacts.addItem_thrown in H. now subst w'.
  - intros p. eexists. split; reflexivity.
  - eexists. split; reflexivity.
  - intros x xs w' H. apply AddItemsFacts.addItems_returned in H. subst w'.
    apply AddItemsFacts.insertedAll_lastBuildDate.
  - eexists. split; reflexivity.
  - intros v. apply SetterFacts.setters_keep_lastBuildDate.
Qed.

(** On the sample feed, inserting an item at 12:00:01 leaves that date. *)
Lemma lastBuildDate_refreshed_witness :
  Feed.lastBuildDate
    (this (snd (Feed.addItem (Sample.plainItem "A" "https://ex.com/a")
                             (Sample.feedOf Sample.defaults))))
  = "2024-01-01T12:00:01.000Z".
Proof.
  exact (proj1 (lastBuildDate_refreshed_by_item_operations (Sample.feedOf Sample.defaults))
           (Sample.plainItem "A" "https://ex.com/a")
           (snd (Feed.addItem (Sample.plainItem "A" "https://ex.com/a")
                              (Sample.feedOf Sample.defaults)))
           eq_refl).
Defined.

(** ** C7: rendering reads the feed and changes nothing *)

Module RenderFacts.
Import DateHelper XmlHelper Feed.

Lemma pureAt_ret {T A} (a : A) (w : World T) : pureAt (ret a) w.
Proof. reflexivity. Qed.

Lemma pureAt_throw {T A} e (w : World T) : pureAt (throw (A := A) e) w.
Proof. reflexivity. Qed.

Lemma pureAt_lift {T A} (o : Outcome A) (w : World T) : pureAt (lift o) w.
Proof. reflexivity. Qed.

Lemma pureAt_parse {T} s (w : World T) : pureAt (parse s) w.
Proof. reflexivity. Qed.

Lemma pureAt_bind {T A B} (m : M T A) (k : A -> M T B) w :
  pureAt m w -> (forall a, pureAt (k a) w) -> pureAt (bind m k) w.
Proof.
  unfold pureAt, bind. intros Hm Hk.
  destruct (m w) as [[a|e] w1]; simpl in Hm; subst w1; [apply Hk | reflexivity].
Qed.

(** Name the value of the outermost [let] of the computation and forget it. *)
Ltac forget_let :=
  lazymatch goal with
  | |- pureAt (let x := ?a in @?k x) ?w =>
      let v := fresh x in
      pose (v := a); change (pureAt (k v) w); cbv beta; clearbody v
  end.

Lemma pureAt_formatDate {T} d (w : World T) :
  falsy d = false -> pureAt (formatDate d) w.
Proof.
  unfold formatDate. intros ->.
  destruct d as [[t|]|s|n]; try reflexivity.
  - apply pureAt_bind; [apply pureAt_parse|]. intros [t|]; reflexivity.
  - destruct (dateOfNumber n); reflexivity.
Qed.

Lemma pureAt_formatRssDate {T} d (w : World T) :
  falsy d = false -> pureAt (formatRssDate d) w.
Proof.
  intros H. unfold formatRssDate.
  apply pureAt_bind; [now apply pureAt_formatDate|]. intros iso.
  apply pureAt_bind; [apply pureAt_parse|]. intros o. apply pureAt_ret.
Qed.

Lemma truthyDate_not_falsy p :
  truthyDate (Some p) = true -> falsy (toDateInput p) = false.
Proof. destruct p as [d|s]; simpl; [reflexivity | now intros ->]. Qed.

Lemma pureAt_generateRSSItem item w : pureAt (generateRSSItem item) w.
Proof.
  cbv delta [generateRSSItem]; cbv beta.
  repeat forget_let.
  apply pureAt_bind.
  - destruct (FeedItemData.pubdate item) as [p|]; [|apply pureAt_ret].
    destruct (truthyDate (Some p)) eqn:E; [|apply pureAt_ret].
    apply pureAt_bind; [apply pureAt_formatRssDate, truthyDate_not_falsy, E|].
    intros ?. apply pureAt_ret.
  - intros ?. repeat forget_let. apply pureAt_ret.
Qed.

Lemma pureAt_generateAtomEntry item w : pureAt (generateAtomEntry item) w.
Proof.
  cbv delta [generateAtomEntry]; cbv beta.
  repeat forget_let.
  apply pureAt_bind.
  - destruct (FeedItemData.pubdate item) as [p|]; [|apply pureAt_ret].
    destruct (truthyDate (Some p)) eqn:E; [|apply pureAt_ret].
    apply pureAt_bind; [apply pureAt_formatDate, truthyDate_not_falsy, E|].
    intros ?. apply pureAt_ret.
  - intros ?. repeat forget_let. apply pureAt_ret.
Qed.

Lemma pureAt_forEachAppend {T A} (body : A -> M T string) xs w :
  (forall x, pureAt (body x) w) ->
  forall acc, pureAt (forEachAppend body xs acc) w.
Proof.
  intros Hbody. induction xs as [|x xs IH]; intros acc; simpl.
  - apply pureAt_ret.
  - apply pureAt_bind; [apply Hbody | intros s; apply IH].
Qed.

Lemma pureAt_getThis_bind {T B} (k : T -> M T B) w :
  pureAt (k (this w)) w -> pureAt (bind getThis k) w.
Proof. intros H. exact H. Qed.

Lemma pureAt_generateRSS w :
  nonEmpty (lastBuildDate (this w)) = true -> pureAt generateRSS w.
Proof.
  intros Hd. cbv delta [generateRSS]; cbv beta.
  apply pureAt_getThis_bind; cbv beta. repeat forget_let.
  apply pureAt_bind.
  { apply pureAt_formatRssDate. simpl. now rewrite Hd. }
  intros ?. repeat forget_let.
  apply pureAt_bind.
  { apply pureAt_forEachAppend. intros x. apply pureAt_generateRSSItem. }
  intros ?. repeat forget_let. apply pureAt_lift.
Qed.

Lemma pureAt_generateAtom w :
  nonEmpty (lastBuildDate (this w)) = true -> pureAt generateAtom w.
Proof.
  intros Hd. cbv delta [generateAtom]; cbv beta.
  apply pureAt_getThis_bind; cbv beta. repeat forget_let.
  apply pureAt_bind.
  { apply pureAt_formatDate. simpl. now rewrite Hd. }
  intros ?. repeat forget_let.
  apply pureAt_bind.
  { apply pureAt_forEachAppend. intros x. apply pureAt_generateAtomEntry. }
  intros ?. repeat forget_let. apply pureAt_lift.
Qed.

Lemma pureAt_toXML format w :
  nonEmpty (lastBuildDate (this w)) = true -> pureAt (toXML format) w.
Proof.
  intros Hd. unfold toXML.
  destruct (format =? "rss")%string; [now apply pureAt_generateRSS|].
  destruct (format =? "atom")%string; [now apply pureAt_generateAtom|].
  apply pureAt_throw.
Qed.

(** The dates the feed writes are never empty, so every feed built by
    [new Feed] and changed through its methods has a [lastBuildDate]. *)
Lemma nonEmpty_append_r a b : nonEmpty b = true -> nonEmpty (a ++ b) = true.
Proof. destruct a; [trivial | reflexivity]. Qed.

Lemma toISOString_nonEmpty t : nonEmpty (toISOString t) = true.
Proof.
  unfold toISOString. destruct (civilFromDays (t / 86400000)) as [[y m] d].
  repeat (apply nonEmpty_append_r). reflexivity.
Qed.

Lemma new_has_lastBuildDate {T} config (w : World T) :
  exists f w', new config w = (Returned f, w')
               /\ nonEmpty (lastBuildDate f) = true.
Proof.
  do 2 eexists. split; [reflexivity|]. apply toISOString_nonEmpty.
Qed.

Lemma inserted_has_lastBuildDate d w :
  nonEmpty (lastBuildDate (this (Insertion.inserted d w))) = true.
Proof. apply toISOString_nonEmpty. Qed.

(** Every method that changes the feed keeps it so. *)
Lemma methods_keep_lastBuildDate_set w :
  nonEmpty (lastBuildDate (this w)) = true ->
  (forall d, nonEmpty (lastBuildDate (this (snd (addItem d w)))) = true)
  /\ (forall xs, nonEmpty (lastBuildDate (this (snd (addItems xs w)))) = true)
  /\ (forall p, nonEmpty (lastBuildDate (this (snd (removeItems p w)))) = true)
  /\ nonEmpty (lastBuildDate (this (snd (clear w)))) = true
  /\ (forall v,
        nonEmpty (lastBuildDate (this (snd (setTitle v w)))) = true
        /\ nonEmpty (lastBuildDate (this (snd (setDescription v w)))) = true
        /\ nonEmpty (lastBuildDate (this (snd (setLink v w)))) = true
        /\ nonEmpty (lastBuildDate (this (snd (setLanguage v w)))) = true
        /\ nonEmpty (lastBuildDate (this (snd (setCopyright v w)))) = true
        /\ nonEmpty (lastBuildDate (this (snd (setManagingEditor v w)))) = true
        /\ nonEmpty (lastBuildDate (this (snd (setWebMaster v w)))) = true
        /\ nonEmpty (lastBuildDate (this (snd (setCategory v w)))) = true).
Proof.
  intros Hw.
  assert (Hadd : forall d w0, nonEmpty (lastBuildDate (this w0)) = true ->
                   nonEmpty (lastBuildDate (this (snd (addItem d w0)))) = true).
  { intros d w0 H0. destruct (addItem d w0) as [[[]|e] w1] eqn:E.
    - apply AddItemsFacts.addItem_returned in E. subst w1.
      apply inserted_has_lastBuildDate.
    - apply AddItemsFacts.addItem_thrown in E. now subst w1. }
  split; [|split; [|split; [|split]]].
  - intros d. now apply Hadd.
  - intros xs. revert w Hw. induction xs as [|x xs IH]; intros w Hw; [exact Hw|].
    rewrite AddItemsFacts.addItems_cons.
    pose proof (Hadd x w Hw) as Hx.
    destruct (addItem x w) as [[[]|e] w1]; [now apply IH | exact Hx].
  - intros p. apply toISOString_nonEmpty.
  - apply toISOString_nonEmpty.
  - intros v. repeat split; exact Hw.
Qed.

End RenderFacts.

(** C7. On a feed that has its [lastBuildDate], as every feed built by
    [new Feed] has, [toXML] with any format, "rss" and "atom" among them,
    leaves the world as it was: metadata, item list and [lastBuildDate]
    are unchanged and the clock is not read; and a second call right
    after the first has the same outcome, the same string byte for byte
    when the first returned one. *)
Theorem toXML_has_no_side_effect_and_repeats (format : string) (w : World Feed.t) :
  nonEmpty (Feed.lastBuildDate (this w)) = true ->
  snd (Feed.toXML format w) = w
  /\ this (snd (Feed.toXML format w)) = this w
  /\ fst (Feed.toXML format (snd (Feed.toXML format w))) = fst (Feed.toXML format w)
  /\ (forall out,
        fst (Feed.toXML format w) = Returned out ->
        Feed.toXML format (snd (Feed.toXML format w)) = (Returned out, w)).
Proof.
  intros Hd. pose proof (RenderFacts.pureAt_toXML format w Hd) as Hp.
  unfold pureAt in Hp. rewrite !Hp. repeat split.
  intros out Hout. destruct (Feed.toXML format w) as [o w1] eqn:E.
  simpl in Hp, Hout. now subst.
Qed.

(** ** C4: the namespaces the RSS root element declares *)

Module FormatFacts.
Import XmlHelper Namespaces.

(** [trimEnd] keeps a prefix that ends in a code unit that is no white space. *)
Lemma trimEnd_keeps p c x :
  isWhiteSpace c = false ->
  exists rest, trimEnd ((p ++ String c "") ++ x) = (p ++ String c "") ++ rest.
Proof.
  intros Hc. induction p as [|a p IH]; cbn [append trimEnd].
  - destruct (trimEnd x) as [|b t].
    + rewrite Hc. now exists "".
    + now exists (String b t).
  - destruct IH as (rest & ->).
    destruct ((p ++ String c "") ++ rest) eqn:E.
    + destruct p; discriminate.
    + exists rest. now rewrite E.
Qed.

(** A turn of the loop of [formatXml] only appends to the result. *)
Lemma formatStep_extends indent tokens i r l r' l' :
  formatStep indent tokens i (r, l) = Returned (r', l') ->
  exists x, r' = r ++ x.
Proof.
  unfold formatStep, repeatIndent.
  repeat match goal with
         | |- context [if ?c then _ else _] => destruct c
         | |- context [match ?x with O => _ | S _ => _ end] => destruct x
         end;
    intros H; inversion H; subst;
    first [ exists ""; now rewrite append_nil_r
          | eexists; rewrite ?append_assoc; reflexivity ].
Qed.

Lemma formatLoop_extends indent tokens n : forall i r l r' l',
  formatLoop indent tokens n i (r, l) = Returned (r', l') ->
  exists x, r' = r ++ x.
Proof.
  induction n as [|n IH]; intros i r l r' l' H; cbn [formatLoop] in H.
  - inversion H. exists "". now rewrite append_nil_r.
  - destruct (formatStep indent tokens i (r, l)) as [[r1 l1]|e] eqn:E; [|discriminate].
    apply formatStep_extends in E. destruct E as (x & ->).
    apply IH in H. destruct H as (y & ->).
    exists (x ++ y). now rewrite append_assoc.
Qed.

(** The tokens of a document that starts with the XML declaration, the
    root tag and the channel tag. *)
Lemma splitTags_head media news body :
  splitTags (Feed.xmlDeclaration ++ nl ++ rootTag media news ++ nl
             ++ "  <channel>" ++ body) "" None
  = "" :: Feed.xmlDeclaration :: nl :: rootTag media news :: (nl ++ "  ")
       :: "<channel>" :: splitTags body "" None.
Proof. destruct media, news; reflexivity. Qed.

(** The first four turns of the loop on such a document. *)
Lemma formatLoop_head media news rest n :
  formatLoop "  "
    ("" :: Feed.xmlDeclaration :: nl :: rootTag media news :: (nl ++ "  ")
        :: "<channel>" :: rest)
    (4 + n) 0 ("", 0%Z)
  = formatLoop "  "
      ("" :: Feed.xmlDeclaration :: nl :: rootTag media news :: (nl ++ "  ")
          :: "<channel>" :: rest)
      n 4 ((Feed.xmlDeclaration ++ nl ++ rootTag media news) ++ nl, 1%Z).
Proof. destruct media, news; reflexivity. Qed.

Lemma rootTag_last media news :
  exists p, Feed.xmlDeclaration ++ nl ++ rootTag media news = p ++ ">".
Proof.
  exists (Feed.xmlDeclaration ++ nl ++ "<rss version=" ++ dq ++ "2.0" ++ dq
          ++ (if media then Feed.mediaNamespace else "")
          ++ (if news then Feed.newsNamespace else "")).
  unfold rootTag. rewrite !append_assoc. reflexivity.
Qed.

(** [formatXml] keeps the declaration and the root tag at the start of
    its result. *)
Lemma formatXml_keeps_root media news body out :
  formatXml (Feed.xmlDeclaration ++ nl ++ rootTag media news ++ nl
             ++ "  <channel>" ++ body) "  " = Returned out ->
  exists rest, out = Feed.xmlDeclaration ++ nl ++ rootTag media news ++ rest.
Proof.
  unfold formatXml. rewrite splitTags_head.
  set (tokens := "" :: _).
  change (List.length tokens) with (4 + (2 + List.length (splitTags body "" None)))%nat.
  subst tokens. rewrite formatLoop_head.
  destruct (formatLoop _ _ _ _ _) as [[r l]|e] eqn:E; [|discriminate].
  intros H. inversion H; subst out; clear H.
  apply formatLoop_extends in E. destruct E as (x & ->).
  unfold trim.
  assert (Hstart : forall y, trimStart ((Feed.xmlDeclaration ++ nl ++ rootTag media news) ++ y)
                             = (Feed.xmlDeclaration ++ nl ++ rootTag media news) ++ y).
  { intros y. destruct media, news; reflexivity. }
  rewrite append_assoc, Hstart.
  destruct (rootTag_last media news) as (p & Ep). rewrite Ep.
  destruct (trimEnd_keeps p ">" (nl ++ x) eq_refl) as (rest & ->).
  exists rest. rewrite <- Ep, !append_assoc. reflexivity.
Qed.

End FormatFacts.

Module RssRootFacts.
Import DateHelper XmlHelper Feed FormatFacts Namespaces.

Lemma post_ret {T A} (a : A) (w : World T) (Q : A -> Prop) :
  Q a -> post (ret a) w Q.
Proof. intros H b w' E. inversion E. now subst. Qed.

Lemma post_lift {T A} (o : Outcome A) (w : World T) (Q : A -> Prop) :
  (forall a, o = Returned a -> Q a) -> post (lift o) w Q.
Proof. intros H b w' E. inversion E. now apply H. Qed.

Lemma post_bind {T A B} (m : M T A) (k : A -> M T B) w (Q : B -> Prop) :
  (forall a w1, m w = (Returned a, w1) -> post (k a) w1 Q) ->
  post (bind m k) w Q.
Proof.
  unfold post, bind. intros H b w' E.
  destruct (m w) as [[a|e] w1] eqn:Em; [|discriminate].
  exact (H a w1 eq_refl b w' E).
Qed.

Lemma post_getThis_bind {T B} (k : T -> M T B) w (Q : B -> Prop) :
  post (k (this w)) w Q -> post (bind getThis k) w Q.
Proof. intros H. exact H. Qed.

Lemma Extends_refl p : Extends p p.
Proof. exists "". now rewrite append_nil_r. Qed.

Lemma Extends_append p s x : Extends p s -> Extends p (s ++ x).
Proof. intros (t & ->). exists (t ++ x). now rewrite append_assoc. Qed.

Lemma Extends_trans p q s : Extends p q -> Extends q s -> Extends p s.
Proof. intros (t & ->) (u & ->). exists (t ++ u). now rewrite append_assoc. Qed.

Lemma forEachAppend_extends {T A} (body : A -> M T string) xs :
  forall acc w, post (forEachAppend body xs acc) w (Extends acc).
Proof.
  induction xs as [|x xs IH]; intros acc w; simpl.
  - apply post_ret, Extends_refl.
  - apply post_bind. intros s w1 _ r w2 E.
    apply (Extends_trans acc (acc ++ s)); [apply Extends_append, Extends_refl|].
    exact (IH _ _ _ _ E).
Qed.

(** Name the value of the outermost [let] of the computation; [tac]
    then shows that the value extends the head of the document. *)
Ltac extend_let tac :=
  lazymatch goal with
  | Hprev : Extends ?h ?prev |- post (let x := ?a in @?k x) ?w ?Q =>
      let v := fresh x in
      let H := fresh "H" v in
      pose (v := a); change (post (k v) w Q); cbv beta;
      assert (H : Extends h v) by (unfold v; tac);
      clearbody v; clear Hprev; try clear prev
  end.

(** Name the value of the outermost [let] and keep it. *)
Ltac name_let :=
  lazymatch goal with
  | |- post (let x := ?a in @?k x) ?w ?Q =>
      let v := fresh x in
      pose (v := a); change (post (k v) w Q); cbv beta
  end.

Ltac extends :=
  first
    [ assumption
    | apply Extends_append; assumption
    | match goal with
      | |- Extends _ (if ?c then _ else _) =>
          destruct c; [apply Extends_append; assumption | assumption]
      end ].

(** The text [generateRSS] hands to [formatXml] starts with the
    declaration, the root tag that [hasMedia] and [hasGoogleNews] choose,
    and the channel tag. *)
Lemma generateRSS_root w :
  post generateRSS w
       (fun out => exists rest,
          out = xmlDeclaration ++ nl
                ++ rootTag (hasMedia (this w)) (hasGoogleNews (this w)) ++ rest).
Proof.
  cbv delta [generateRSS]; cbv beta. apply post_getThis_bind; cbv beta.
  set (head := rootTag (hasMedia (this w)) (hasGoogleNews (this w))
               ++ nl ++ "  <channel>" ++ nl).
  (* the five assignments that build the head *)
  do 5 name_let.
  assert (Hhead : Extends head rss3).
  { unfold rss3, rss2, rss1, rss0, rss, head.
    destruct (hasMedia (this w)), (hasGoogleNews (this w)); apply Extends_refl. }
  clearbody rss3. clear rss2 rss1 rss0 rss.
  repeat extend_let extends.
  apply post_bind. intros ? w1 _.
  repeat extend_let extends.
  apply post_bind. intros items_rss w2 Erun.
  assert (Hitems : Extends head items_rss).
  { eapply Extends_trans; [|exact (forEachAppend_extends _ _ _ _ _ _ Erun)].
    assumption. }
  repeat extend_let extends.
  apply post_lift. intros out Hout.
  match goal with H : Extends head ?r |- _ =>
    match type of Hout with context [r] => destruct H as (t & Et); rewrite Et in Hout end
  end.
  unfold head in Hout. rewrite !append_assoc in Hout.
  exact (formatXml_keeps_root _ _ _ _ Hout).
Qed.

End RssRootFacts.

Lemma occursb_iff s t : occursb s t = true <-> Occurs s t.
Proof.
  split.
  - induction t as [|c t IH]; cbn [occursb]; intros H;
      apply orb_true_iff in H; destruct H as [H|H]; try discriminate.
    + apply UrlFacts.startsWith_split in H. destruct H as (r & ->).
      exists "", r. reflexivity.
    + apply UrlFacts.startsWith_split in H. destruct H as (r & ->).
      exists "", r. reflexivity.
    + destruct (IH H) as (a & b & ->). exists (String c a), b. reflexivity.
  - intros (a & b & ->). induction a as [|c a IH].
    + destruct (s ++ b) eqn:E; cbn [append occursb]; rewrite <- ?E;
        apply orb_true_iff; left; apply UrlFacts.startsWith_split; now exists b.
    + cbn [append occursb]. rewrite IH. apply orb_true_r.
Qed.

Module NamespaceFacts.
Import Feed Namespaces.

Lemma hasMedia_iff f :
  hasMedia f = true <-> exists item, In item (items f) /\ carriesMedia item.
Proof.
  unfold hasMedia, carriesMedia. rewrite existsb_exists.
  split; intros (item & Hin & H); exists item; (split; [exact Hin|]).
  - apply orb_true_iff in H. destruct H as [H|H]; [left | right].
    + destruct (FeedItemData.images (FeedItem.data item)) as [[|i l]|];
        try discriminate. eexists. split; [reflexivity | discriminate].
    + destruct (FeedItemData.videos (FeedItem.data item)) as [[|v l]|];
        try discriminate. eexists. split; [reflexivity | discriminate].
  - apply orb_true_iff. destruct H as [(l & -> & Hl)|(l & -> & Hl)]; [left | right];
      destruct l; [contradiction | reflexivity | contradiction | reflexivity].
Qed.

Lemma hasGoogleNews_iff f :
  hasGoogleNews f = true <-> exists item, In item (items f) /\ carriesNews item.
Proof.
  unfold hasGoogleNews, carriesNews. rewrite existsb_exists.
  split; intros (item & Hin & H); exists item; (split; [exact Hin|]).
  - destruct (FeedItemData.news (FeedItem.data item)) as [n|]; [now exists n | discriminate].
  - destruct H as (n & ->). reflexivity.
Qed.

Lemma rootTag_media media news :
  Occurs mediaDeclaration (Namespaces.rootTag media news) <-> media = true.
Proof.
  rewrite <- occursb_iff. destruct media, news; vm_compute; split; congruence.
Qed.

Lemma rootTag_news media news :
  Occurs newsDeclaration (Namespaces.rootTag media news) <-> news = true.
Proof.
  rewrite <- occursb_iff. destruct media, news; vm_compute; split; congruence.
Qed.

(** The root tag is one tag: an opening bracket, no bracket inside, a
    closing bracket. *)
Lemma rootTag_is_a_tag media news :
  exists inner,
    Namespaces.rootTag media news = "<" ++ inner ++ ">"
    /\ allChars (fun c => negb (Ascii.eqb c "<" || Ascii.eqb c ">")) inner = true.
Proof.
  exists ("rss version=" ++ dq ++ "2.0" ++ dq
          ++ (if media then mediaNamespace else "")
          ++ (if news then newsNamespace else "")).
  destruct media, news; split; reflexivity.
Qed.

End NamespaceFacts.

(** C4. Whenever [toXML("rss")] returns, its result starts with the XML
    declaration, a line break and the root start tag, one tag reading
    [<rss version="2.0"], the declarations and [>]; the media declaration
    [xmlns:media="http://search.yahoo.com/mrss/"] occurs in that tag
    exactly when some item has at least one image or at least one video,
    and the news declaration exactly when some item has a news block. *)
Theorem rss_root_declares_namespaces_in_use
  (w w' : World Feed.t) (out : string) :
  Feed.toXML "rss" w = (Returned out, w') ->
  exists root rest,
    out = Feed.xmlDeclaration ++ nl ++ root ++ rest
    /\ root = Namespaces.rootTag (Feed.hasMedia (this w)) (Feed.hasGoogleNews (this w))
    /\ (exists inner,
          root = "<" ++ inner ++ ">"
          /\ allChars (fun c => negb (Ascii.eqb c "<" || Ascii.eqb c ">")) inner = true)
    /\ (Occurs Namespaces.mediaDeclaration root
        <-> exists item, In item (Feed.items (this w)) /\ Namespaces.carriesMedia item)
    /\ (Occurs Namespaces.newsDeclaration root
        <-> exists item, In item (Feed.items (this w)) /\ Namespaces.carriesNews item).
Proof.
  intros H. change (Feed.toXML "rss" w) with (Feed.generateRSS w) in H.
  destruct (RssRootFacts.generateRSS_root w out w' H) as (rest & ->).
  exists (Namespaces.rootTag (Feed.hasMedia (this w)) (Feed.hasGoogleNews (this w))), rest.
  split; [reflexivity|]. split; [reflexivity|]. split; [|split].
  - apply NamespaceFacts.rootTag_is_a_tag.
  - rewrite NamespaceFacts.rootTag_media. apply NamespaceFacts.hasMedia_iff.
  - rewrite NamespaceFacts.rootTag_news. apply NamespaceFacts.hasGoogleNews_iff.
Qed.

(** Scenario (b): the rendering of the feed with an image declares the
    media namespace in its root tag. *)
Lemma rss_root_declares_namespaces_witness :
  exists out root rest,
    fst (Feed.toXML "rss" Sample.scenarioFeedWithImage) = Returned out
    /\ out = Feed.xmlDeclaration ++ nl ++ root ++ rest
    /\ Occurs Namespaces.mediaDeclaration root.
Proof.
  destruct (Feed.toXML "rss" Sample.scenarioFeedWithImage) as [o w'] eqn:E.
  assert (Ho : isReturned o = true).
  { change o with (fst (o, w')). rewrite <- E. vm_compute. reflexivity. }
  destruct o as [out|e]; [|discriminate].
  destruct (rss_root_declares_namespaces_in_use Sample.scenarioFeedWithImage w' out E)
    as (root & rest & Eout & _ & _ & Hmedia & _).
  exists out, root, rest. split; [reflexivity|]. split; [exact Eout|].
  apply Hmedia. exists (FeedItem.new Sample.imageItem). split.
  - right. left. reflexivity.
  - left. eexists. split; [reflexivity | discriminate].
Defined.

(** Scenario (a): the rendering has the feed title, one item block and
    neither namespace. *)
Example scenario_a_rendering :
  match fst (Feed.toXML "rss" Sample.scenarioFeed) with
  | Returned out =>
      occursb "<title>T</title>" out
      && occursb "<item>" out
      && negb (occursb "xmlns:media" out)
      && negb (occursb "xmlns:news" out)
  | Thrown _ => false
  end = true.
Proof. vm_compute. reflexivity. Qed.

(** The theorem at the feed of scenario (a). *)
Lemma toXML_has_no_side_effect_witness :
  nonEmpty (Feed.lastBuildDate (this Sample.scenarioFeed)) = true
  /\ snd (Feed.toXML "rss" Sample.scenarioFeed) = Sample.scenarioFeed
  /\ fst (Feed.toXML "atom" (snd (Feed.toXML "atom" Sample.scenarioFeed)))
     = fst (Feed.toXML "atom" Sample.scenarioFeed).
Proof.
  split; [reflexivity|]. split.
  - exact (proj1 (toXML_has_no_side_effect_and_repeats "rss" Sample.scenarioFeed eq_refl)).
  - exact (proj1 (proj2 (proj2
             (toXML_has_no_side_effect_and_repeats "atom" Sample.scenarioFeed eq_refl)))).
Defined.

(** ** C9: an entry without a pubdate *)

Module EntryDateFacts.
Import DateHelper XmlHelper Feed.

Lemma opensNo_append c a b :
  opensNo c a = true -> opensNo c b = true -> opensNo c (a ++ b) = true.
Proof.
  intros Ha Hb. induction a as [|x a IH]; [exact Hb|].
  cbn [append opensNo] in *. apply andb_true_iff in Ha. destruct Ha as [Hx Ha].
  rewrite (IH Ha), andb_true_r.
  destruct (Ascii.eqb x "<"); [|reflexivity].
  destruct a as [|y a]; [discriminate | exact Hx].
Qed.

Lemma noLt_opensNo c s : noLt s = true -> opensNo c s = true.
Proof.
  unfold noLt. induction s as [|a s IH]; [reflexivity|].
  cbn [allChars opensNo]. intros H. apply andb_true_iff in H. destruct H as [Ha Hs].
  rewrite (IH Hs), andb_true_r. apply negb_true_iff in Ha. now rewrite Ha.
Qed.

Lemma noLt_append a b : noLt a = true -> noLt b = true -> noLt (a ++ b) = true.
Proof.
  unfold noLt. intros Ha Hb. induction a as [|x a IH]; [exact Hb|].
  cbn [append allChars] in *. apply andb_true_iff in Ha. destruct Ha as [Hx Ha].
  now rewrite Hx, (IH Ha).
Qed.

Lemma noLt_replaceAll_lt by_ s :
  noLt by_ = true -> noLt (replaceAll "<" by_ s) = true.
Proof.
  intros Hby. induction s as [|d s IH]; [reflexivity|].
  cbn [replaceAll]. destruct (Ascii.eqb "<" d) eqn:E.
  - now apply noLt_append.
  - unfold noLt in *. cbn [allChars]. rewrite IH, andb_true_r.
    rewrite Ascii.eqb_sym, E. reflexivity.
Qed.

Lemma noLt_replaceAll c by_ s :
  noLt by_ = true -> noLt s = true -> noLt (replaceAll c by_ s) = true.
Proof.
  intros Hby. induction s as [|d s IH]; [reflexivity|].
  intros Hs. unfold noLt in Hs. cbn [allChars] in Hs.
  apply andb_true_iff in Hs. destruct Hs as [Hd Hs].
  cbn [replaceAll]. destruct (Ascii.eqb c d).
  - apply noLt_append; [exact Hby | now apply IH].
  - unfold noLt in *. cbn [allChars]. now rewrite Hd, IH.
Qed.

Lemma noLt_escapeXml s : noLt (escapeXml s) = true.
Proof.
  unfold escapeXml.
  do 3 (apply noLt_replaceAll; [reflexivity|]).
  now apply noLt_replaceAll_lt.
Qed.

Lemma noLt_uint d : noLt (NilEmpty.string_of_uint d) = true.
Proof. induction d; cbn; assumption || reflexivity. Qed.

Lemma noLt_intToString z : noLt (intToString z) = true.
Proof.
  unfold intToString, NilZero.string_of_int, NilZero.string_of_uint.
  destruct (Z.to_int z) as [d|d]; destruct d; try reflexivity;
    unfold noLt; cbn [allChars negb Ascii.eqb Bool.eqb andb];
    first [apply noLt_uint | apply (noLt_uint (Decimal.D0 _))].
Qed.

Lemma opensNo_appendEach {A} c (piece : A -> string) xs :
  (forall x, opensNo c (piece x) = true) ->
  forall acc, opensNo c acc = true -> opensNo c (appendEach piece xs acc) = true.
Proof.
  intros Hp. unfold appendEach.
  induction xs as [|x xs IH]; intros acc Hacc; cbn [fold_left]; [exact Hacc|].
  apply IH. now apply opensNo_append.
Qed.

Lemma opensNo_no_tag c s rest :
  opensNo c s = true -> ~ Occurs (String "<" (String c rest)) s.
Proof.
  intros H (a & b & ->). induction a as [|x a IH].
  - cbn in H. rewrite Ascii.eqb_refl in H. discriminate.
  - cbn [append opensNo] in H. apply andb_true_iff in H. now apply IH.
Qed.

Lemma yields_ret {T} s (w : World T) (P : string -> Prop) :
  P s -> yields (ret s) w P.
Proof. intros H. now exists s. Qed.

Lemma yields_bind_ret {T} a (k : string -> M T string) (w : World T) P :
  yields (k a) w P -> yields (bind (ret a) k) w P.
Proof. intros H. exact H. Qed.

(** Show that a string built from escaped text, numbers and literal
    markup opens no tag whose name starts with the given character. *)
Ltac opens_none :=
  repeat
    (cbv beta;
     lazymatch goal with
     | H : opensNo ?c ?s = true |- opensNo ?c ?s = true => exact H
     | |- opensNo _ (let _ := _ in _) = true => cbv zeta
     | |- opensNo _ (_ ++ _) = true => apply opensNo_append
     | |- opensNo _ (escapeXml _) = true => apply noLt_opensNo, noLt_escapeXml
     | |- opensNo _ (intToString _) = true => apply noLt_opensNo, noLt_intToString
     | |- opensNo _ (appendEach _ _ _) = true => apply opensNo_appendEach; [intros ?|]
     | |- opensNo _ (match ?o with Some _ => _ | None => _ end) = true => destruct o
     | |- opensNo _ (if ?b then _ else _) = true => destruct b
     | |- opensNo _ _ = true => reflexivity
     end).

(** Name the value of the outermost [let]; it opens no such tag. *)
Ltac opens_none_let c :=
  lazymatch goal with
  | |- yields (let x := ?a in @?k x) ?w ?P =>
      let v := fresh x in
      let H := fresh "H" v in
      pose (v := a); change (yields (k v) w P); cbv beta;
      assert (H : opensNo c v = true) by (unfold v; opens_none);
      clearbody v
  end.

Lemma generateRSSItem_undated item w :
  truthyDate (FeedItemData.pubdate item) = false ->
  yields (generateRSSItem item) w (fun s => opensNo "p" s = true).
Proof.
  intros Hd. cbv delta [generateRSSItem]; cbv beta.
  destruct (FeedItemData.pubdate item) as [p|]; [rewrite Hd|]; cbv iota;
    repeat opens_none_let "p"%char;
    apply yields_bind_ret;
    repeat opens_none_let "p"%char;
    apply yields_ret; opens_none.
Qed.

Lemma generateAtomEntry_undated item w :
  truthyDate (FeedItemData.pubdate item) = false ->
  yields (generateAtomEntry item) w (fun s => opensNo "u" s = true).
Proof.
  intros Hd. cbv delta [generateAtomEntry]; cbv beta.
  destruct (FeedItemData.pubdate item) as [p|]; [rewrite Hd|]; cbv iota;
    repeat opens_none_let "u"%char;
    apply yields_bind_ret;
    repeat opens_none_let "u"%char;
    apply yields_ret; opens_none.
Qed.

Lemma getPubDate_undated (wi : World FeedItem.t) :
  truthyDate (FeedItemData.pubdate (FeedItem.data (this wi))) = false ->
  FeedItem.getPubDate wi
  = (Returned (toISOString (Host.clock (host wi) (reads wi))),
     mkWorld (this wi) (host wi) (S (reads wi))).
Proof.
  intros H. unfold FeedItem.getPubDate, bind, getThis. now rewrite H.
Qed.

Lemma processItemData_pubdate cfg d :
  FeedItemData.pubdate (processItemData cfg d) = FeedItemData.pubdate d.
Proof. unfold processItemData. now destruct (nonEmpty (Config.baseUrl cfg)). Qed.

End EntryDateFacts.

(** C9, as the specification states it, fails.  The entry of the feed of
    scenario (a) was added without a pubdate when the clock read
    12:00:01.  The RSS rendering of the feed has no [<pubDate>] element
    and the Atom rendering of the entry no [<updated>] element: the entry
    is assigned no timestamp at all.  [getPubDate], which no renderer
    calls, gives the date of its own call, here 12:00:10, not one within
    the instants around the insertion. *)
Lemma undated_entry_is_rendered_without_timestamp :
  Feed.items (this Sample.scenarioFeed) = [Sample.scenarioEntry]
  /\ FeedItemData.pubdate (FeedItem.data Sample.scenarioEntry) = None
  /\ Feed.lastBuildDate (this Sample.scenarioFeed) = "2024-01-01T12:00:01.000Z"
  /\ (exists rss,
        fst (Feed.toXML "rss" Sample.scenarioFeed) = Returned rss
        /\ occursb "<pubDate>" rss = false)
  /\ (exists entry,
        fst (Feed.generateAtomEntry (FeedItem.data Sample.scenarioEntry) Sample.scenarioFeed)
        = Returned entry
        /\ occursb "<updated>" entry = false)
  /\ fst (FeedItem.getPubDate (mkWorld Sample.scenarioEntry Sample.host 10))
     = Returned "2024-01-01T12:00:10.000Z".
Proof.
  repeat split; try reflexivity.
  - eexists. split; vm_compute; reflexivity.
  - eexists. split; vm_compute; reflexivity.
Qed.

(** C9, amended.  For an entry added without a pubdate (none, or the empty
    string), whatever the base URL it was resolved against: the RSS
    rendering of the entry returns and opens no [<pubDate] tag, the Atom
    rendering of the entry returns and opens no [<updated] tag, neither
    reading the clock; and [getPubDate] returns the date the clock gives
    when [getPubDate] is called, which, the clock never running backwards,
    is no earlier than the instant of the insertion. *)
Theorem undated_entry_gets_no_rendered_timestamp
  (cfg : Config.t) (itemData : FeedItemData.t) :
  truthyDate (FeedItemData.pubdate itemData) = false ->
  let entry := FeedItem.new (Feed.processItemData cfg itemData) in
  (forall w : World Feed.t,
     exists s, Feed.generateRSSItem (FeedItem.data entry) w = (Returned s, w)
               /\ forall rest, ~ Occurs ("<pubDate" ++ rest) s)
  /\ (forall w : World Feed.t,
        exists s, Feed.generateAtomEntry (FeedItem.data entry) w = (Returned s, w)
                  /\ forall rest, ~ Occurs ("<updated" ++ rest) s)
  /\ (forall h n,
        FeedItem.getPubDate (mkWorld entry h n)
        = (Returned (DateHelper.toISOString (Host.clock h n)), mkWorld entry h (S n)))
  /\ (forall h inserted asked,
        (forall i j, (i <= j)%nat -> (Host.clock h i <= Host.clock h j)%Z) ->
        (inserted <= asked)%nat ->
        exists t,
          fst (FeedItem.getPubDate (mkWorld entry h asked))
          = Returned (DateHelper.toISOString t)
          /\ (Host.clock h inserted <= t)%Z).
Proof.
  intros Hd entry.
  assert (He : truthyDate (FeedItemData.pubdate (FeedItem.data entry)) = false).
  { unfold entry. cbn [FeedItem.data FeedItem.new].
    now rewrite EntryDateFacts.processItemData_pubdate. }
  split; [|split; [|split]].
  - intros w. destruct (EntryDateFacts.generateRSSItem_undated _ w He) as (s & E & Hs).
    exists s. split; [exact E|]. intros rest.
    exact (EntryDateFacts.opensNo_no_tag "p" s _ Hs).
  - intros w. destruct (EntryDateFacts.generateAtomEntry_undated _ w He) as (s & E & Hs).
    exists s. split; [exact E|]. intros rest.
    exact (EntryDateFacts.opensNo_no_tag "u" s _ Hs).
  - intros h n. now apply (EntryDateFacts.getPubDate_undated (mkWorld entry h n)).
  - intros h m n Hmono Hmn. exists (Host.clock h n). split; [|now apply Hmono].
    now rewrite (EntryDateFacts.getPubDate_undated (mkWorld entry h n)).
Qed.

(** The theorem at the entry of scenario (a): asked at the tenth reading
    of the clock, [getPubDate] gives the date of that reading. *)
Lemma undated_entry_witness :
  truthyDate (FeedItemData.pubdate (Sample.plainItem "A" "https://ex.com/a")) = false
  /\ FeedItem.getPubDate (mkWorld Sample.scenarioEntry Sample.host 10)
     = (Returned (DateHelper.toISOString (Host.clock Sample.host 10)),
        mkWorld Sample.scenarioEntry Sample.host 11).
Proof.
  split; [reflexivity|].
  exact (proj1 (proj2 (proj2 (undated_entry_gets_no_rendered_timestamp
                                (Feed.effectiveConfig Sample.defaults)
                                (Sample.plainItem "A" "https://ex.com/a") eq_refl)))
           Sample.host 10%nat).
Defined.

(* ================================================================= *)
(** * Further properties of the code *)

(** ** escapeXml *)

Module EscapeFacts.
Import XmlHelper.

Lemma replaceAll_append c by_ a b :
  replaceAll c by_ (a ++ b) = replaceAll c by_ a ++ replaceAll c by_ b.
Proof.
  induction a as [|x a IH]; simpl; [reflexivity|].
  destruct (Ascii.eqb c x); simpl; rewrite IH; [now rewrite append_assoc | reflexivity].
Qed.

Lemma escapeXml_append a b : escapeXml (a ++ b) = escapeXml a ++ escapeXml b.
Proof. unfold escapeXml. now rewrite !replaceAll_append. Qed.

Lemma escapeXml_char c : escapeXml (String c "") = escapeChar c.
Proof.
  destruct c as [[] [] [] [] [] [] [] []]; reflexivity.
Qed.

Lemma escapeXml_cons c s : escapeXml (String c s) = escapeChar c ++ escapeXml s.
Proof.
  change (String c s) with (String c "" ++ s).
  now rewrite escapeXml_append, escapeXml_char.
Qed.

Lemma lacks_append c a b : lacks c (a ++ b) = lacks c a && lacks c b.
Proof.
  unfold lacks. induction a as [|x a IH]; simpl; [reflexivity|].
  now rewrite IH, andb_assoc.
Qed.

Lemma escapeChar_special c : isSpecial c = true -> In (escapeChar c) entities.
Proof.
  unfold isSpecial, escapeChar, entities.
  destruct (Ascii.eqb c "&"); [simpl; tauto|].
  destruct (Ascii.eqb c "<"); [simpl; tauto|].
  destruct (Ascii.eqb c ">"); [simpl; tauto|].
  destruct (Ascii.eqb c quote); [simpl; tauto|].
  destruct (Ascii.eqb c "'"); [simpl; tauto|].
  discriminate.
Qed.

Lemma escapeChar_plain c : isSpecial c = false -> escapeChar c = String c "".
Proof.
  unfold isSpecial, escapeChar.
  destruct (Ascii.eqb c "&"); [discriminate|].
  destruct (Ascii.eqb c "<"); [discriminate|].
  destruct (Ascii.eqb c ">"); [discriminate|].
  destruct (Ascii.eqb c quote); [discriminate|].
  destruct (Ascii.eqb c "'"); [discriminate|].
  reflexivity.
Qed.

(** No markup character but ['&'] in what is written for one character. *)
Lemma escapeChar_lacks c d :
  In d ["<"; ">"; quote; "'"]%char -> lacks d (escapeChar c) = true.
Proof.
  intros Hd. destruct (isSpecial c) eqn:E.
  - apply escapeChar_special in E. simpl in Hd, E.
    destruct Hd as [<-|[<-|[<-|[<-|[]]]]];
      destruct E as [<-|[<-|[<-|[<-|[<-|[]]]]]]; reflexivity.
  - rewrite (escapeChar_plain c E). unfold lacks. simpl. rewrite andb_true_r.
    unfold isSpecial in E. rewrite !orb_false_iff in E.
    destruct E as ((((_ & E1) & E2) & E3) & E4).
    simpl in Hd. destruct Hd as [<-|[<-|[<-|[<-|[]]]]]; now rewrite ?E1, ?E2, ?E3, ?E4.
Qed.

Lemma escapeXml_lacks d s :
  In d ["<"; ">"; quote; "'"]%char -> lacks d (escapeXml s) = true.
Proof.
  intros Hd. induction s as [|c s IH]; [reflexivity|].
  rewrite escapeXml_cons, lacks_append, IH, andb_true_r.
  now apply escapeChar_lacks.
Qed.

Lemma prefix_append p a b : String.prefix p a = true -> String.prefix p (a ++ b) = true.
Proof.
  revert a. induction p as [|x p IH]; intros a H; [now destruct (a ++ b)|].
  destruct a as [|y a]; [discriminate|]. simpl in *.
  destruct (ascii_dec x y); [now apply IH | discriminate].
Qed.

Lemma prefix_refl p : String.prefix p p = true.
Proof.
  induction p as [|x p IH]; [reflexivity|]. simpl.
  destruct (ascii_dec x x); [exact IH | congruence].
Qed.

Lemma startsOnly_append c heads a b :
  startsOnly c heads a = true -> startsOnly c heads b = true ->
  startsOnly c heads (a ++ b) = true.
Proof.
  intros Ha Hb. induction a as [|x a IH]; [exact Hb|].
  cbn [startsOnly] in Ha.
  apply andb_true_iff in Ha. destruct Ha as [H1 H2].
  change (String x a ++ b) with (String x (a ++ b)).
  cbn [startsOnly]. rewrite (IH H2), andb_true_r.
  destruct (Ascii.eqb x c); [|reflexivity].
  rewrite existsb_exists in *. destruct H1 as (e & He & Hp).
  exists e. split; [exact He|]. exact (prefix_append e (String x a) b Hp).
Qed.

Lemma lacks_startsOnly c heads s : lacks c s = true -> startsOnly c heads s = true.
Proof.
  unfold lacks. induction s as [|x s IH]; [reflexivity|]. cbn [allChars startsOnly].
  intros H. apply andb_true_iff in H. destruct H as [Hx Hs].
  apply negb_true_iff in Hx. now rewrite Hx, (IH Hs).
Qed.

Lemma escapeChar_ampersands c : startsOnly "&" entities (escapeChar c) = true.
Proof.
  destruct (isSpecial c) eqn:E.
  - apply escapeChar_special in E. simpl in E.
    destruct E as [<-|[<-|[<-|[<-|[<-|[]]]]]]; reflexivity.
  - rewrite (escapeChar_plain c E). cbn [startsOnly].
    unfold isSpecial in E. rewrite !orb_false_iff in E.
    destruct E as ((((E0 & _) & _) & _) & _). now rewrite E0.
Qed.

Lemma escapeXml_ampersands s : startsOnly "&" entities (escapeXml s) = true.
Proof.
  induction s as [|c s IH]; [reflexivity|].
  rewrite escapeXml_cons. apply startsOnly_append; [apply escapeChar_ampersands | exact IH].
Qed.

Lemma escapeXml_chars s :
  escapeXml s = String.concat "" (map escapeChar (list_ascii_of_string s)).
Proof.
  induction s as [|c s IH]; [reflexivity|].
  rewrite escapeXml_cons, IH. cbn [list_ascii_of_string map].
  destruct (map escapeChar (list_ascii_of_string s)) as [|e es] eqn:E.
  - simpl. now rewrite append_nil_r.
  - reflexivity.
Qed.

Lemma escapeChar_head c : exists d rest, escapeChar c = String d rest
  /\ (isSpecial c = true -> d = "&"%char /\ exists e r, rest = String e r /\ e <> "&"%char)
  /\ (isSpecial c = false -> d = c /\ rest = "").
Proof.
  destruct (isSpecial c) eqn:E.
  - apply escapeChar_special in E. simpl in E.
    destruct E as [<-|[<-|[<-|[<-|[<-|[]]]]]];
      (eexists; eexists; split; [reflexivity|]; split; [|discriminate];
       intros _; split; [reflexivity|]; eexists; eexists; split; [reflexivity|discriminate]).
  - rewrite (escapeChar_plain c E). exists c, "". split; [reflexivity|].
    split; [discriminate | tauto].
Qed.

Lemma append_cancel_l (a x y : string) : a ++ x = a ++ y -> x = y.
Proof. induction a as [|c a IH]; simpl; [tauto|]. intros [= H]. now apply IH. Qed.

(** The escapes of two characters are not prefixes of one another. *)
Lemma escapeChar_prefix_free c d x y :
  escapeChar c ++ x = escapeChar d ++ y -> c = d.
Proof.
  intros H.
  assert (Hs : forall a, isSpecial a = false -> a <> "&"%char).
  { intros a Ha ->. discriminate. }
  destruct (isSpecial c) eqn:Ec, (isSpecial d) eqn:Ed.
  - unfold isSpecial in Ec, Ed. unfold escapeChar in H.
    destruct (Ascii.eqb_spec c "&"), (Ascii.eqb_spec d "&");
    destruct (Ascii.eqb_spec c "<"), (Ascii.eqb_spec d "<");
    destruct (Ascii.eqb_spec c ">"), (Ascii.eqb_spec d ">");
    destruct (Ascii.eqb_spec c quote), (Ascii.eqb_spec d quote);
    destruct (Ascii.eqb_spec c "'"), (Ascii.eqb_spec d "'");
    try congruence; try discriminate.
  - rewrite (escapeChar_plain d Ed) in H.
    destruct (escapeChar_head c) as (h & r & E & Hsp & _).
    destruct (Hsp Ec) as [-> _]. rewrite E in H. simpl in H.
    injection H as H _. exfalso. now apply (Hs d Ed).
  - rewrite (escapeChar_plain c Ec) in H.
    destruct (escapeChar_head d) as (h & r & E & Hsp & _).
    destruct (Hsp Ed) as [-> _]. rewrite E in H. simpl in H.
    injection H as H _. exfalso. now apply (Hs c Ec).
  - rewrite (escapeChar_plain c Ec), (escapeChar_plain d Ed) in H.
    simpl in H. now injection H.
Qed.

Lemma escapeXml_inj a : forall b, escapeXml a = escapeXml b -> a = b.
Proof.
  induction a as [|c a IH]; intros [|d b] H.
  - reflexivity.
  - rewrite escapeXml_cons in H. destruct (escapeChar_head d) as (h & r & E & _).
    rewrite E in H. discriminate.
  - rewrite escapeXml_cons in H. destruct (escapeChar_head c) as (h & r & E & _).
    rewrite E in H. discriminate.
  - rewrite !escapeXml_cons in H.
    pose proof (escapeChar_prefix_free _ _ _ _ H) as ->.
    apply append_cancel_l in H. f_equal. now apply IH.
Qed.

Lemma length_append (a b : string) :
  String.length (a ++ b) = (String.length a + String.length b)%nat.
Proof. induction a as [|c a IH]; simpl; [reflexivity | now rewrite IH]. Qed.

Lemma escapeChar_length c :
  (if isSpecial c then 4 <= String.length (escapeChar c)
   else String.length (escapeChar c) = 1)%nat.
Proof.
  destruct (isSpecial c) eqn:E.
  - apply escapeChar_special in E. simpl in E.
    destruct E as [<-|[<-|[<-|[<-|[<-|[]]]]]]; simpl; lia.
  - now rewrite (escapeChar_plain c E).
Qed.

Lemma escapeXml_length s :
  (String.length s <= String.length (escapeXml s))%nat
  /\ (allChars (fun c => negb (isSpecial c)) s = false ->
      String.length s < String.length (escapeXml s))%nat.
Proof.
  induction s as [|c s [IH1 IH2]]; [split; [simpl; lia | discriminate]|].
  rewrite escapeXml_cons, length_append. cbn [String.length allChars].
  pose proof (escapeChar_length c) as Hc.
  destruct (isSpecial c); simpl; split; try lia.
  intros H. specialize (IH2 H). lia.
Qed.

Lemma escapeXml_plain s :
  allChars (fun c => negb (isSpecial c)) s = true -> escapeXml s = s.
Proof.
  induction s as [|c s IH]; [reflexivity|]. cbn [allChars].
  intros H. apply andb_true_iff in H. destruct H as [Hc Hs].
  rewrite escapeXml_cons, (IH Hs), escapeChar_plain; [reflexivity|].
  now destruct (isSpecial c).
Qed.

End EscapeFacts.

(** X1.  Whatever the text, the result of [escapeXml] holds none of the
    characters ['<'], ['>'], the double quote and the apostrophe, and every
    ['&'] in it starts one of the five entities [&amp;], [&lt;], [&gt;],
    [&quot;] and [&#39;]. *)
Theorem escapeXml_leaves_no_markup (text : string) :
  lacks "<" (XmlHelper.escapeXml text) = true
  /\ lacks ">" (XmlHelper.escapeXml text) = true
  /\ lacks quote (XmlHelper.escapeXml text) = true
  /\ lacks "'" (XmlHelper.escapeXml text) = true
  /\ startsOnly "&" entities (XmlHelper.escapeXml text) = true.
Proof.
  repeat split.
  - apply EscapeFacts.escapeXml_lacks. simpl. tauto.
  - apply EscapeFacts.escapeXml_lacks. simpl. tauto.
  - apply EscapeFacts.escapeXml_lacks. simpl. tauto.
  - apply EscapeFacts.escapeXml_lacks. simpl. tauto.
  - apply EscapeFacts.escapeXml_ampersands.
Qed.

(** X2.  [escapeXml] works character by character: the escape of a text
    is the concatenation of the escapes of its characters, so that the
    escape of a concatenation is the concatenation of the escapes; the
    five replacements, made one after the other, never touch what an
    earlier one wrote. *)
Theorem escapeXml_is_characterwise (a b : string) :
  XmlHelper.escapeXml a
  = String.concat "" (map escapeChar (list_ascii_of_string a))
  /\ XmlHelper.escapeXml (a ++ b) = XmlHelper.escapeXml a ++ XmlHelper.escapeXml b.
Proof.
  split.
  - apply EscapeFacts.escapeXml_chars.
  - unfold XmlHelper.escapeXml. now rewrite !EscapeFacts.replaceAll_append.
Qed.

(** X3.  [escapeXml] loses nothing: two texts have the same escape only
    if they are the same text. *)
Theorem escapeXml_is_injective (a b : string) :
  XmlHelper.escapeXml a = XmlHelper.escapeXml b <-> a = b.
Proof.
  split; [apply EscapeFacts.escapeXml_inj | now intros ->].
Qed.

(** X4.  [escapeXml] never shortens a text, and it returns the text as it
    is exactly when the text holds none of the five characters: escaping
    what is already escaped changes it again, unless nothing was there to
    escape. *)
Theorem escapeXml_fixes_exactly_plain_text (text : string) :
  (String.length text <= String.length (XmlHelper.escapeXml text))%nat
  /\ (XmlHelper.escapeXml text = text
      <-> allChars (fun c => negb (isSpecial c)) text = true).
Proof.
  destruct (EscapeFacts.escapeXml_length text) as [Hle Hlt].
  split; [exact Hle|]. split.
  - intros E. destruct (allChars _ text) eqn:A; [reflexivity|].
    specialize (Hlt eq_refl). rewrite E in Hlt. lia.
  - apply EscapeFacts.escapeXml_plain.
Qed.

(** ** createCdata *)

Module CdataFacts.
Import XmlHelper.

Lemma occursb_cons s c t :
  occursb s (String c t) = String.prefix s (String c t) || occursb s t.
Proof. reflexivity. Qed.

(** Where the first ["]]>"] of a text is, if there is one. *)
Lemma prefix_split p s : String.prefix p s = true <-> exists r, s = p ++ r.
Proof. exact (UrlFacts.startsWith_split p s). Qed.

Lemma prefix_cdataEnd_short a t :
  String.prefix "]]>" (String a (t ++ "]]")) = true ->
  String.prefix "]]>" (String a (t ++ "]]>")) = true.
Proof.
  rewrite !prefix_split. intros (r & E).
  destruct t as [|t0 [|t1 t]]; simpl in E; try discriminate.
  injection E as -> -> -> E. exists (t ++ "]]>"). reflexivity.
Qed.

(** Where the first ["]]>"] of a text is, if there is one. *)
Lemma replaceCdataEnd_split by_ n : forall content,
  (String.length content <= n)%nat ->
  (occursb "]]>" content = false /\ replaceCdataEnd by_ content = content)
  \/ (exists text rest,
        content = text ++ "]]>" ++ rest
        /\ occursb "]]>" (text ++ "]]") = false
        /\ replaceCdataEnd by_ content = text ++ by_ ++ replaceCdataEnd by_ rest
        /\ (String.length rest < String.length content)%nat).
Proof.
  induction n as [|n IH]; intros content Hn.
  - destruct content; [|simpl in Hn; lia]. left. split; reflexivity.
  - destruct content as [|a rest1]; [left; split; reflexivity|].
    assert (Hrest : (String.length rest1 <= n)%nat) by (simpl in Hn; lia).
    destruct (String.prefix "]]>" (String a rest1)) eqn:Hp.
    + right. apply prefix_split in Hp. destruct Hp as (rest3 & E).
      exists "", rest3. rewrite E. repeat split. simpl. lia.
    + assert (Hstep : replaceCdataEnd by_ (String a rest1)
                      = String a (replaceCdataEnd by_ rest1)).
      { cbn [replaceCdataEnd].
        destruct rest1 as [|b [|c rest3]]; try reflexivity.
        destruct (Ascii.eqb_spec a "]"); [|reflexivity].
        destruct (Ascii.eqb_spec b "]"); [|reflexivity].
        destruct (Ascii.eqb_spec c ">"); [|reflexivity].
        subst. assert (String.prefix "]]>" ("]]>" ++ rest3) = true)
          by (apply prefix_split; now exists rest3).
        simpl in *. congruence. }
      destruct (IH rest1 Hrest) as [[Hno Hid] | (text & rest & E & Hno & Hre & Hlen)].
      * left. split; [|now rewrite Hstep, Hid].
        now rewrite occursb_cons, Hp, Hno.
      * right. exists (String a text), rest. subst rest1.
        repeat split.
        -- change (String a text ++ "]]") with (String a (text ++ "]]")).
           rewrite occursb_cons, Hno, orb_false_r.
           destruct (String.prefix "]]>" (String a (text ++ "]]"))) eqn:Hq; [|reflexivity].
           apply prefix_cdataEnd_short in Hq.
           apply (UrlFacts.startsWith_append _ _ rest) in Hq. unfold startsWith in Hq.
           change (String a (text ++ "]]>") ++ rest)
             with (String a ((text ++ "]]>") ++ rest)) in Hq.
           rewrite append_assoc in Hq. congruence.
        -- now rewrite Hstep, Hre.
        -- simpl. rewrite !EscapeFacts.length_append. simpl. lia.
Qed.

(** The sections of the result, with or without a pending ['>']. *)
Lemma sections_of_escaped n : forall content (pending : bool),
  (String.length content <= n)%nat ->
  let p := if pending then ">" else "" in
  Sections ("<![CDATA[" ++ p ++ replaceCdataEnd "]]]]><![CDATA[>" content ++ "]]>")
           (p ++ content).
Proof.
  induction n as [|n IH]; intros content pending Hn p.
  - destruct content; [|simpl in Hn; lia].
    replace (p ++ "") with (p ++ "" ++ "") by reflexivity.
    change ("<![CDATA[" ++ p ++ replaceCdataEnd "]]]]><![CDATA[>" "" ++ "]]>")
      with ("<![CDATA[" ++ p ++ "]]>" ++ "").
    rewrite !append_nil_r.
    replace p with (p ++ "") at 2 by apply append_nil_r.
    replace ("<![CDATA[" ++ p ++ "]]>") with ("<![CDATA[" ++ p ++ "]]>" ++ "") by reflexivity.
    apply sections_more; [now destruct pending | constructor].
  - destruct (replaceCdataEnd_split "]]]]><![CDATA[>" (S n) content Hn)
      as [[Hno Hid] | (text & rest & E & Hno & Hre & Hlen)].
    + rewrite Hid.
      replace (p ++ content) with ((p ++ content) ++ "") by apply append_nil_r.
      replace ("<![CDATA[" ++ p ++ content ++ "]]>")
        with ("<![CDATA[" ++ (p ++ content) ++ "]]>" ++ "")
        by (now rewrite !append_assoc).
      apply sections_more; [|constructor].
      destruct pending; [|exact Hno]. subst p.
      change (">" ++ content) with (String ">" content).
      rewrite occursb_cons, Hno, orb_false_r.
      destruct (String.prefix "]]>" (String ">" content)) eqn:Hq; [|reflexivity].
      apply prefix_split in Hq. destruct Hq as (r & Hq). discriminate.
    + rewrite Hre, E.
      replace (p ++ text ++ "]]>" ++ rest) with ((p ++ text ++ "]]") ++ (">" ++ rest))
        by (rewrite !append_assoc; reflexivity).
      replace ("<![CDATA[" ++ p ++ (text ++ "]]]]><![CDATA[>"
                 ++ replaceCdataEnd "]]]]><![CDATA[>" rest) ++ "]]>")
        with ("<![CDATA[" ++ (p ++ text ++ "]]") ++ "]]>"
              ++ ("<![CDATA[" ++ ">" ++ replaceCdataEnd "]]]]><![CDATA[>" rest ++ "]]>"))
        by (rewrite !append_assoc; reflexivity).
      apply sections_more.
      * destruct pending; [|exact Hno]. subst p.
        change (">" ++ text ++ "]]") with (String ">" (text ++ "]]")).
        rewrite occursb_cons, Hno, orb_false_r.
        destruct (String.prefix "]]>" (String ">" (text ++ "]]"))) eqn:Hq; [|reflexivity].
        apply prefix_split in Hq. destruct Hq as (r & Hq). discriminate.
      * apply (IH rest true). subst content.
        rewrite !EscapeFacts.length_append in Hn. simpl in Hn. lia.
Qed.

(** Two texts without ["]]>"], each followed by ["]]>"], that start the
    same string are the same text. *)
Lemma first_cdataEnd_unique h1 : forall h2 r1 r2,
  occursb "]]>" h1 = false -> occursb "]]>" h2 = false ->
  h1 ++ "]]>" ++ r1 = h2 ++ "]]>" ++ r2 -> h1 = h2 /\ r1 = r2.
Proof.
  assert (Hhead : forall h r r', occursb "]]>" h = false ->
                    "]]>" ++ r = h ++ "]]>" ++ r' -> h = "").
  { intros h r r' Hno E. destruct h as [|a [|b [|c h]]]; try reflexivity;
      simpl in E; try discriminate.
    injection E as <- <- <- E. rewrite occursb_cons in Hno.
    assert (Hp : String.prefix "]]>" ("]]>" ++ h) = true)
      by (apply prefix_split; now exists h).
    change ("]]>" ++ h) with (String "]" (String "]" (String ">" h))) in Hp.
    rewrite Hp in Hno. discriminate. }
  induction h1 as [|a h1 IH]; intros h2 r1 r2 H1 H2 E.
  - pose proof (Hhead h2 r1 r2 H2 E) as ->. simpl in E. now injection E.
  - destruct h2 as [|b h2].
    + symmetry in E. pose proof (Hhead _ _ _ H1 E). discriminate.
    + simpl in E. injection E as -> E.
      rewrite occursb_cons in H1, H2. apply orb_false_iff in H1, H2.
      destruct (IH h2 r1 r2 (proj2 H1) (proj2 H2) E) as [-> ->]. now split.
Qed.

Lemma sections_unique xml a : Sections xml a -> forall b, Sections xml b -> a = b.
Proof.
  induction 1 as [|held rest text Hno Hs IH]; intros b Hb.
  - inversion Hb. reflexivity.
  - inversion Hb as [|held' rest' text' Hno' Hs' E].
    destruct (first_cdataEnd_unique held' held rest' rest Hno' Hno E) as [-> ->].
    f_equal. now apply IH.
Qed.

End CdataFacts.

(** X5.  What [createCdata] returns is a run of CDATA sections, none of
    which holds []]>], and what the sections hold, read one after the
    other, is the content and nothing else: a []]>] in the content ends
    one section and the next one takes it up, so that nothing of the
    content is lost or read as markup. *)
Theorem createCdata_sections_hold_the_content (content : string) :
  Sections (XmlHelper.createCdata content) content
  /\ forall text, Sections (XmlHelper.createCdata content) text -> text = content.
Proof.
  pose proof (CdataFacts.sections_of_escaped (String.length content) content false
                (le_n _)) as H.
  split; [exact H|].
  intros text Ht. exact (CdataFacts.sections_unique _ _ Ht _ H).
Qed.

(** ** trim *)

Module TrimFacts.

Lemma allChars_append p a b : allChars p (a ++ b) = allChars p a && allChars p b.
Proof.
  induction a as [|x a IH]; simpl; [reflexivity|]. now rewrite IH, andb_assoc.
Qed.

Lemma trimStart_split s :
  exists a, s = a ++ trimStart s /\ allChars isWhiteSpace a = true.
Proof.
  induction s as [|c s (a & E & Ha)]; [now exists ""|]. simpl.
  destruct (isWhiteSpace c) eqn:Ec.
  - exists (String c a). simpl. rewrite Ec, Ha. split; [now rewrite <- E | reflexivity].
  - now exists "".
Qed.

Lemma trimEnd_split s :
  exists b, s = trimEnd s ++ b /\ allChars isWhiteSpace b = true.
Proof.
  induction s as [|c s (b & E & Hb)]; [now exists ""|]. cbn [trimEnd].
  destruct (trimEnd s) as [|d t] eqn:Et.
  - destruct (isWhiteSpace c) eqn:Ec.
    + exists (String c b). simpl in E |- *. rewrite Ec, Hb. now rewrite <- E.
    + exists b. simpl in E |- *. split; [now rewrite <- E | exact Hb].
  - exists b. split; [|exact Hb]. simpl. f_equal. exact E.
Qed.

Lemma trim_split s :
  exists a b, s = a ++ trim s ++ b
              /\ allChars isWhiteSpace a = true /\ allChars isWhiteSpace b = true.
Proof.
  destruct (trimStart_split s) as (a & Ea & Ha).
  destruct (trimEnd_split (trimStart s)) as (b & Eb & Hb).
  exists a, b. unfold trim. now rewrite <- Eb, <- Ea.
Qed.

Lemma trimStart_clean s : startsClean s = true -> trimStart s = s.
Proof. destruct s as [|c s]; simpl; [reflexivity|]. now destruct (isWhiteSpace c). Qed.

Lemma startsClean_trimStart s : startsClean (trimStart s) = true.
Proof.
  induction s as [|c s IH]; [reflexivity|]. simpl.
  destruct (isWhiteSpace c) eqn:E; [exact IH|]. simpl. now rewrite E.
Qed.

Lemma startsClean_trimEnd s : startsClean s = true -> startsClean (trimEnd s) = true.
Proof.
  destruct s as [|c s]; [reflexivity|]. cbn [trimEnd startsClean]. intros H.
  destruct (trimEnd s); [|exact H].
  destruct (isWhiteSpace c) eqn:Ec; [reflexivity|]. simpl. now rewrite Ec.
Qed.

Lemma trimEnd_idem s : trimEnd (trimEnd s) = trimEnd s.
Proof.
  induction s as [|c s IH]; [reflexivity|]. cbn [trimEnd].
  destruct (trimEnd s) as [|d t] eqn:Et.
  - destruct (isWhiteSpace c) eqn:Ec; [reflexivity|]. cbn [trimEnd]. now rewrite Ec.
  - cbn [trimEnd] in IH |- *. now rewrite IH.
Qed.

Lemma startsClean_trim s : startsClean (trim s) = true.
Proof. apply startsClean_trimEnd, startsClean_trimStart. Qed.

Lemma trim_idem s : trim (trim s) = trim s.
Proof.
  unfold trim at 1. rewrite (trimStart_clean _ (startsClean_trim s)).
  unfold trim. apply trimEnd_idem.
Qed.

Lemma trimEnd_white b : allChars isWhiteSpace b = true -> trimEnd b = "".
Proof.
  induction b as [|c b IH]; [reflexivity|]. cbn [allChars trimEnd]. intros H.
  apply andb_true_iff in H. destruct H as [Hc Hb]. now rewrite (IH Hb), Hc.
Qed.

Lemma trimEnd_append_white a b :
  allChars isWhiteSpace b = true -> trimEnd (a ++ b) = trimEnd a.
Proof.
  intros Hb. induction a as [|c a IH]; [now apply trimEnd_white|].
  change (String c a ++ b) with (String c (a ++ b)). cbn [trimEnd]. now rewrite IH.
Qed.

Lemma trimStart_white_append a s :
  allChars isWhiteSpace a = true -> trimStart (a ++ s) = trimStart s.
Proof.
  induction a as [|c a IH]; [reflexivity|]. cbn [allChars]. intros H.
  apply andb_true_iff in H. destruct H as [Hc Ha]. simpl. rewrite Hc. now apply IH.
Qed.

(** A trimmed string that is not empty, followed by white space, trims to
    itself. *)
Lemma trim_trimmed_append s b :
  allChars isWhiteSpace b = true -> trim (trim s ++ b) = trim s.
Proof.
  intros Hb. destruct (trim s) as [|c t] eqn:E.
  - simpl. unfold trim.
    destruct (trimStart_split b) as (a & Ea & Ha).
    assert (Hw : allChars isWhiteSpace (trimStart b) = true).
    { rewrite Ea, allChars_append in Hb. now apply andb_true_iff in Hb. }
    now apply trimEnd_white.
  - pose proof (startsClean_trim s) as Hc. rewrite E in Hc.
    unfold trim at 1.
    rewrite (trimStart_clean (String c t ++ b)) by exact Hc.
    rewrite trimEnd_append_white by exact Hb.
    rewrite <- E. unfold trim. apply trimEnd_idem.
Qed.

Lemma trim_nonEmpty s : nonEmpty (trim s) = negb (allChars isWhiteSpace s).
Proof.
  destruct (trim_split s) as (a & b & E & Ha & Hb).
  destruct (trim s) as [|c t] eqn:Et.
  - simpl in E. rewrite E, allChars_append, Ha, Hb. reflexivity.
  - pose proof (startsClean_trim s) as Hc. rewrite Et in Hc. simpl in Hc.
    rewrite E, !allChars_append. simpl.
    destruct (isWhiteSpace c); [discriminate|].
    now rewrite andb_false_r.
Qed.

Lemma withoutWhiteSpace_append a b :
  withoutWhiteSpace (a ++ b) = withoutWhiteSpace a ++ withoutWhiteSpace b.
Proof.
  induction a as [|c a IH]; [reflexivity|]. simpl.
  destruct (isWhiteSpace c); [exact IH | simpl; now rewrite IH].
Qed.

Lemma withoutWhiteSpace_white a :
  allChars isWhiteSpace a = true -> withoutWhiteSpace a = "".
Proof.
  induction a as [|c a IH]; [reflexivity|]. cbn [allChars]. intros H.
  apply andb_true_iff in H. destruct H as [Hc Ha]. simpl. rewrite Hc. now apply IH.
Qed.

Lemma withoutWhiteSpace_trim s : withoutWhiteSpace (trim s) = withoutWhiteSpace s.
Proof.
  destruct (trim_split s) as (a & b & E & Ha & Hb).
  rewrite E at 2. rewrite !withoutWhiteSpace_append.
  rewrite (withoutWhiteSpace_white a Ha), (withoutWhiteSpace_white b Hb).
  simpl. now rewrite append_nil_r.
Qed.

End TrimFacts.

(** ** Regular expressions *)

Module RegexFacts.
Import Regex.

Lemma seq_inv a b s :
  Matches (Seq a b) s -> exists s1 s2, s = s1 ++ s2 /\ Matches a s1 /\ Matches b s2.
Proof.
  intros H. remember (Seq a b) as r eqn:Er.
  destruct H; try discriminate. injection Er as -> ->. now exists s1, s2.
Qed.

Lemma alt_inv a b s : Matches (Alt a b) s -> Matches a s \/ Matches b s.
Proof.
  intros H. remember (Alt a b) as r eqn:Er.
  destruct H; try discriminate; injection Er as -> ->; tauto.
Qed.

Lemma class_inv p s : Matches (Class p) s -> exists c, s = String c "" /\ p c = true.
Proof.
  intros H. remember (Class p) as r eqn:Er.
  destruct H; try discriminate. injection Er as ->. now exists c.
Qed.

Lemma eps_inv s : Matches Eps s -> s = "".
Proof.
  intros H. remember Eps as r eqn:Er. destruct H; try discriminate. reflexivity.
Qed.

Lemma empty_inv s : ~ Matches Empty s.
Proof.
  intros H. remember Empty as r eqn:Er. destruct H; discriminate.
Qed.

Lemma nullable_matches r : nullable r = true <-> Matches r "".
Proof.
  induction r as [| |p|a IHa b IHb|a IHa b IHb|a IHa]; simpl.
  - split; [discriminate | intros H; now apply empty_inv in H].
  - split; [constructor | reflexivity].
  - split; [discriminate|]. intros H. apply class_inv in H.
    destruct H as (c & E & _). discriminate.
  - rewrite andb_true_iff, IHa, IHb. split.
    + intros [Ha Hb]. exact (matches_seq a b "" "" Ha Hb).
    + intros H. apply seq_inv in H. destruct H as (s1 & s2 & E & H1 & H2).
      destruct s1; [|discriminate]. simpl in E. subst. now split.
  - rewrite orb_true_iff, IHa, IHb. split.
    + intros [H|H]; [now apply matches_alt_l | now apply matches_alt_r].
    + apply alt_inv.
  - split; [constructor | reflexivity].
Qed.

(** A match of [Star a] that starts with [c] starts with a match of [a]
    that starts with [c]. *)
Lemma star_cons a s : Matches (Star a) s ->
  forall c s', s = String c s' ->
  exists s1 s2, s' = s1 ++ s2 /\ Matches a (String c s1) /\ Matches (Star a) s2.
Proof.
  intros H. remember (Star a) as r eqn:Er.
  induction H as [| | | | | |a' s1 s2 H1 _ H2 IH2]; try discriminate.
  injection Er as ->. intros c s' E.
  destruct s1 as [|d s1].
  - simpl in E. exact (IH2 eq_refl c s' E).
  - simpl in E. injection E as -> <-. now exists s1, s2.
Qed.

Lemma deriv_matches r : forall c s, Matches (deriv c r) s <-> Matches r (String c s).
Proof.
  induction r as [| |p|a IHa b IHb|a IHa b IHb|a IHa]; intros c s; simpl.
  - split; intros H; now apply empty_inv in H.
  - split; intros H; [now apply empty_inv in H | apply eps_inv in H; discriminate].
  - destruct (p c) eqn:E; split; intros H.
    + apply eps_inv in H. subst. now constructor.
    + apply class_inv in H. destruct H as (d & [= <- ->] & _). constructor.
    + now apply empty_inv in H.
    + apply class_inv in H. destruct H as (d & [= <- ->] & Hd). congruence.
  - assert (Hseq : Matches (Seq (deriv c a) b) s
                   <-> exists s1 s2, s = s1 ++ s2 /\ Matches a (String c s1) /\ Matches b s2).
    { split.
      - intros H. apply seq_inv in H. destruct H as (s1 & s2 & -> & H1 & H2).
        exists s1, s2. repeat split; [now apply IHa | exact H2].
      - intros (s1 & s2 & -> & H1 & H2). constructor; [now apply IHa | exact H2]. }
    assert (Hgoal : Matches (Seq a b) (String c s)
                    <-> (exists s1 s2, s = s1 ++ s2 /\ Matches a (String c s1) /\ Matches b s2)
                        \/ (Matches a "" /\ Matches b (String c s))).
    { split.
      - intros H. apply seq_inv in H. destruct H as (s1 & s2 & E & H1 & H2).
        destruct s1 as [|d s1]; simpl in E.
        + right. subst. now split.
        + injection E as <- ->. left. now exists s1, s2.
      - intros [(s1 & s2 & -> & H1 & H2) | [H1 H2]].
        + exact (matches_seq a b (String c s1) s2 H1 H2).
        + exact (matches_seq a b "" (String c s) H1 H2). }
    rewrite Hgoal. destruct (nullable a) eqn:Na.
    + split.
      * intros H. apply alt_inv in H. destruct H as [H|H].
        -- left. now apply Hseq.
        -- right. split; [now apply nullable_matches | now apply IHb].
      * intros [H | [H1 H2]].
        -- apply matches_alt_l. now apply Hseq.
        -- apply matches_alt_r. now apply IHb.
    + rewrite Hseq. split; [tauto|]. intros [H | [H1 _]]; [exact H|].
      apply nullable_matches in H1. congruence.
  - split; intros H.
    + apply alt_inv in H. destruct H as [H|H].
      * apply matches_alt_l. now apply IHa.
      * apply matches_alt_r. now apply IHb.
    + apply alt_inv in H. destruct H as [H|H].
      * apply matches_alt_l. now apply IHa.
      * apply matches_alt_r. now apply IHb.
  - split.
    + intros H. apply seq_inv in H. destruct H as (s1 & s2 & -> & H1 & H2).
      exact (matches_star_more a (String c s1) s2 (proj1 (IHa c s1) H1) H2).
    + intros H. destruct (star_cons a _ H c s eq_refl) as (s1 & s2 & -> & H1 & H2).
      constructor; [now apply IHa | exact H2].
Qed.

Lemma test_matches s : forall r, test r s = true <-> Matches r s.
Proof.
  induction s as [|c s IH]; intros r; simpl.
  - apply nullable_matches.
  - rewrite IH. apply deriv_matches.
Qed.

Lemma matches_star_class p s : Matches (Star (Class p)) s <-> allChars p s = true.
Proof.
  split.
  - intros H. remember (Star (Class p)) as r eqn:Er.
    induction H as [| | | | | |a s1 s2 H1 _ H2 IH2]; try discriminate; [reflexivity|].
    injection Er as ->. apply class_inv in H1. destruct H1 as (c & -> & Hc). simpl.
    now rewrite (IH2 eq_refl), Hc.
  - induction s as [|c s IH]; [constructor|]. simpl. intros H.
    apply andb_true_iff in H. destruct H as [Hc Hs].
    exact (matches_star_more (Class p) (String c "") s (matches_class p c Hc) (IH Hs)).
Qed.

Lemma matches_plus_class p s :
  Matches (Plus (Class p)) s <-> s <> "" /\ allChars p s = true.
Proof.
  unfold Plus. split.
  - intros H. apply seq_inv in H. destruct H as (s1 & s2 & -> & H1 & H2).
    apply class_inv in H1. destruct H1 as (c & -> & Hc).
    apply matches_star_class in H2. simpl.
    split; [discriminate | now rewrite H2, Hc].
  - intros [Hne H]. destruct s as [|c s]; [congruence|]. simpl in H.
    apply andb_true_iff in H. destruct H as [Hc Hs].
    exact (matches_seq _ _ (String c "") s (matches_class p c Hc)
             (proj2 (matches_star_class p s) Hs)).
Qed.

Lemma matches_chr c s : Matches (Chr c) s <-> s = String c "".
Proof.
  unfold Chr. split.
  - intros H. apply class_inv in H. destruct H as (d & -> & E).
    apply Ascii.eqb_eq in E. now subst.
  - intros ->. constructor. apply Ascii.eqb_refl.
Qed.

End RegexFacts.

(** ** isValidEmail *)

Module EmailFacts.
Import Validator Regex RegexFacts.

Lemma matches_email s :
  Matches emailPattern s
  <-> exists l a b,
        s = l ++ "@" ++ a ++ "." ++ b
        /\ (l <> "" /\ allChars notSpaceNorAt l = true)
        /\ (a <> "" /\ allChars notSpaceNorAt a = true)
        /\ (b <> "" /\ allChars notSpaceNorAt b = true).
Proof.
  unfold emailPattern. split.
  - intros H.
    apply seq_inv in H. destruct H as (l & r1 & -> & Hl & H).
    apply seq_inv in H. destruct H as (at_ & r2 & -> & Hat & H).
    apply seq_inv in H. destruct H as (a & r3 & -> & Ha & H).
    apply seq_inv in H. destruct H as (dot & b & -> & Hdot & Hb).
    apply matches_chr in Hat, Hdot. subst.
    apply matches_plus_class in Hl, Ha, Hb.
    now exists l, a, b.
  - intros (l & a & b & -> & Hl & Ha & Hb).
    apply matches_plus_class in Hl, Ha, Hb.
    apply matches_seq; [exact Hl|].
    apply (matches_seq _ _ "@"); [now apply matches_chr|].
    apply matches_seq; [exact Ha|].
    apply (matches_seq _ _ "."); [now apply matches_chr|].
    exact Hb.
Qed.

End EmailFacts.

(** X6.  [isValidEmail] accepts exactly the strings [local@domain.tld]
    whose three parts are not empty and hold neither white space nor
    ['@'] (the domain and the last part may hold further dots); a value
    that is not a string is refused. *)
Theorem isValidEmail_accepts_exactly (email : JsValue) :
  Validator.isValidEmail email = true
  <-> exists local domain tld,
        email = JStr (local ++ "@" ++ domain ++ "." ++ tld)
        /\ (local <> "" /\ allChars Validator.notSpaceNorAt local = true)
        /\ (domain <> "" /\ allChars Validator.notSpaceNorAt domain = true)
        /\ (tld <> "" /\ allChars Validator.notSpaceNorAt tld = true).
Proof.
  split.
  - destruct email as [| | | |s]; try discriminate. cbn [Validator.isValidEmail].
    destruct (negb (nonEmpty (trim s))); [discriminate|].
    intros H. apply RegexFacts.test_matches, EmailFacts.matches_email in H.
    destruct H as (l & a & b & -> & H). now exists l, a, b.
  - intros (l & a & b & -> & Hl & Ha & Hb). cbn [Validator.isValidEmail].
    assert (Hne : nonEmpty (trim (l ++ "@" ++ a ++ "." ++ b)) = true).
    { rewrite TrimFacts.trim_nonEmpty, TrimFacts.allChars_append.
      destruct Hl as [Hl Hc]. destruct l as [|c l]; [congruence|].
      simpl in Hc |- *. apply andb_true_iff in Hc. destruct Hc as [Hc _].
      unfold Validator.notSpaceNorAt in Hc. apply negb_true_iff, orb_false_iff in Hc.
      destruct Hc as [-> _]. reflexivity. }
    rewrite Hne. cbn [negb].
    apply RegexFacts.test_matches, EmailFacts.matches_email. now exists l, a, b.
Qed.

(** ** createElement *)

Module ElementFacts.
Import XmlHelper Regex RegexFacts.

Lemma isValidXmlTagName_iff name :
  isValidXmlTagName name = true
  <-> exists c rest, name = String c rest
                     /\ isNameStart c = true /\ allChars isNameChar rest = true.
Proof.
  unfold isValidXmlTagName, xmlNamePattern. rewrite test_matches. split.
  - intros H. apply seq_inv in H. destruct H as (s1 & s2 & -> & H1 & H2).
    apply class_inv in H1. destruct H1 as (c & -> & Hc).
    apply matches_star_class in H2. now exists c, s2.
  - intros (c & rest & -> & Hc & Hr).
    exact (matches_seq _ _ (String c "") rest (matches_class _ c Hc)
             (proj2 (matches_star_class _ rest) Hr)).
Qed.

Lemma isNameChar_plain c :
  isNameChar c = true ->
  Ascii.eqb c "<" = false /\ Ascii.eqb c ">" = false /\ Ascii.eqb c quote = false.
Proof.
  destruct c as [[] [] [] [] [] [] [] []]; try discriminate; intros _; repeat split.
Qed.

Lemma isNameStart_isNameChar c : isNameStart c = true -> isNameChar c = true.
Proof.
  destruct c as [[] [] [] [] [] [] [] []]; try discriminate; reflexivity.
Qed.

Lemma countChar_append c a b : countChar c (a ++ b) = (countChar c a + countChar c b)%nat.
Proof. induction a as [|x a IH]; simpl; [reflexivity | rewrite IH; lia]. Qed.

Lemma lacks_countChar c s : lacks c s = true -> countChar c s = 0%nat.
Proof.
  unfold lacks. induction s as [|x s IH]; [reflexivity|]. simpl. intros H.
  apply andb_true_iff in H. destruct H as [Hx Hs]. apply negb_true_iff in Hx.
  rewrite Hx, (IH Hs). reflexivity.
Qed.

Lemma validName_isPlainName name : isValidXmlTagName name = true -> isPlainName name = true.
Proof.
  rewrite isValidXmlTagName_iff. intros (c & rest & -> & Hc & Hr).
  assert (H : allChars isNameChar (String c rest) = true).
  { simpl. now rewrite (isNameStart_isNameChar c Hc), Hr. }
  clear Hc Hr. unfold isPlainName, lacks.
  induction (String c rest) as [|x s IH]; [reflexivity|]. simpl in H |- *.
  apply andb_true_iff in H. destruct H as [Hx Hs].
  destruct (isNameChar_plain x Hx) as (-> & -> & ->). simpl.
  exact (IH Hs).
Qed.

Lemma attribute_counts kv :
  isPlainName (fst kv) = true ->
  countChar "<" (attribute kv) = 0%nat /\ countChar ">" (attribute kv) = 0%nat
  /\ countChar quote (attribute kv) = 2%nat.
Proof.
  destruct kv as [key value]. unfold isPlainName. cbn [fst attribute]. intros H.
  apply andb_true_iff in H. destruct H as [H Hq].
  apply andb_true_iff in H. destruct H as [Hl Hg].
  rewrite !countChar_append.
  rewrite (lacks_countChar _ _ Hl), (lacks_countChar _ _ Hg), (lacks_countChar _ _ Hq).
  rewrite !(lacks_countChar _ (escapeXml value))
    by (apply EscapeFacts.escapeXml_lacks; simpl; tauto).
  repeat split.
Qed.

Lemma join_counts c (xs : list string) (n : nat) :
  Ascii.eqb " " c = false ->
  Forall (fun x => countChar c x = n) xs ->
  countChar c (join " " xs) = (n * List.length xs)%nat.
Proof.
  intros Hc H. unfold join. induction H as [|x xs Hx Hxs IH]; [simpl; lia|].
  destruct xs as [|y ys].
  - simpl. lia.
  - change (String.concat " " (x :: y :: ys))
      with (x ++ " " ++ String.concat " " (y :: ys)).
    rewrite !countChar_append, IH, Hx. cbn [countChar]. rewrite Hc.
    cbn [List.length]. lia.
Qed.

End ElementFacts.

(** X7.  [createElement] throws, with the message that names the tag,
    exactly when the tag name is not a letter or an underscore followed by
    letters, digits, underscores, dots and hyphens; the content, the
    attributes and the escape flag play no part in that. *)
Theorem createElement_throws_exactly_on_invalid_names
  (tagName content : string) (attributes : list (string * string)) (escapeContent : bool) :
  (XmlHelper.isValidXmlTagName tagName = true
   <-> exists c rest, tagName = String c rest
                      /\ XmlHelper.isNameStart c = true
                      /\ allChars XmlHelper.isNameChar rest = true)
  /\ (if XmlHelper.isValidXmlTagName tagName
      then exists s, XmlHelper.createElement tagName content attributes escapeContent
                     = Returned s
      else XmlHelper.createElement tagName content attributes escapeContent
           = Thrown (Error ("Invalid XML tag name: " ++ tagName))).
Proof.
  split; [apply ElementFacts.isValidXmlTagName_iff|].
  unfold XmlHelper.createElement.
  destruct (XmlHelper.isValidXmlTagName tagName); cbn [negb]; [|reflexivity].
  destruct (negb (nonEmpty content)); eexists; reflexivity.
Qed.

(** X8.  With escaping on, a valid tag name and attribute names that hold
    no ['<'], ['>'] or double quote, the element that [createElement]
    returns has one ['<'] and one ['>'] if the content is empty and two of
    each otherwise, and two double quotes for each attribute: neither the
    content nor an attribute value can open a tag, close one or end a
    quoted value. *)
Theorem createElement_escapes_content_and_values
  (tagName content : string) (attributes : list (string * string)) :
  XmlHelper.isValidXmlTagName tagName = true ->
  Forall (fun kv => isPlainName (fst kv) = true) attributes ->
  exists s,
    XmlHelper.createElement tagName content attributes true = Returned s
    /\ countChar "<" s = (if nonEmpty content then 2 else 1)%nat
    /\ countChar ">" s = (if nonEmpty content then 2 else 1)%nat
    /\ countChar quote s = (2 * List.length attributes)%nat.
Proof.
  intros Hname Hkeys. unfold XmlHelper.createElement. rewrite Hname. cbn [negb].
  change (map _ attributes) with (map attribute attributes).
  set (attrs := join " " (map attribute attributes)).
  assert (Hcount : forall c n,
             Ascii.eqb " " c = false ->
             (forall kv, isPlainName (fst kv) = true ->
                         countChar c (attribute kv) = n) ->
             countChar c (if nonEmpty attrs then " " ++ attrs else "")
             = (n * List.length attributes)%nat).
  { intros c n Hc Hn.
    assert (E : countChar c attrs = (n * List.length attributes)%nat).
    { unfold attrs. rewrite (ElementFacts.join_counts c _ n Hc).
      - now rewrite length_map.
      - apply Forall_map. revert Hkeys. apply Forall_impl. exact Hn. }
    destruct (nonEmpty attrs) eqn:Ne.
    - change (" " ++ attrs) with (String " " attrs). cbn [countChar]. now rewrite Hc.
    - destruct attrs; [|discriminate]. exact E. }
  pose proof (Hcount "<"%char 0%nat eq_refl
                (fun kv H => proj1 (ElementFacts.attribute_counts kv H))) as Hlt.
  pose proof (Hcount ">"%char 0%nat eq_refl
                (fun kv H => proj1 (proj2 (ElementFacts.attribute_counts kv H)))) as Hgt.
  pose proof (Hcount quote 2%nat eq_refl
                (fun kv H => proj2 (proj2 (ElementFacts.attribute_counts kv H)))) as Hq.
  apply ElementFacts.validName_isPlainName in Hname. unfold isPlainName in Hname.
  apply andb_true_iff in Hname. destruct Hname as [Hname Nq].
  apply andb_true_iff in Hname. destruct Hname as [Nl Ng].
  apply ElementFacts.lacks_countChar in Nl, Ng, Nq.
  assert (El : countChar "<" (XmlHelper.escapeXml content) = 0%nat)
    by (apply ElementFacts.lacks_countChar, EscapeFacts.escapeXml_lacks; simpl; tauto).
  assert (Eg : countChar ">" (XmlHelper.escapeXml content) = 0%nat)
    by (apply ElementFacts.lacks_countChar, EscapeFacts.escapeXml_lacks; simpl; tauto).
  assert (Eq : countChar quote (XmlHelper.escapeXml content) = 0%nat)
    by (apply ElementFacts.lacks_countChar, EscapeFacts.escapeXml_lacks; simpl; tauto).
  destruct (nonEmpty content); cbn [negb]; eexists; (split; [reflexivity|]);
    rewrite !ElementFacts.countChar_append, ?Hlt, ?Hgt, ?Hq, ?Nl, ?Ng, ?Nq, ?El, ?Eg, ?Eq;
    repeat split; cbn; lia.
Qed.

(** The theorem at an anchor with a quoted title. *)
Lemma createElement_escapes_witness :
  XmlHelper.isValidXmlTagName "a" = true
  /\ Forall (fun kv => isPlainName (fst kv) = true)
            [("href", "https://ex.com/?a=1&b=2"); ("title", dq ++ ">") ]
  /\ exists s,
       XmlHelper.createElement "a" "1 < 2"
         [("href", "https://ex.com/?a=1&b=2"); ("title", dq ++ ">") ] true = Returned s
       /\ countChar "<" s = 2%nat /\ countChar ">" s = 2%nat /\ countChar quote s = 4%nat.
Proof.
  assert (Hn : XmlHelper.isValidXmlTagName "a" = true) by reflexivity.
  assert (Hk : Forall (fun kv => isPlainName (fst kv) = true)
                 [("href", "https://ex.com/?a=1&b=2"); ("title", dq ++ ">") ])
    by (repeat constructor).
  split; [exact Hn|]. split; [exact Hk|].
  exact (createElement_escapes_content_and_values "a" "1 < 2" _ Hn Hk).
Defined.

(** ** formatXml *)

Module PrettyFacts.
Import XmlHelper TrimFacts.

Lemma lacks_split c a b : lacks c (a ++ b) = true -> lacks c a = true /\ lacks c b = true.
Proof. rewrite EscapeFacts.lacks_append. apply andb_true_iff. Qed.

(** The tokens, put together again, are the document. *)
Lemma splitTags_flat xml : forall text tag,
  fold_right append "" (splitTags xml text tag)
  = text ++ match tag with Some t => t | None => "" end ++ xml.
Proof.
  induction xml as [|c xml IH]; intros text [t|]; cbn [splitTags].
  - simpl. now rewrite !append_nil_r.
  - simpl. now rewrite !append_nil_r.
  - destruct (Ascii.eqb_spec c ">") as [->|N].
    + cbn [fold_right]. rewrite IH. simpl. now rewrite !append_assoc.
    + rewrite IH. rewrite !append_assoc. reflexivity.
  - destruct (Ascii.eqb_spec c "<") as [->|N].
    + rewrite IH. reflexivity.
    + rewrite IH. simpl. now rewrite !append_assoc.
Qed.

(** Text without ['<'] is taken into the text that is being read. *)
Lemma splitTags_text lead : forall text xml,
  lacks "<" lead = true ->
  splitTags (lead ++ xml) text None = splitTags xml (text ++ lead) None.
Proof.
  induction lead as [|c lead IH]; intros text xml H.
  - now rewrite append_nil_r.
  - unfold lacks in H. cbn [allChars] in H. apply andb_true_iff in H.
    destruct H as [Hc Hl]. apply negb_true_iff in Hc.
    change (String c lead ++ xml) with (String c (lead ++ xml)).
    cbn [splitTags]. rewrite Hc, (IH _ _ Hl), append_assoc. reflexivity.
Qed.



Lemma trimEnd_clean_end u c : isWhiteSpace c = false ->
  trimEnd (u ++ String c "") = u ++ String c "".
Proof.
  intros Hc. induction u as [|a u IH]; cbn [append trimEnd].
  - now rewrite Hc.
  - rewrite IH. destruct u; reflexivity.
Qed.

(** A tag trims to itself. *)
Lemma trim_tag body : trim ("<" ++ body ++ ">") = "<" ++ body ++ ">".
Proof.
  unfold trim. rewrite trimStart_clean by reflexivity.
  change ("<" ++ body ++ ">") with ((String "<" body) ++ ">").
  now apply trimEnd_clean_end.
Qed.

Lemma white_repeat indent n :
  allChars isWhiteSpace indent = true -> allChars isWhiteSpace (Js.repeat indent n) = true.
Proof.
  intros H. induction n as [|n IH]; [reflexivity|]. simpl.
  now rewrite allChars_append, H, IH.
Qed.

(** What a turn of the loop appends: an indentation or nothing, the
    token, and a line feed or nothing. *)
Lemma formatStep_shape indent tokens i r l r' l' :
  formatStep indent tokens i (r, l) = Returned (r', l') ->
  exists pad tail,
    r' = r ++ pad ++ tokenAt tokens i ++ tail
    /\ (pad = "" \/ exists n, pad = Js.repeat indent n)
    /\ (tail = "" \/ tail = nl).
Proof.
  unfold formatStep, repeatIndent.
  destruct (nonEmpty (tokenAt tokens i)) eqn:Ne; cbn [negb].
  2:{ intros [= <- <-]. exists "", "". destruct (tokenAt tokens i); [|discriminate].
      rewrite append_nil_r. tauto. }
  repeat match goal with
         | |- context [if ?c then _ else _] => destruct c
         | |- context [match ?x with O => _ | S _ => _ end] => destruct x
         end;
    intros H; inversion H; subst; clear H;
    rewrite ?append_assoc;
    first [ exists "", ""; rewrite ?append_nil_r; split; [reflexivity | tauto]
          | exists "", nl; split; [reflexivity | tauto]
          | eexists (Js.repeat indent _), ""; rewrite ?append_nil_r;
            split; [reflexivity | split; [right; eexists; reflexivity | tauto]]
          | eexists (Js.repeat indent _), nl;
            split; [reflexivity | split; [right; eexists; reflexivity | tauto]] ].
Qed.

Lemma formatStep_nonwhite indent tokens i r l r' l' :
  allChars isWhiteSpace indent = true ->
  formatStep indent tokens i (r, l) = Returned (r', l') ->
  withoutWhiteSpace r' = withoutWhiteSpace r ++ withoutWhiteSpace (nth i tokens "").
Proof.
  intros Hi H. apply formatStep_shape in H.
  destruct H as (pad & tail & -> & Hpad & Htail).
  rewrite !withoutWhiteSpace_append. unfold tokenAt. rewrite withoutWhiteSpace_trim.
  assert (Ep : withoutWhiteSpace pad = "").
  { destruct Hpad as [->|(n & ->)]; [reflexivity|].
    apply withoutWhiteSpace_white. now apply white_repeat. }
  assert (Et : withoutWhiteSpace tail = "") by (destruct Htail as [->| ->]; reflexivity).
  rewrite Ep, Et. simpl. now rewrite append_nil_r.
Qed.

Lemma skipn_nth (tokens : list string) i :
  (i < List.length tokens)%nat ->
  skipn i tokens = nth i tokens "" :: skipn (S i) tokens.
Proof.
  revert i. induction tokens as [|t ts IH]; intros i H; [simpl in H; lia|].
  destruct i as [|i]; [reflexivity|]. simpl in H.
  change (skipn (S i) (t :: ts)) with (skipn i ts). rewrite (IH i) by lia. reflexivity.
Qed.

Lemma formatLoop_nonwhite indent tokens n : forall i r l r' l',
  allChars isWhiteSpace indent = true ->
  (i + n = List.length tokens)%nat ->
  formatLoop indent tokens n i (r, l) = Returned (r', l') ->
  withoutWhiteSpace r'
  = withoutWhiteSpace r ++ withoutWhiteSpace (fold_right append "" (skipn i tokens)).
Proof.
  induction n as [|n IH]; intros i r l r' l' Hi Hn H; cbn [formatLoop] in H.
  - injection H as <- <-. rewrite skipn_all2 by lia. simpl. now rewrite append_nil_r.
  - destruct (formatStep indent tokens i (r, l)) as [[r1 l1]|e] eqn:E; [|discriminate].
    apply (formatStep_nonwhite _ _ _ _ _ _ _ Hi) in E.
    apply IH in H; [|exact Hi|lia].
    rewrite H, E, (skipn_nth tokens i) by lia.
    cbn [fold_right]. now rewrite withoutWhiteSpace_append, append_assoc.
Qed.

Lemma lacks_startsWith_lt p s :
  lacks "<" s = true -> startsWith (String "<" p) s = false.
Proof.
  intros H. destruct (startsWith (String "<" p) s) eqn:E; [|reflexivity].
  apply UrlFacts.startsWith_split in E. destruct E as (r & ->).
  discriminate.
Qed.

Lemma lacks_trim c s : lacks c s = true -> lacks c (trim s) = true.
Proof.
  intros H. destruct (trim_split s) as (a & b & E & _). rewrite E in H.
  apply lacks_split in H. destruct H as [_ H]. apply lacks_split in H. tauto.
Qed.

(** A document without ['<'] is one token, and the loop leaves the
    token, trimmed, and a line feed. *)
Lemma formatXml_text s indent :
  lacks "<" s = true -> formatXml s indent = Returned (trim s).
Proof.
  intros H. unfold formatXml.
  replace s with (s ++ "") at 1 2 by apply append_nil_r.
  rewrite (splitTags_text s "" "" H). cbn [splitTags List.length formatLoop append].
  unfold formatStep, tokenAt. cbn [nth].
  pose proof (lacks_trim _ _ H) as Ht.
  destruct (nonEmpty (trim s)) eqn:Ne; cbn [negb].
  2:{ destruct (trim s); [reflexivity|discriminate]. }
  rewrite !(lacks_startsWith_lt _ _ Ht). cbn [andb].
  change (nth (0 + 1) [s] "") with "". change (trim "") with "".
  change (startsWith "</" "") with false. cbv iota.
  unfold repeatIndent. change (0 <? 0)%Z with false. cbv iota.
  change (Js.repeat indent (Z.to_nat 0)) with "".
  destruct (endsWith "/>" (trim s));
    exact (f_equal Returned (trim_trimmed_append s nl eq_refl)).
Qed.


End PrettyFacts.

(** X9.  With an indentation of white space, what [formatXml] returns
    differs from the document in white space only: without their white
    space the two are the same string; and the result has no white space
    at either end. *)
Theorem formatXml_changes_white_space_only (xml indent out : string) :
  allChars isWhiteSpace indent = true ->
  XmlHelper.formatXml xml indent = Returned out ->
  withoutWhiteSpace out = withoutWhiteSpace xml /\ trim out = out.
Proof.
  intros Hi. unfold XmlHelper.formatXml.
  destruct (XmlHelper.formatLoop _ _ _ _ _) as [[r l]|e] eqn:E; [|discriminate].
  intros [= <-]. split; [|apply TrimFacts.trim_idem].
  apply PrettyFacts.formatLoop_nonwhite in E; [|exact Hi|reflexivity].
  rewrite TrimFacts.withoutWhiteSpace_trim, E. simpl.
  now rewrite PrettyFacts.splitTags_flat.
Qed.

(** The theorem at a small document. *)
Lemma formatXml_changes_white_space_only_witness :
  allChars isWhiteSpace "  " = true
  /\ XmlHelper.formatXml "<a> <b>x y</b><c/></a>" "  "
     = Returned ("<a>" ++ nl ++ "  <b>x y</b>" ++ nl ++ "  <c/>" ++ nl ++ "</a>")
  /\ withoutWhiteSpace ("<a>" ++ nl ++ "  <b>x y</b>" ++ nl ++ "  <c/>" ++ nl ++ "</a>")
     = withoutWhiteSpace "<a> <b>x y</b><c/></a>".
Proof.
  assert (Hi : allChars isWhiteSpace "  " = true) by reflexivity.
  assert (Hf : XmlHelper.formatXml "<a> <b>x y</b><c/></a>" "  "
               = Returned ("<a>" ++ nl ++ "  <b>x y</b>" ++ nl ++ "  <c/>" ++ nl ++ "</a>"))
    by reflexivity.
  split; [exact Hi|]. split; [exact Hf|].
  exact (proj1 (formatXml_changes_white_space_only _ _ _ Hi Hf)).
Defined.

(** X10.  A document without any ['<'] is returned trimmed and is not
    changed otherwise, whatever the indentation. *)
Theorem formatXml_trims_plain_text (text indent : string) :
  lacks "<" text = true ->
  XmlHelper.formatXml text indent = Returned (trim text).
Proof. apply PrettyFacts.formatXml_text. Qed.

(** The theorem at a line of text. *)
Lemma formatXml_trims_plain_text_witness :
  lacks "<" "  a > b  " = true
  /\ XmlHelper.formatXml "  a > b  " "  " = Returned "a > b".
Proof.
  split; [reflexivity|].
  exact (formatXml_trims_plain_text "  a > b  " "  " eq_refl).
Defined.



(** ** Feed.validate *)

Module FeedValidateFacts.
Import Validator ItemValidator Feed FeedRules.

Lemma fold_push {A B} (g : A -> B) (l : list A) : forall acc,
  fold_left (fun errors error => (errors ++ [g error])%list) l acc
  = (acc ++ map g l)%list.
Proof.
  induction l as [|x l IH]; intros acc; simpl; [now rewrite app_nil_r|].
  now rewrite IH, <- app_assoc.
Qed.

Lemma validate_violations w :
  validate w = (Returned (feedViolations (this w) ++ itemViolations (this w))%list, w).
Proof.
  unfold validate, bind, getThis, ret. f_equal. f_equal.
  unfold feedViolations, itemViolations, feedRule. cbv zeta.
  rewrite (ValidatorFacts.forEachIndexed_rule _
             (fun index item =>
                map (atItem index)
                    (validateFeedItem (FeedItem.data item)
                       (Config.allowedDomains (config (this w))))))
    by (intros x i errors; apply fold_push).
  destruct (nonEmpty (trim (title (this w))));
    destruct (nonEmpty (trim (description (this w))));
    destruct (nonEmpty (trim (link (this w)))); reflexivity.
Qed.

Lemma itemsValid_no_violations f : itemsValid f -> itemViolations f = [].
Proof.
  unfold itemsValid, itemViolations.
  generalize (Config.allowedDomains (config f)) as ad. generalize 0%nat as i.
  induction (items f) as [|x xs IH]; intros i ad H; [reflexivity|].
  inversion H as [|? ? Hx Hxs]; subst. cbn [List.length seq combine flat_map].
  rewrite Hx, (IH (S i) ad Hxs). reflexivity.
Qed.

Lemma strict_addItem d w : strict w -> strict (snd (addItem d w)).
Proof.
  intros (Hv & Hb & Hi).
  destruct (validateFeedItem d (Config.allowedDomains (config (this w)))) as [|e es] eqn:E.
  - rewrite AddItemFacts.addItem_accepts by now right.
    split; [exact Hv|]. split; [exact Hb|].
    unfold itemsValid, Insertion.inserted. cbn [snd this items withItems withLastBuildDate config].
    apply Forall_app. split; [exact Hi|]. constructor; [|constructor].
    unfold processItemData. rewrite Hb. exact E.
  - rewrite AddItemFacts.addItem_rejects; [now split|exact Hv|].
    rewrite E. discriminate.
Qed.

Lemma strict_addItems ds : forall w, strict w -> strict (snd (addItems ds w)).
Proof.
  induction ds as [|d ds IH]; intros w H; [exact H|].
  rewrite AddItemsFacts.addItems_cons.
  pose proof (strict_addItem d w H) as Hd.
  destruct (addItem d w) as [[[]|e] w1]; [now apply IH | exact Hd].
Qed.

Lemma strict_run c w : strict w -> strict (snd (Calls.run c w)).
Proof.
  intros H. destruct c; try exact H.
  - now apply strict_addItem.
  - now apply strict_addItems.
  - destruct H as (Hv & Hb & Hi). split; [exact Hv|]. split; [exact Hb|].
    unfold itemsValid in *. cbn. apply Forall_forall. intros x Hx.
    apply filter_In in Hx. rewrite Forall_forall in Hi. now apply Hi.
  - destruct H as (Hv & Hb & Hi). split; [exact Hv|]. split; [exact Hb|]. constructor.
Qed.

Lemma strict_after cs : forall w, strict w -> strict (Calls.after cs w).
Proof.
  induction cs as [|c cs IH]; intros w H; [exact H|].
  simpl. apply IH. now apply strict_run.
Qed.

End FeedValidateFacts.

(** X12.  [validate] returns, leaving the feed as it is and reading no
    clock, the violations of the feed itself (a blank title, description
    or link, in this order) followed by the violations of every item in
    item order, each as [validateFeedItem] reports it but with
    [items[i].] before the field name. *)
Theorem validate_reports_feed_then_items (w : World Feed.t) :
  Feed.validate w
  = (Returned (FeedRules.feedViolations (this w)
               ++ FeedRules.itemViolations (this w))%list, w).
Proof. apply FeedValidateFacts.validate_violations. Qed.

(** X13.  A feed made with [validate: true] and no base URL holds only
    items that pass the item validator, whatever was called on it since
    (setters, [addItem], [addItems], [removeItems], [clear], returning or
    throwing): [validate] reports nothing but the violations of the feed
    itself. *)
Theorem validating_feed_holds_only_valid_items
  (config : FeedConfig.t) (h : Host.t) (n : nat) (cs : list Calls.Call) :
  FeedConfig.validate config = Some true ->
  orString (FeedConfig.baseUrl config) "" = "" ->
  let w := Calls.after cs (Calls.fresh config h n) in
  Feed.validate w = (Returned (FeedRules.feedViolations (this w)), w).
Proof.
  intros Hv Hb w.
  assert (H : FeedRules.strict w).
  { apply FeedValidateFacts.strict_after. unfold FeedRules.strict, Calls.fresh.
    cbn [this Feed.make Feed.config Feed.effectiveConfig Config.validate Config.baseUrl].
    rewrite Hv, Hb. repeat split. constructor. }
  rewrite FeedValidateFacts.validate_violations.
  destruct H as (_ & _ & Hi).
  now rewrite (FeedValidateFacts.itemsValid_no_violations _ Hi), app_nil_r.
Qed.

(** The theorem at a validating feed on which a valid item was added, an
    invalid one refused and the title set. *)
Lemma validating_feed_witness :
  FeedConfig.validate Sample.validating = Some true
  /\ orString (FeedConfig.baseUrl Sample.validating) "" = ""
  /\ fst (Feed.validate
            (Calls.after [Calls.AddItem (Sample.plainItem "A" "https://ex.com/a");
                          Calls.AddItem Rules.scenarioItem;
                          Calls.SetTitle "T"]
               (Calls.fresh Sample.validating Sample.host 0)))
     = Returned [ Validator.mkError "description" "required"
                    "Feed description is required" (JStr "");
                  Validator.mkError "link" "required" "Feed link is required" (JStr "") ].
Proof.
  split; [reflexivity|]. split; [reflexivity|].
  exact (f_equal fst
           (validating_feed_holds_only_valid_items Sample.validating Sample.host 0
              [Calls.AddItem (Sample.plainItem "A" "https://ex.com/a");
               Calls.AddItem Rules.scenarioItem;
               Calls.SetTitle "T"]
              eq_refl eq_refl)).
Defined.

(** ** removeItems and clear *)

(** X14.  [removeItems] keeps exactly the items for which the predicate is
    false, in their order; removing by one predicate and then by another
    leaves the items that removing by either would; and removing every
    item is [clear]. *)
Theorem removeItems_keeps_what_the_predicate_refuses
  (w : World Feed.t) (p q : FeedItem.t -> bool) :
  Feed.items (this (snd (Feed.removeItems p w)))
  = filter (fun item => negb (p item)) (Feed.items (this w))
  /\ (forall item,
        In item (Feed.items (this (snd (Feed.removeItems p w))))
        <-> In item (Feed.items (this w)) /\ p item = false)
  /\ Feed.items (this (snd ((Feed.removeItems p ;;; Feed.removeItems q) w)))
     = Feed.items (this (snd (Feed.removeItems (fun item => p item || q item) w)))
  /\ Feed.removeItems (fun _ => true) w = Feed.clear w.
Proof.
  repeat split.
  - cbn in H. apply filter_In in H. tauto.
  - cbn in H. apply filter_In in H. destruct H as [_ H]. now apply negb_true_iff.
  - intros [Hin Hp]. cbn. apply filter_In. split; [exact Hin | now rewrite Hp].
  - cbn. induction (Feed.items (this w)) as [|x xs IH]; [reflexivity|]. simpl.
    destruct (p x); simpl; [exact IH|]. destruct (q x); simpl; [exact IH | now rewrite IH].
  - unfold Feed.removeItems, Feed.clear, Feed.assign, bind, getThis, setThis. cbn.
    replace (filter (fun _ : FeedItem.t => false) (Feed.items (this w))) with (@nil FeedItem.t);
      [reflexivity|].
    induction (Feed.items (this w)); [reflexivity | assumption].
Qed.

(** ** Setters and getters *)

(** X15.  A getter returns what the setter stored, which is the argument
    trimmed; and storing what the getter returned changes nothing, since
    trimming a trimmed string leaves it as it is.  This holds of the
    title, the description, the link and the language. *)
Theorem getters_return_the_trimmed_value (v : string) (w : World Feed.t) :
  (fst ((Feed.setTitle v ;;; Feed.getTitle) w) = Returned (trim v)
   /\ Feed.setTitle (trim v) (snd (Feed.setTitle v w))
      = (Returned tt, snd (Feed.setTitle v w)))
  /\ (fst ((Feed.setDescription v ;;; Feed.getDescription) w) = Returned (trim v)
      /\ Feed.setDescription (trim v) (snd (Feed.setDescription v w))
         = (Returned tt, snd (Feed.setDescription v w)))
  /\ (fst ((Feed.setLink v ;;; Feed.getLink) w) = Returned (trim v)
      /\ Feed.setLink (trim v) (snd (Feed.setLink v w))
         = (Returned tt, snd (Feed.setLink v w)))
  /\ (fst ((Feed.setLanguage v ;;; Feed.getLanguage) w) = Returned (trim v)
      /\ Feed.setLanguage (trim v) (snd (Feed.setLanguage v w))
         = (Returned tt, snd (Feed.setLanguage v w))).
Proof.
  repeat split; try reflexivity;
    cbn; unfold Feed.withTitle, Feed.withDescription, Feed.withLink, Feed.withLanguage;
    cbn; now rewrite TrimFacts.trim_idem.
Qed.

(** ** getStats *)

Module StatsFacts.
Import Feed.

Lemma fold_sum {A} (g : A -> nat) (l : list A) : forall acc,
  fold_left (fun sum x => (sum + g x)%nat) l acc = (acc + list_sum (map g l))%nat.
Proof.
  induction l as [|x l IH]; intros acc; simpl; [lia|]. rewrite IH. lia.
Qed.

Lemma processItemData_lengths cfg d :
  lengthOrZero (FeedItemData.images (processItemData cfg d))
  = lengthOrZero (FeedItemData.images d)
  /\ lengthOrZero (FeedItemData.videos (processItemData cfg d))
     = lengthOrZero (FeedItemData.videos d)
  /\ lengthOrZero (FeedItemData.translations (processItemData cfg d))
     = lengthOrZero (FeedItemData.translations d).
Proof.
  unfold processItemData. destruct (nonEmpty (Config.baseUrl cfg)); [|tauto].
  cbn. destruct (FeedItemData.images d), (FeedItemData.videos d),
         (FeedItemData.translations d); cbn; rewrite ?length_map; tauto.
Qed.

Lemma total_after (g : FeedItemData.t -> nat) cfg old xs :
  (forall d, g (processItemData cfg d) = g d) ->
  fold_left (fun sum item => (sum + g (FeedItem.data item))%nat)
            (old ++ map (fun x => FeedItem.new (processItemData cfg x)) xs)%list 0%nat
  = (fold_left (fun sum item => (sum + g (FeedItem.data item))%nat) old 0%nat
     + list_sum (map g xs))%nat.
Proof.
  intros Hg. rewrite !(fold_sum (fun item => g (FeedItem.data item))), map_app, map_map.
  cbn [FeedItem.data FeedItem.new].
  rewrite (map_ext _ g) by exact Hg.
  induction (map (fun item => g (FeedItem.data item)) old) as [|n l IH]; simpl; lia.
Qed.

End StatsFacts.

(** X16.  [getStats] leaves the feed as it is, and its counts add up over
    insertions: after an [addItems] that accepted every element, the
    number of items has grown by the number of elements, the numbers of
    images, videos and translations by those of the elements, and the size
    estimate by 2000 for each element; the last modification is the
    [lastBuildDate] of the feed. *)
Theorem getStats_counts_what_was_inserted (w : World Feed.t) (xs : list FeedItemData.t) :
  (forall x, In x xs -> Insertion.accepted w x) ->
  exists before after w',
    Feed.getStats w = (Returned before, w)
    /\ Feed.addItems xs w = (Returned tt, w')
    /\ Feed.getStats w' = (Returned after, w')
    /\ FeedStats.totalItems after = (FeedStats.totalItems before + List.length xs)%nat
    /\ FeedStats.totalImages after
       = (FeedStats.totalImages before
          + list_sum (map (fun x => Feed.lengthOrZero (FeedItemData.images x)) xs))%nat
    /\ FeedStats.totalVideos after
       = (FeedStats.totalVideos before
          + list_sum (map (fun x => Feed.lengthOrZero (FeedItemData.videos x)) xs))%nat
    /\ FeedStats.totalTranslations after
       = (FeedStats.totalTranslations before
          + list_sum (map (fun x => Feed.lengthOrZero (FeedItemData.translations x)) xs))%nat
    /\ FeedStats.sizeEstimate after
       = (FeedStats.sizeEstimate before + 2000 * Z.of_nat (List.length xs))%Z
    /\ FeedStats.lastModified after = Feed.lastBuildDate (this w').
Proof.
  intros Hacc. do 3 eexists.
  split; [reflexivity|].
  split; [exact (AddItemsFacts.addItems_accepted xs w Hacc)|].
  split; [reflexivity|].
  cbn [FeedStats.totalItems FeedStats.totalImages FeedStats.totalVideos
       FeedStats.totalTranslations FeedStats.sizeEstimate FeedStats.lastModified].
  unfold Feed.estimateSize.
  rewrite !AddItemsFacts.insertedAll_items.
  repeat split.
  - rewrite length_app, length_map. reflexivity.
  - apply (StatsFacts.total_after (fun d => Feed.lengthOrZero (FeedItemData.images d))).
    intros d. apply StatsFacts.processItemData_lengths.
  - apply (StatsFacts.total_after (fun d => Feed.lengthOrZero (FeedItemData.videos d))).
    intros d. apply StatsFacts.processItemData_lengths.
  - apply (StatsFacts.total_after (fun d => Feed.lengthOrZero (FeedItemData.translations d))).
    intros d. apply StatsFacts.processItemData_lengths.
  - rewrite length_app, length_map. lia.
Qed.

(** The theorem at the sample feed with a base URL and two items, one
    with an image. *)
Lemma getStats_counts_witness :
  (forall x, In x [Sample.imageItem; Sample.plainItem "B" "/b"] ->
             Insertion.accepted (Sample.feedOf Sample.withBase) x)
  /\ exists before after w',
       Feed.getStats (Sample.feedOf Sample.withBase)
       = (Returned before, Sample.feedOf Sample.withBase)
       /\ Feed.addItems [Sample.imageItem; Sample.plainItem "B" "/b"]
            (Sample.feedOf Sample.withBase) = (Returned tt, w')
       /\ Feed.getStats w' = (Returned after, w')
       /\ FeedStats.totalItems after = (FeedStats.totalItems before + 2)%nat
       /\ FeedStats.totalImages after = (FeedStats.totalImages before + 1)%nat.
Proof.
  assert (Hacc : forall x, In x [Sample.imageItem; Sample.plainItem "B" "/b"] ->
                           Insertion.accepted (Sample.feedOf Sample.withBase) x)
    by (intros x _; now left).
  split; [exact Hacc|].
  destruct (getStats_counts_what_was_inserted (Sample.feedOf Sample.withBase) _ Hacc)
    as (before & after & w' & Eb & Ea & Es & Hi & Him & _).
  exists before, after, w'. repeat split; assumption.
Defined.

(** ** Dates that cannot be rendered *)

Module BadDateFacts.
Import DateHelper XmlHelper Feed.




Ltac forget_let :=
  lazymatch goal with
  | |- throwsAt (let x := ?a in @?k x) ?w =>
      let v := fresh x in
      pose (v := a); change (throwsAt (k v) w); cbv beta; clearbody v
  end.






Lemma formatDate_sameFeed {T} d (w : World T) : sameFeed w (snd (formatDate d w)).
Proof.
  unfold formatDate. destruct (falsy d); [split; reflexivity|].
  destruct d as [[t|]|s|n]; try (split; reflexivity).
  - unfold bind, parse. destruct (Host.dateParse (host w) s); split; reflexivity.
  - destruct (dateOfNumber n); split; reflexivity.
Qed.






End BadDateFacts.



(** ** isAllowedDomain *)

Module DomainFacts.
Import Validator.

Lemma schemeChar_match l c :
  isSchemeChar l = true ->
  Ascii.eqb (lowerChar l) (if (nat_of_ascii c <? 128)%nat then lowerChar c else c)
  = Ascii.eqb (lowerChar c) l.
Proof.
  unfold isSchemeChar. cbn [existsb]. rewrite !orb_true_iff.
  intros [H|[H|[H|[H|[H|[H|H]]]]]]; try discriminate;
    apply Ascii.eqb_eq in H; subst l;
    destruct c as [[] [] [] [] [] [] [] []]; reflexivity.
Qed.

Lemma matchLiteralCI_iff lit : allChars isSchemeChar lit = true ->
  forall s r,
    matchLiteralCI lit s = Some r <-> exists pre, s = pre ++ r /\ toLowerCase pre = lit.
Proof.
  induction lit as [|l lit IH]; intros Hl s r.
  - simpl. split.
    + intros [= ->]. now exists "".
    + intros (pre & -> & E). destruct pre; [reflexivity | discriminate].
  - cbn [allChars] in Hl. apply andb_true_iff in Hl. destruct Hl as [Hc Hl].
    cbn [matchLiteralCI]. destruct s as [|c s].
    + split; [discriminate|]. intros (pre & E & E'). destruct pre; discriminate.
    + rewrite (schemeChar_match l c Hc). destruct (Ascii.eqb_spec (lowerChar c) l) as [<-|N].
      * rewrite (IH Hl). split.
        -- intros (pre & -> & <-). now exists (String c pre).
        -- intros (pre & E & E'). destruct pre as [|d pre]; [discriminate|].
           cbn [append toLowerCase] in E, E'.
           injection E as -> ->. injection E' as E'. now exists pre.
      * split; [discriminate|]. intros (pre & E & E').
        destruct pre as [|d pre]; [discriminate|]. cbn [append toLowerCase] in E, E'.
        injection E as -> _. injection E' as E' _. contradiction.
Qed.

Lemma matchScheme_iff s r :
  matchScheme s = Some r <-> exists scheme, s = scheme ++ r /\ isHttpScheme scheme.
Proof.
  unfold matchScheme, isHttpScheme.
  pose proof (matchLiteralCI_iff "https://" eq_refl s) as Hs.
  pose proof (matchLiteralCI_iff "http://" eq_refl s) as Hp.
  destruct (matchLiteralCI "https://" s) as [r'|] eqn:E.
  - split.
    + intros [= ->]. destruct (proj1 (Hs r) eq_refl) as (pre & -> & Hpre).
      exists pre. tauto.
    + intros (scheme & -> & [H|H]).
      * destruct (proj1 (Hs r') eq_refl) as (pre & E1 & E2).
        exfalso. clear -H E1 E2.
        assert (L : forall a b x y : string, a ++ x = b ++ y ->
                      String.length a = String.length b -> a = b).
        { induction a as [|c a IH]; intros [|d b] x y Hab Hlen; try discriminate;
            [reflexivity|]. simpl in *. injection Hab as -> Hab.
          f_equal. apply (IH b x y Hab). lia. }
        assert (Hlen : forall t, String.length (toLowerCase t) = String.length t).
        { induction t; simpl; congruence. }
        destruct scheme as [|c0 [|c1 [|c2 [|c3 [|c4 scheme]]]]]; try discriminate.
        destruct pre as [|d0 [|d1 [|d2 [|d3 [|d4 pre]]]]]; try discriminate.
        simpl in H, E1, E2. injection E1 as -> -> -> -> -> _.
        injection H as _ _ _ _ H _. injection E2 as _ _ _ _ E2 _. congruence.
      * f_equal. destruct (proj1 (Hs r') eq_refl) as (pre & E1 & E2).
        assert (pre = scheme).
        { clear -H E1 E2. revert scheme H E1.
          assert (Hgen : forall (lit a b x y : string),
                     toLowerCase a = lit -> toLowerCase b = lit -> a ++ x = b ++ y -> a = b).
          { induction lit as [|l lit IH]; intros [|c a] [|d b] x y Ha Hb Hab;
              try discriminate; [reflexivity|].
            simpl in *. injection Ha as _ Ha. injection Hb as _ Hb. injection Hab as -> Hab.
            f_equal. exact (IH a b x y Ha Hb Hab). }
          intros scheme H E1. exact (Hgen _ _ _ _ _ E2 H (eq_sym E1)). }
        subst pre. now apply EscapeFacts.append_cancel_l in E1.
  - rewrite Hp. split.
    + intros (pre & -> & H). exists pre. tauto.
    + intros (scheme & -> & [H|H]); [now exists scheme|].
      assert (Hn : @None string = Some r) by (apply Hs; now exists scheme).
      discriminate.
Qed.

Lemma spanChars_iff p s a b :
  spanChars p s = (a, b)
  <-> s = a ++ b /\ allChars p a = true
      /\ match b with EmptyString => True | String c _ => p c = false end.
Proof.
  revert a b. induction s as [|c s IH]; intros a b; cbn [spanChars].
  - split.
    + intros [= <- <-]. repeat split.
    + intros (E & _ & _). destruct a; [|discriminate]. simpl in E. now subst.
  - destruct (p c) eqn:Ec.
    + destruct (spanChars p s) as [a' b'] eqn:Es. split.
      * intros [= <- <-]. destruct (proj1 (IH a' b') eq_refl) as (-> & Ha & Hb).
        repeat split; [simpl; now rewrite Ec, Ha | exact Hb].
      * intros (E & Ha & Hb). destruct a as [|d a].
        -- simpl in E. subst b. congruence.
        -- simpl in E, Ha. injection E as <- ->. apply andb_true_iff in Ha.
           destruct Ha as [_ Ha].
           assert (H : (a', b') = (a, b)) by (apply IH; repeat split; assumption).
           now injection H as -> ->.
    + split.
      * intros [= <- <-]. repeat split. exact Ec.
      * intros (E & Ha & Hb). destruct a as [|d a]; [simpl in E; now subst|].
        simpl in E, Ha. injection E as <- _. rewrite Ec in Ha. discriminate.
Qed.

Lemma endsWith_iff p s : endsWith p s = true <-> exists pre, s = pre ++ p.
Proof.
  induction s as [|c s IH]; cbn [endsWith].
  - rewrite orb_false_r, String.eqb_eq. split.
    + intros ->. now exists "".
    + intros (pre & E). destruct pre; [exact (eq_sym E) | discriminate].
  - rewrite orb_true_iff, String.eqb_eq, IH. split.
    + intros [->|(pre & ->)]; [now exists "" | now exists (String c pre)].
    + intros (pre & E). destruct pre as [|d pre]; [left; exact (eq_sym E)|].
      right. simpl in E. injection E as _ ->. now exists pre.
Qed.

Lemma hostnameMatch_iff url h :
  hostnameMatch url = Some h
  <-> exists scheme rest,
        url = scheme ++ h ++ rest /\ isHttpScheme scheme
        /\ h <> "" /\ lacks "/" h = true
        /\ match rest with EmptyString => True | String c _ => c = "/"%char end.
Proof.
  unfold hostnameMatch. destruct (matchScheme url) as [r|] eqn:E.
  - apply matchScheme_iff in E. destruct E as (scheme & -> & Hs).
    destruct (spanChars (fun c => negb (Ascii.eqb c "/")) r) as [a b] eqn:Es.
    cbn [fst]. apply spanChars_iff in Es. destruct Es as (-> & Ha & Hb).
    assert (Hb' : match b with EmptyString => True | String c _ => c = "/"%char end).
    { destruct b as [|c b]; [exact I|]. apply negb_false_iff in Hb.
      now apply Ascii.eqb_eq in Hb. }
    split.
    + destruct (nonEmpty a) eqn:Na; [|discriminate]. intros [= <-].
      exists scheme, b. repeat split; try assumption. now destruct a.
    + intros (scheme' & rest & E & Hs' & Hne & Hl & Hr).
      assert (Hx : matchScheme (scheme ++ a ++ b) = Some (h ++ rest))
        by (apply matchScheme_iff; exists scheme'; now split).
      assert (Hy : matchScheme (scheme ++ a ++ b) = Some (a ++ b))
        by (apply matchScheme_iff; exists scheme; now split).
      rewrite Hy in Hx. injection Hx as Hx.
      assert (Hspan : spanChars (fun c => negb (Ascii.eqb c "/")) (a ++ b) = (h, rest)).
      { apply spanChars_iff. repeat split; [exact Hx | exact Hl |].
        destruct rest as [|c rest]; [exact I|]. subst c. reflexivity. }
      assert (Hspan' : spanChars (fun c => negb (Ascii.eqb c "/")) (a ++ b) = (a, b)).
      { apply spanChars_iff. repeat split; [exact Ha|exact Hb]. }
      rewrite Hspan' in Hspan. injection Hspan as -> ->.
      destruct h; [congruence | reflexivity].
  - split; [discriminate|]. intros (scheme & rest & -> & Hs & _).
    assert (matchScheme (scheme ++ h ++ rest) = Some (h ++ rest))
      by (apply matchScheme_iff; now exists scheme).
    congruence.
Qed.

Lemma toLowerCase_nonEmpty s : nonEmpty (toLowerCase s) = nonEmpty s.
Proof. now destruct s. Qed.

End DomainFacts.

(** X18.  With no allowed domain every URL is allowed.  With some, a URL
    is allowed exactly when it is [http://] or [https://] (in any letter
    case), then a text without ['/'] that is not empty, then nothing or a
    ['/'], and that text, letter case apart, is an allowed domain or ends
    with a dot and an allowed domain.  The text is all that stands before
    the first slash: a port, a user name, a query or a fragment that
    comes before any slash is part of it. *)
Theorem isAllowedDomain_compares_the_text_before_the_first_slash
  (url : string) (d : string) (ds : list string) :
  Validator.isAllowedDomain url [] = true
  /\ (Validator.isAllowedDomain url (d :: ds) = true
      <-> exists scheme authority rest domain,
            url = scheme ++ authority ++ rest
            /\ isHttpScheme scheme
            /\ authority <> "" /\ lacks "/" authority = true
            /\ match rest with EmptyString => True | String c _ => c = "/"%char end
            /\ In domain (d :: ds) /\ namesDomain authority domain).
Proof.
  split; [reflexivity|].
  unfold Validator.isAllowedDomain.
  destruct (Validator.hostnameMatch url) as [h|] eqn:E.
  - apply DomainFacts.hostnameMatch_iff in E.
    destruct E as (scheme & rest & -> & Hs & Hne & Hl & Hr).
    cbv zeta. rewrite DomainFacts.toLowerCase_nonEmpty.
    assert (Nh : nonEmpty h = true) by (destruct h; [congruence | reflexivity]).
    rewrite Nh. cbn [negb]. rewrite existsb_exists. split.
    + intros (domain & Hin & Hd). exists scheme, h, rest, domain.
      repeat split; try assumption.
      apply orb_true_iff in Hd. destruct Hd as [Hd|Hd].
      * left. now apply String.eqb_eq.
      * right. now apply DomainFacts.endsWith_iff.
    + intros (scheme' & authority & rest' & domain & E & Hs' & Hne' & Hl' & Hr' & Hin & Hd).
      assert (H1 : Validator.hostnameMatch (scheme ++ h ++ rest) = Some h)
        by (apply DomainFacts.hostnameMatch_iff; now exists scheme, rest).
      assert (H2 : Validator.hostnameMatch (scheme ++ h ++ rest) = Some authority)
        by (apply DomainFacts.hostnameMatch_iff; now exists scheme', rest').
      rewrite H1 in H2. injection H2 as ->.
      exists domain. split; [exact Hin|]. apply orb_true_iff.
      destruct Hd as [Hd|Hd]; [left; now apply String.eqb_eq|].
      right. now apply DomainFacts.endsWith_iff.
  - split; [discriminate|].
    intros (scheme & authority & rest & domain & -> & Hs & Hne & Hl & Hr & _).
    assert (H1 : Validator.hostnameMatch (scheme ++ authority ++ rest) = Some authority)
      by (apply DomainFacts.hostnameMatch_iff; now exists scheme, rest).
    congruence.
Qed.

(** ** formatXml on nested tags *)

Module NestingFacts.
Import XmlHelper PrettyFacts.

Lemma formatStep_level indent tokens i r l l' :
  levelAfter (tokenAt tokens i) l = Some l' ->
  exists r', formatStep indent tokens i (r, l) = Returned (r', l').
Proof.
  unfold levelAfter, formatStep, repeatIndent.
  destruct (negb (nonEmpty (tokenAt tokens i))); [intros [= <-]; eauto|].
  destruct (startsWith "<?xml" (tokenAt tokens i)); [intros [= <-]; eauto|].
  destruct (startsWith "</" (tokenAt tokens i)).
  { destruct (l - 1 <? 0)%Z; [discriminate|]. intros [= <-].
    destruct (negb _); eauto. }
  destruct (startsWith "<" (tokenAt tokens i) && negb (endsWith "/>" (tokenAt tokens i))).
  { destruct (l <? 0)%Z; [discriminate|]. intros [= <-]. eauto. }
  destruct (l <? 0)%Z; [discriminate|]. intros [= <-].
  destruct (endsWith "/>" (tokenAt tokens i)); [eauto|].
  destruct (startsWith "</" (tokenAt tokens (i + 1))); eauto.
Qed.

Lemma formatLoop_level indent tokens n : forall i r l l',
  (i + n = List.length tokens)%nat ->
  levelsAfter (skipn i tokens) l = Some l' ->
  exists r', formatLoop indent tokens n i (r, l) = Returned (r', l').
Proof.
  induction n as [|n IH]; intros i r l l' Hn H.
  - rewrite skipn_all2 in H by lia. injection H as <-. now exists r.
  - rewrite (skipn_nth tokens i) in H by lia. cbn [levelsAfter] in H.
    destruct (levelAfter (trim (nth i tokens "")) l) as [l1|] eqn:E; [|discriminate].
    destruct (formatStep_level indent tokens i r l l1 E) as (r1 & E1).
    cbn [formatLoop]. rewrite E1. apply (IH (S i) r1 l1 l'); [lia | exact H].
Qed.

Lemma formatXml_level xml indent l :
  levelsAfter (splitTags xml "" None) 0 = Some l ->
  exists out, formatXml xml indent = Returned out.
Proof.
  intros H. unfold formatXml.
  destruct (formatLoop_level indent (splitTags xml "" None)
              (List.length (splitTags xml "" None)) 0 "" 0%Z l eq_refl H) as (r & ->).
  now exists (trim r).
Qed.

End NestingFacts.

(** X19.  [formatXml] returns whenever no token of the document would be
    indented below level zero, that is, whenever no closing tag comes
    before the opening tags have made room for it; the indentation plays
    no part. *)
Theorem formatXml_returns_on_nested_tags (xml indent : string) :
  levelsAfter (XmlHelper.splitTags xml "" None) 0 <> None ->
  exists out, XmlHelper.formatXml xml indent = Returned out.
Proof.
  intros H. destruct (levelsAfter (XmlHelper.splitTags xml "" None) 0) as [l|] eqn:E;
    [|congruence].
  exact (NestingFacts.formatXml_level xml indent l E).
Qed.

(** The theorem at a document that is left open. *)
Lemma formatXml_returns_on_nested_tags_witness :
  levelsAfter (XmlHelper.splitTags "<a><b>x</b><c/>" "" None) 0 <> None
  /\ exists out, XmlHelper.formatXml "<a><b>x</b><c/>" "  " = Returned out.
Proof.
  assert (H : levelsAfter (XmlHelper.splitTags "<a><b>x</b><c/>" "" None) 0 <> None)
    by (vm_compute; discriminate).
  split; [exact H|].
  exact (formatXml_returns_on_nested_tags "<a><b>x</b><c/>" "  " H).
Defined.

(** ** Reading tag by tag *)

Module ScanFacts.
Import XmlHelper PrettyFacts TrimFacts.

Lemma scan_append a : forall b l r,
  scan (a ++ b) l r
  = match scan a l r with
    | Some (l', r') => scan b l' r'
    | None => None
    end.
Proof.
  induction a as [|c a IH]; intros b l r; [reflexivity|].
  change (String c a ++ b) with (String c (a ++ b)). cbn [scan].
  destruct r as [|head last].
  - destruct (Ascii.eqb c "<"); apply IH.
  - destruct (Ascii.eqb c ">"); [|apply IH].
    destruct (closes head last l); [apply IH | reflexivity].
Qed.

Lemma scan_app a b l r l1 r1 st :
  scan a l r = Some (l1, r1) -> scan b l1 r1 = Some st -> scan (a ++ b) l r = Some st.
Proof. intros Ha Hb. now rewrite scan_append, Ha. Qed.

(** Text without ['<'] leaves the reader outside. *)
Lemma scan_text s l : lacks "<" s = true -> scan s l Outside = Some (l, Outside).
Proof.
  unfold lacks. induction s as [|c s IH]; [reflexivity|]. cbn [allChars scan].
  intros H. apply andb_true_iff in H. destruct H as [Hc Hs].
  apply negb_true_iff in Hc. rewrite Hc. now apply IH.
Qed.

(** A value without ['>'] leaves the reader inside the tag. *)
Lemma scan_value s : forall l head last,
  lacks ">" s = true -> String.length head = 5%nat ->
  scan s l (Inside head last) = Some (l, Inside head (lastOr last s)).
Proof.
  unfold lacks. induction s as [|c s IH]; intros l head last H Hh; [reflexivity|].
  cbn [allChars scan lastOr] in *. apply andb_true_iff in H. destruct H as [Hc Hs].
  apply negb_true_iff in Hc. rewrite Hc, Hh. cbn [Nat.ltb Nat.leb]. now apply IH.
Qed.

Lemma scan_appendEach {A} (piece : A -> string) xs l0 r0 l r :
  (forall x, scan (piece x) l r = Some (l, r)) ->
  forall acc, scan acc l0 r0 = Some (l, r) ->
              scan (Feed.appendEach piece xs acc) l0 r0 = Some (l, r).
Proof.
  intros Hp. unfold Feed.appendEach.
  induction xs as [|x xs IH]; intros acc Hacc; cbn [fold_left]; [exact Hacc|].
  apply IH. exact (scan_app _ _ _ _ _ _ _ Hacc (Hp x)).
Qed.

(** *** From the reader to the tokens *)

Lemma firstN_snoc t : forall n c,
  firstN n (t ++ String c "")
  = if (String.length (firstN n t) <? n)%nat then firstN n t ++ String c "" else firstN n t.
Proof.
  induction t as [|d t IH]; intros [|n] c; try reflexivity.
  { cbn. now destruct n. }
  change (String d t ++ String c "") with (String d (t ++ String c "")).
  cbn [firstN String.length]. rewrite IH.
  change (S (String.length (firstN n t)) <? S n)%nat
    with (String.length (firstN n t) <? n)%nat.
  now destruct (String.length (firstN n t) <? n)%nat.
Qed.

Lemma firstN_firstN t : forall n m, (n <= m)%nat -> firstN n (firstN m t) = firstN n t.
Proof.
  induction t as [|d t IH]; intros [|n] [|m] H; try reflexivity; try lia.
  cbn [firstN]. rewrite IH by lia. reflexivity.
Qed.

Lemma lastOr_snoc t : forall d c, lastOr d (t ++ String c "") = c.
Proof. induction t as [|x t IH]; intros d c; [reflexivity | apply IH]. Qed.

Lemma prefix_snoc p : forall g t,
  lacks g p = true ->
  String.prefix p (t ++ String g "") = (firstN (String.length p) t =? p)%string.
Proof.
  unfold lacks. induction p as [|a p IH]; intros g t H.
  - now destruct t.
  - cbn [allChars] in H. apply andb_true_iff in H. destruct H as [Ha Hp].
    apply negb_true_iff in Ha. destruct t as [|d t].
    + simpl. destruct (ascii_dec a g) as [->|N]; [|reflexivity].
      rewrite Ascii.eqb_refl in Ha. discriminate.
    + change (String d t ++ String g "") with (String d (t ++ String g "")).
      cbn [String.prefix String.length firstN String.eqb].
      rewrite (IH g t Hp).
      destruct (ascii_dec a d) as [->|N].
      * now rewrite Ascii.eqb_refl.
      * apply Ascii.eqb_neq in N. rewrite Ascii.eqb_sym, N. reflexivity.
Qed.

Lemma endsWith_snoc a t : forall d g,
  endsWith (String a (String g "")) (t ++ String g "")
  = nonEmpty t && Ascii.eqb (lastOr d t) a.
Proof.
  induction t as [|c t IH]; intros d g.
  - cbn. destruct (Ascii.eqb a g); reflexivity.
  - change (String c t ++ String g "") with (String c (t ++ String g "")).
    cbn [endsWith]. rewrite (IH c g). cbn [nonEmpty lastOr andb].
    destruct t as [|c' t].
    + cbn [append String.eqb nonEmpty andb lastOr orb].
      rewrite Ascii.eqb_refl, (Ascii.eqb_sym a c).
      destruct (Ascii.eqb c a); reflexivity.
    + assert (E : (String a (String g "") =? String c (String c' t ++ String g ""))%string
                  = false).
      { cbn [append String.eqb]. destruct (Ascii.eqb a c); [|reflexivity].
        destruct (Ascii.eqb g c'); [|reflexivity]. now destruct t. }
      rewrite E. reflexivity.
Qed.

(** The level after a tag, from what the reader kept of it. *)
Lemma closes_levelAfter u l :
  levelAfter (("<" ++ u) ++ ">") (Z.of_nat l)
  = option_map Z.of_nat (closes (firstN 5 ("<" ++ u)) (lastOr "<" ("<" ++ u)) l).
Proof.
  unfold levelAfter, closes, startsWith.
  rewrite (prefix_snoc "<?xml" ">" ("<" ++ u) eq_refl).
  rewrite (prefix_snoc "</" ">" ("<" ++ u) eq_refl).
  rewrite (endsWith_snoc "/" ("<" ++ u) "<" ">").
  change (String.length "<?xml") with 5%nat. change (String.length "</") with 2%nat.
  rewrite (firstN_firstN ("<" ++ u) 2 5) by lia.
  change (nonEmpty (("<" ++ u) ++ ">")) with true.
  change (String.prefix "<" (("<" ++ u) ++ ">")) with (String.prefix "" (u ++ ">")).
  replace (String.prefix "" (u ++ ">")) with true by (now destruct (u ++ ">")).
  change (nonEmpty ("<" ++ u)) with true.
  cbn [negb andb].
  destruct (firstN 5 ("<" ++ u) =? "<?xml")%string; [reflexivity|].
  destruct (firstN 2 ("<" ++ u) =? "</")%string.
  - destruct l as [|l]; [reflexivity|].
    replace (Z.of_nat (S l) - 1 <? 0)%Z with false by (symmetry; apply Z.ltb_ge; lia). cbn [option_map].
    f_equal. lia.
  - replace (Z.of_nat l <? 0)%Z with false by (symmetry; apply Z.ltb_ge; lia).
    destruct (Ascii.eqb (lastOr "<" ("<" ++ u)) "/"); cbn [negb option_map].
    + reflexivity.
    + f_equal. lia.
Qed.

(** A text token does not change the level. *)
Lemma text_levelAfter text l :
  lacks "<" text = true -> levelAfter (trim text) (Z.of_nat l) = Some (Z.of_nat l).
Proof.
  intros H. apply lacks_trim in H. unfold levelAfter.
  rewrite !(lacks_startsWith_lt _ _ H). cbn [andb].
  replace (Z.of_nat l <? 0)%Z with false by (symmetry; apply Z.ltb_ge; lia).
  now destruct (negb (nonEmpty (trim text))).
Qed.

Lemma scan_levels xml : forall l r l' text tag,
  scan xml l r = Some (l', Outside) ->
  keeps r tag -> lacks "<" text = true ->
  exists l'', levelsAfter (splitTags xml text tag) (Z.of_nat l) = Some l''.
Proof.
  induction xml as [|c xml IH]; intros l r l' text tag Hs Hk Ht.
  - cbn [scan] in Hs. injection Hs as -> ->. destruct tag; [destruct Hk|].
    cbn [splitTags levelsAfter]. rewrite (text_levelAfter text l' Ht). eauto.
  - cbn [scan] in Hs. destruct r as [|head last].
    + destruct tag; [destruct Hk|]. cbn [splitTags].
      destruct (Ascii.eqb c "<") eqn:Ec.
      * apply (IH _ _ _ text (Some "<") Hs); [|exact Ht]. now exists "".
      * apply (IH _ _ _ (text ++ String c "") None Hs I).
        rewrite EscapeFacts.lacks_append, Ht. unfold lacks. cbn [allChars].
        now rewrite Ec.
    + destruct tag as [t|]; [|destruct Hk]. destruct Hk as (u & -> & -> & ->).
      cbn [splitTags]. destruct (Ascii.eqb c ">") eqn:Ec.
      * destruct (closes _ _ l) as [l1|] eqn:Hc; [|discriminate].
        destruct (IH _ _ _ "" None Hs I eq_refl) as (l'' & E).
        exists l''. cbn [levelsAfter].
        rewrite (text_levelAfter text l Ht).
        change (("<" ++ u) ++ ">") with ("<" ++ u ++ ">").
        rewrite trim_tag. change ("<" ++ u ++ ">") with (("<" ++ u) ++ ">").
        rewrite closes_levelAfter, Hc. exact E.
      * apply (IH _ _ _ text (Some (("<" ++ u) ++ String c "")) Hs); [|exact Ht].
        exists (u ++ String c ""). split; [reflexivity|].
        rewrite firstN_snoc, lastOr_snoc. split; reflexivity.
Qed.

(** A document that the reader gets through is formatted. *)
Lemma formatXml_scanned xml indent l :
  scan xml 0 Outside = Some (l, Outside) ->
  exists out, formatXml xml indent = Returned out.
Proof.
  intros H. destruct (scan_levels xml 0 Outside l "" None H I eq_refl) as (l' & E).
  exact (NestingFacts.formatXml_level xml indent l' E).
Qed.

End ScanFacts.

(** ** Rendering a feed that can be rendered *)

Module RenderableFacts.
Import DateHelper XmlHelper Feed ScanFacts.

(** *** The characters of numbers and dates *)

Lemma allChars_uint (p : ascii -> bool) d :
  allChars p "0123456789" = true -> allChars p (NilEmpty.string_of_uint d) = true.
Proof.
  intros H. cbn [allChars] in H. rewrite !andb_true_iff in H.
  destruct H as (H0 & H1 & H2 & H3 & H4 & H5 & H6 & H7 & H8 & H9 & _).
  induction d; cbn [NilEmpty.string_of_uint allChars];
    rewrite ?H0, ?H1, ?H2, ?H3, ?H4, ?H5, ?H6, ?H7, ?H8, ?H9, ?IHd; reflexivity.
Qed.

Lemma allChars_intToString (p : ascii -> bool) z :
  allChars p "-0123456789" = true -> allChars p (intToString z) = true.
Proof.
  intros H. cbn [allChars] in H. apply andb_true_iff in H. destruct H as [Hm Hd].
  pose proof (fun d => allChars_uint p d Hd) as Hu.
  assert (Hz : allChars p (NilZero.string_of_uint Decimal.Nil) = true).
  { cbn [allChars] in Hd. apply andb_true_iff in Hd. cbn. now rewrite (proj1 Hd). }
  assert (Hn : forall d, allChars p (NilZero.string_of_uint d) = true).
  { intros d. destruct d; try exact Hz; apply Hu. }
  unfold intToString, NilZero.string_of_int.
  destruct (Z.to_int z) as [d|d]; [apply Hn|].
  cbn [allChars]. now rewrite Hm, Hn.
Qed.

Lemma lacks_intToString c z :
  lacks c "-0123456789" = true -> lacks c (intToString z) = true.
Proof. apply allChars_intToString. Qed.

Lemma lacks_repeat c s n : lacks c s = true -> lacks c (Js.repeat s n) = true.
Proof.
  intros H. induction n as [|n IH]; [reflexivity|]. cbn [Js.repeat].
  now rewrite EscapeFacts.lacks_append, H, IH.
Qed.

Lemma lacks_padStart c w n :
  lacks c "-0123456789" = true -> lacks c (padStart w n) = true.
Proof.
  intros H. unfold padStart.
  rewrite EscapeFacts.lacks_append, (lacks_intToString c n H), andb_true_r.
  apply lacks_repeat. unfold lacks in *. cbn [allChars] in *.
  apply andb_true_iff in H. destruct H as [_ H]. apply andb_true_iff in H.
  now rewrite (proj1 H).
Qed.

Lemma lacks_nth c (l : list string) d i :
  forallb (lacks c) l = true -> lacks c d = true -> lacks c (nth i l d) = true.
Proof.
  revert i. induction l as [|x l IH]; intros [|i] Hl Hd; cbn [nth]; try exact Hd;
    cbn [forallb] in Hl; apply andb_true_iff in Hl; destruct Hl as [Hx Hl];
    [exact Hx | now apply IH].
Qed.

(** Show that a date or a number written out holds no [c]. *)
Ltac lacks_char :=
  repeat
    (lazymatch goal with
     | |- lacks _ (_ ++ _) = true => rewrite EscapeFacts.lacks_append; apply andb_true_iff; split
     | |- lacks _ (padStart _ _) = true => apply lacks_padStart; reflexivity
     | |- lacks _ (if ?b then _ else _) = true => destruct b
     | |- lacks _ (nth _ _ _) = true => apply lacks_nth; reflexivity
     | |- lacks _ _ = true => reflexivity
     end).

Lemma lacks_toISOString c t :
  lacks c "-0123456789+T:.Z" = true -> lacks c (toISOString t) = true.
Proof.
  intros H. unfold toISOString, timeOfDay.
  destruct (civilFromDays (t / 86400000)) as [[y m] d]. cbv zeta.
  assert (Hd : lacks c "-0123456789" = true).
  { unfold lacks in *. cbn [allChars] in *. rewrite !andb_true_iff in *. tauto. }
  assert (Hp : forall w n, lacks c (padStart w n) = true)
    by (intros; now apply lacks_padStart).
  assert (Hone : forall x, In x ["-"; "+"; "T"; ":"; "."; "Z"] -> lacks c x = true).
  { unfold lacks in *. cbn [allChars] in *. rewrite !andb_true_iff in H.
    intros x [<-|[<-|[<-|[<-|[<-|[<-|[]]]]]]]; cbn [allChars]; rewrite andb_true_r; tauto. }
  repeat (rewrite EscapeFacts.lacks_append; apply andb_true_iff; split);
    try apply Hp; try (apply Hone; simpl; tauto).
  destruct ((0 <=? y)%Z && (y <=? 9999)%Z); [apply Hp|].
  destruct (y <? 0)%Z; rewrite EscapeFacts.lacks_append, Hp, andb_true_r;
    apply Hone; simpl; tauto.
Qed.

Lemma lacks_toUTCString o : lacks "<" (toUTCString o) = true.
Proof.
  destruct o as [t|]; [|reflexivity]. unfold toUTCString, timeOfDay, dayName, monthName.
  destruct (civilFromDays (t / 86400000)) as [[y m] d].
  lacks_char.
Qed.

(** *** Dates that the host reads *)

Lemma formatDate_parses {T} s (w : World T) :
  parses (host w) s = true ->
  exists t, formatDate (DateOfString s) w = (Returned (toISOString t), w).
Proof.
  unfold parses. intros H. apply andb_true_iff in H. destruct H as [Hs Hp].
  unfold formatDate. cbn [falsy]. rewrite Hs. cbn [negb]. unfold bind, parse.
  destruct (Host.dateParse (host w) s) as [t|]; [|discriminate]. now exists t.
Qed.

Lemma formatDate_datable {T} p (w : World T) :
  truthyDate (Some p) = true -> datable (host w) (Some p) = true ->
  exists t, formatDate (toDateInput p) w = (Returned (toISOString t), w).
Proof.
  destruct p as [[t|]|s]; cbn [truthyDate datable toDateInput]; intros Ht Hd;
    try discriminate.
  - now exists t.
  - rewrite Ht in Hd. now apply formatDate_parses.
Qed.

Lemma yields_bind {T} (m k : _) (w : World T) (P Q : string -> Prop) :
  yields m w P -> (forall a, P a -> yields (k a) w Q) -> yields (bind m k) w Q.
Proof.
  intros (a & E & Ha) Hk. unfold yields, bind. rewrite E. exact (Hk a Ha).
Qed.

Lemma yields_formatRssDate {T} d (w : World T) t :
  formatDate d w = (Returned (toISOString t), w) ->
  yields (formatRssDate d) w (fun s => lacks "<" s = true).
Proof.
  intros E. unfold yields, formatRssDate, bind, parse, ret. rewrite E.
  eexists. split; [reflexivity|]. apply lacks_toUTCString.
Qed.

Lemma yields_formatAtomDate {T} d (w : World T) t :
  formatDate d w = (Returned (toISOString t), w) ->
  yields (formatAtomDate d) w (fun s => lacks "<" s = true).
Proof.
  intros E. unfold yields, formatAtomDate. rewrite E.
  eexists. split; [reflexivity|]. now apply lacks_toISOString.
Qed.

(** *** The reader on what the renderers write *)

Lemma scan_appendEach' {A} (piece : A -> string) xs l0 r0 l r acc :
  scan acc l0 r0 = Some (l, r) ->
  (forall x, scan (piece x) l r = Some (l, r)) ->
  scan (appendEach piece xs acc) l0 r0 = Some (l, r).
Proof. intros Ha Hp. now apply scan_appendEach. Qed.

(** Follow the reader through a string built from literal markup, escaped
    text, numbers and dates. *)
Ltac flow :=
  repeat
    (cbv beta;
     lazymatch goal with
     | H : scan ?s ?l ?r = Some _ |- scan ?s ?l ?r = Some _ => exact H
     | |- scan (let _ := _ in _) _ _ = _ => cbv zeta
     | |- scan (_ ++ _) _ _ = _ => eapply scan_app
     | |- scan (escapeXml _) _ Outside = _ =>
         apply scan_text, EscapeFacts.escapeXml_lacks; simpl; tauto
     | |- scan (escapeXml _) _ (Inside _ _) = _ =>
         apply scan_value; [apply EscapeFacts.escapeXml_lacks; simpl; tauto | reflexivity]
     | |- scan (intToString _) _ (Inside _ _) = _ =>
         apply scan_value; [apply lacks_intToString; reflexivity | reflexivity]
     | H : lacks "<" ?s = true |- scan ?s _ Outside = _ => exact (scan_text s _ H)
     | |- scan (appendEach _ _ _) _ _ = _ => eapply scan_appendEach'; [|intros ?]
     | |- scan (generatorTag _) _ _ = _ => unfold generatorTag
     | |- scan (match ?o with Some _ => _ | None => _ end) _ _ = _ => destruct o
     | |- scan (if ?b then _ else _) _ _ = _ => destruct b
     | |- scan ?s ?l ?r = _ =>
         let v := eval vm_compute in (scan s l r) in
         exact (@eq_refl _ v <: scan s l r = v)
     end).

(** Name the value of the outermost [let]; the reader gets through it
    from level [l0] to [st]. *)
Ltac scan_let l0 st :=
  lazymatch goal with
  | |- yields (let x := ?a in @?k x) ?w ?P =>
      let v := fresh x in
      let H := fresh "H" v in
      pose (v := a); change (yields (k v) w P); cbv beta;
      assert (H : scan v l0 Outside = Some st) by (unfold v; flow);
      clearbody v
  end.

(** Name the value of an outermost [let] that is no part of the document. *)
Ltac plain_let :=
  lazymatch goal with
  | |- yields (let x := ?a in @?k x) ?w ?P =>
      let v := fresh x in
      pose (v := a); change (yields (k v) w P); cbv beta; clearbody v
  end.

Lemma generateRSSItem_flows item w :
  datable (host w) (FeedItemData.pubdate item) = true ->
  yields (generateRSSItem item) w (fun s => scan s 2 Outside = Some (2%nat, Outside)).
Proof.
  intros Hd. cbv delta [generateRSSItem]; cbv beta.
  repeat scan_let 2%nat (3%nat, Outside).
  apply (yields_bind _ _ _ (fun s => scan s 2 Outside = Some (3%nat, Outside))).
  - destruct (FeedItemData.pubdate item) as [p|]; [|now apply EntryDateFacts.yields_ret].
    destruct (truthyDate (Some p)) eqn:Ht; [|now apply EntryDateFacts.yields_ret].
    destruct (formatDate_datable p w Ht Hd) as (t & E).
    apply (yields_bind _ _ _ (fun s => lacks "<" s = true));
      [exact (yields_formatRssDate _ _ t E)|].
    intros d Hdate. apply EntryDateFacts.yields_ret. flow.
  - intros rssItem' Hflow.
    plain_let.
    repeat scan_let 2%nat (3%nat, Outside).
    apply EntryDateFacts.yields_ret. flow.
Qed.

Lemma generateAtomEntry_flows item w :
  datable (host w) (FeedItemData.pubdate item) = true ->
  yields (generateAtomEntry item) w (fun s => scan s 1 Outside = Some (1%nat, Outside)).
Proof.
  intros Hd. cbv delta [generateAtomEntry]; cbv beta.
  repeat scan_let 1%nat (2%nat, Outside).
  plain_let.
  repeat scan_let 1%nat (2%nat, Outside).
  apply (yields_bind _ _ _ (fun s => scan s 1 Outside = Some (2%nat, Outside))).
  - destruct (FeedItemData.pubdate item) as [p|]; [|now apply EntryDateFacts.yields_ret].
    destruct (truthyDate (Some p)) eqn:Ht; [|now apply EntryDateFacts.yields_ret].
    destruct (formatDate_datable p w Ht Hd) as (t & E).
    apply (yields_bind _ _ _ (fun s => lacks "<" s = true));
      [exact (yields_formatAtomDate _ _ t E)|].
    intros d Hdate. apply EntryDateFacts.yields_ret. flow.
  - intros entry' Hflow.
    repeat scan_let 1%nat (2%nat, Outside).
    apply EntryDateFacts.yields_ret. flow.
Qed.

Lemma forEachAppend_flows {A} (body : A -> M Feed.t string) xs (w : World Feed.t) l0 l :
  (forall x, In x xs ->
     yields (body x) w (fun s => scan s l Outside = Some (l, Outside))) ->
  forall acc, scan acc l0 Outside = Some (l, Outside) ->
    yields (forEachAppend body xs acc) w (fun s => scan s l0 Outside = Some (l, Outside)).
Proof.
  induction xs as [|x xs IH]; intros Hbody acc Hacc; cbn [forEachAppend].
  - now apply EntryDateFacts.yields_ret.
  - apply (yields_bind _ _ _ (fun s => scan s l Outside = Some (l, Outside))).
    + apply Hbody. now left.
    + intros s Hs. apply IH.
      * intros y Hy. apply Hbody. now right.
      * exact (scan_app _ _ _ _ _ _ _ Hacc Hs).
Qed.

Lemma yields_getThis_bind {T} (k : T -> M T string) w P :
  yields (k (this w)) w P -> yields (bind getThis k) w P.
Proof. intros H. exact H. Qed.

Lemma yields_formatted xml (w : World Feed.t) :
  scan xml 0 Outside = Some (0%nat, Outside) ->
  yields (lift (formatXml xml "  ")) w (fun _ => True).
Proof.
  intros H. destruct (formatXml_scanned xml "  " 0 H) as (out & E).
  exists out. unfold lift. now rewrite E.
Qed.

Lemma renderable_parts w :
  renderable w = true ->
  parses (host w) (lastBuildDate (this w)) = true
  /\ (forall item, In item (items (this w)) ->
        datable (host w) (FeedItemData.pubdate (FeedItem.data item)) = true)
  /\ lacks "<" (Config.version (config (this w))) = true.
Proof.
  unfold renderable. rewrite !andb_true_iff, forallb_forall. tauto.
Qed.

Lemma generateRSS_returns w :
  renderable w = true -> yields generateRSS w (fun _ => True).
Proof.
  intros Hr. destruct (renderable_parts w Hr) as (Hlbd & Hitems & Hversion).
  cbv delta [generateRSS]; cbv beta. apply yields_getThis_bind; cbv beta.
  do 3 scan_let 0%nat (0%nat, Inside "<rss " quote).
  scan_let 0%nat (1%nat, Outside).
  repeat scan_let 0%nat (2%nat, Outside).
  destruct (formatDate_parses _ w Hlbd) as (t & E).
  apply (yields_bind _ _ _ (fun s => lacks "<" s = true));
    [exact (yields_formatRssDate _ _ t E)|].
  intros d Hdate.
  repeat scan_let 0%nat (2%nat, Outside).
  apply (yields_bind _ _ _ (fun s => scan s 0 Outside = Some (2%nat, Outside))).
  - apply forEachAppend_flows; [|assumption].
    intros x Hx. apply generateRSSItem_flows. now apply Hitems.
  - intros rss' Hflow.
    scan_let 0%nat (1%nat, Outside).
    scan_let 0%nat (0%nat, Outside).
    apply yields_formatted. flow.
Qed.

Lemma generateAtom_returns w :
  renderable w = true -> yields generateAtom w (fun _ => True).
Proof.
  intros Hr. destruct (renderable_parts w Hr) as (Hlbd & Hitems & Hversion).
  cbv delta [generateAtom]; cbv beta. apply yields_getThis_bind; cbv beta.
  repeat scan_let 0%nat (1%nat, Outside).
  destruct (formatDate_parses _ w Hlbd) as (t & E).
  apply (yields_bind _ _ _ (fun s => lacks "<" s = true));
    [exact (yields_formatAtomDate _ _ t E)|].
  intros d Hdate.
  repeat scan_let 0%nat (1%nat, Outside).
  apply (yields_bind _ _ _ (fun s => scan s 0 Outside = Some (1%nat, Outside))).
  - apply forEachAppend_flows; [|assumption].
    intros x Hx. apply generateAtomEntry_flows. now apply Hitems.
  - intros atom' Hflow.
    scan_let 0%nat (0%nat, Outside).
    apply yields_formatted. flow.
Qed.

End RenderableFacts.

(** X20.  On a feed whose [lastBuildDate] is a string that the host reads
    back as a date, whose items have no [pubdate], an empty one or one
    that the host makes a date of, and whose version holds no ['<'],
    [toXML] returns for the formats "rss" and "atom", and changes
    nothing: the document that the renderer hands to [formatXml] closes
    no tag that it has not opened, whatever the texts, URLs and numbers in
    it.  For any other format (the test is exact: "RSS" is another format)
    it throws an error that names the format. *)
Theorem toXML_returns_for_every_renderable_feed (format : string) (w : World Feed.t) :
  renderable w = true ->
  (format = "rss" \/ format = "atom" ->
   exists out, Feed.toXML format w = (Returned out, w))
  /\ (format <> "rss" -> format <> "atom" ->
      Feed.toXML format w
      = (Thrown (Error ("Unsupported feed format: " ++ format)), w)).
Proof.
  intros Hr. split.
  - intros [-> | ->]; cbn [Feed.toXML String.eqb Ascii.eqb Bool.eqb].
    + destruct (RenderableFacts.generateRSS_returns w Hr) as (out & E & _).
      now exists out.
    + destruct (RenderableFacts.generateAtom_returns w Hr) as (out & E & _).
      now exists out.
  - intros Hrss Hatom. unfold Feed.toXML.
    apply String.eqb_neq in Hrss, Hatom. now rewrite Hrss, Hatom.
Qed.

(** The theorem at the feed of scenario (b), whose second item has an
    image. *)
Lemma toXML_returns_witness :
  renderable Sample.scenarioFeedWithImage = true
  /\ (exists out, Feed.toXML "rss" Sample.scenarioFeedWithImage
                  = (Returned out, Sample.scenarioFeedWithImage))
  /\ Feed.toXML "RSS" Sample.scenarioFeedWithImage
     = (Thrown (Error "Unsupported feed format: RSS"), Sample.scenarioFeedWithImage).
Proof.
  assert (H : renderable Sample.scenarioFeedWithImage = true) by (vm_compute; reflexivity).
  split; [exact H|]. split.
  - exact (proj1 (toXML_returns_for_every_renderable_feed "rss" _ H) (or_introl eq_refl)).
  - refine (proj2 (toXML_returns_for_every_renderable_feed "RSS" _ H) _ _); discriminate.
Defined.

(** ** The tags of an item *)

Module ItemTagFacts.
Import DateHelper XmlHelper Feed RssRootFacts.

Lemma startsOnly_appendEach {A} c heads (piece : A -> string) xs :
  (forall x, startsOnly c heads (piece x) = true) ->
  forall acc, startsOnly c heads acc = true ->
              startsOnly c heads (appendEach piece xs acc) = true.
Proof.
  intros Hp. unfold appendEach.
  induction xs as [|x xs IH]; intros acc Hacc; cbn [fold_left]; [exact Hacc|].
  apply IH. now apply EscapeFacts.startsOnly_append.
Qed.

Lemma post_then {T A B} (m : M T A) (k : A -> M T B) w (P : A -> Prop) (Q : B -> Prop) :
  post m w P -> (forall a w1, P a -> post (k a) w1 Q) -> post (bind m k) w Q.
Proof.
  intros Hm Hk. apply post_bind. intros a w1 E. apply Hk. exact (Hm a w1 E).
Qed.

Lemma post_formatDate {T} d (w : World T) :
  post (formatDate d) w (fun s => lacks "<" s = true).
Proof.
  assert (Hiso : forall t, lacks "<" (toISOString t) = true)
    by (intros t; now apply RenderableFacts.lacks_toISOString).
  unfold formatDate. destruct (falsy d).
  - intros s w' E. unfold bind, now, ret in E. injection E as <- _. apply Hiso.
  - destruct d as [[t|]|s|n].
    + intros s w' [= <- _]. apply Hiso.
    + intros s w' E. discriminate.
    + intros r w' E. unfold bind, parse in E.
      destruct (Host.dateParse (host w) s); [|discriminate].
      injection E as <- _. apply Hiso.
    + destruct (dateOfNumber n); intros s w' E; [|discriminate].
      injection E as <- _. apply Hiso.
Qed.

Lemma post_formatRssDate {T} d (w : World T) :
  post (formatRssDate d) w (fun s => lacks "<" s = true).
Proof.
  intros s w' E. unfold formatRssDate, bind, parse, ret in E.
  destruct (formatDate d w) as [[iso|e] w1]; [|discriminate].
  injection E as <- _. apply RenderableFacts.lacks_toUTCString.
Qed.

(** Show that every ['<'] of a string built from literal markup, escaped
    text, numbers and dates starts one of the tags. *)
Ltac tags_ok :=
  repeat
    (cbv beta;
     lazymatch goal with
     | H : startsOnly _ ?hs ?s = true |- startsOnly _ ?hs ?s = true => exact H
     | |- startsOnly _ _ (let _ := _ in _) = true => cbv zeta
     | |- startsOnly _ _ (_ ++ _) = true => apply EscapeFacts.startsOnly_append
     | |- startsOnly _ _ (escapeXml _) = true =>
         apply EscapeFacts.lacks_startsOnly, EscapeFacts.escapeXml_lacks; simpl; tauto
     | |- startsOnly _ _ (intToString _) = true =>
         apply EscapeFacts.lacks_startsOnly, RenderableFacts.lacks_intToString; reflexivity
     | H : lacks ?c ?s = true |- startsOnly ?c _ ?s = true =>
         exact (EscapeFacts.lacks_startsOnly c _ s H)
     | |- startsOnly _ _ (appendEach _ _ _) = true =>
         apply startsOnly_appendEach; [intros ?|]
     | |- startsOnly _ _ (match ?o with Some _ => _ | None => _ end) = true => destruct o
     | |- startsOnly _ _ (if ?b then _ else _) = true => destruct b
     | |- startsOnly _ _ _ = true => vm_compute; reflexivity
     end).

(** Name the value of the outermost [let]; its tags are among [heads]. *)
Ltac tags_let heads :=
  lazymatch goal with
  | |- post (let x := ?a in @?k x) ?w ?Q =>
      let v := fresh x in
      let H := fresh "H" v in
      pose (v := a); change (post (k v) w Q); cbv beta;
      assert (H : startsOnly "<" heads v = true) by (unfold v; tags_ok);
      clearbody v
  end.

Ltac other_let :=
  lazymatch goal with
  | |- post (let x := ?a in @?k x) ?w ?Q =>
      let v := fresh x in
      pose (v := a); change (post (k v) w Q); cbv beta; clearbody v
  end.

Lemma generateRSSItem_tags item w :
  post (generateRSSItem item) w (fun s => startsOnly "<" rssItemTags s = true).
Proof.
  cbv delta [generateRSSItem]; cbv beta.
  repeat tags_let rssItemTags.
  apply (post_then _ _ _ (fun s => startsOnly "<" rssItemTags s = true)).
  - destruct (FeedItemData.pubdate item) as [p|]; [|now apply post_ret].
    destruct (truthyDate (Some p)); [|now apply post_ret].
    apply (post_then _ _ _ (fun s => lacks "<" s = true)); [apply post_formatRssDate|].
    intros d w1 Hd. apply post_ret. tags_ok.
  - intros rssItem' w1 Hprev.
    other_let.
    repeat tags_let rssItemTags.
    apply post_ret. tags_ok.
Qed.

Lemma generateAtomEntry_tags item w :
  post (generateAtomEntry item) w (fun s => startsOnly "<" atomEntryTags s = true).
Proof.
  cbv delta [generateAtomEntry]; cbv beta.
  repeat tags_let atomEntryTags.
  other_let.
  repeat tags_let atomEntryTags.
  apply (post_then _ _ _ (fun s => startsOnly "<" atomEntryTags s = true)).
  - destruct (FeedItemData.pubdate item) as [p|]; [|now apply post_ret].
    destruct (truthyDate (Some p)); [|now apply post_ret].
    apply (post_then _ _ _ (fun s => lacks "<" s = true)); [apply post_formatDate|].
    intros d w1 Hd. apply post_ret. tags_ok.
  - intros entry' w1 Hprev.
    repeat tags_let atomEntryTags.
    apply post_ret. tags_ok.
Qed.

End ItemTagFacts.

(** X21.  Whatever the data of an item, every ['<'] of the RSS item that
    [generateRSSItem] returns starts one of the tags of the template
    ([<item>], [<title>], [<link>], [<description>], [<author>],
    [<category>], [<pubDate>], [<guid>], [<enclosure url=],
    [<media:content url=], [<media:thumbnail url=], [<news:keywords>] and
    their closing tags), and every ['<'] of the Atom entry that
    [generateAtomEntry] returns one of its own: no title, link, author,
    category, URL, type or keyword can open a tag.  Both return, and
    change nothing, when the [pubdate] is absent, empty or a date for the
    host. *)
Theorem item_data_opens_no_tag (item : FeedItemData.t) (w : World Feed.t) :
  (forall s w', Feed.generateRSSItem item w = (Returned s, w') ->
                startsOnly "<" rssItemTags s = true)
  /\ (forall s w', Feed.generateAtomEntry item w = (Returned s, w') ->
                   startsOnly "<" atomEntryTags s = true)
  /\ (datable (host w) (FeedItemData.pubdate item) = true ->
      (exists s, Feed.generateRSSItem item w = (Returned s, w))
      /\ (exists s, Feed.generateAtomEntry item w = (Returned s, w))).
Proof.
  split; [|split].
  - exact (ItemTagFacts.generateRSSItem_tags item w).
  - exact (ItemTagFacts.generateAtomEntry_tags item w).
  - intros Hd. split.
    + destruct (RenderableFacts.generateRSSItem_flows item w Hd) as (s & E & _).
      now exists s.
    + destruct (RenderableFacts.generateAtomEntry_flows item w Hd) as (s & E & _).
      now exists s.
Qed.

(** ** isValidFeedDate *)

(** X22.  [isValidFeedDate] never throws: it returns a boolean whatever
    the date, the bounds and the time zone, and leaves the object as it
    is; for a date that [formatDate] refuses (a string the host does not
    parse, a number out of range, an Invalid Date) the answer is [false]
    and the clock is not read. *)
Theorem isValidFeedDate_never_throws {T : Type} (tz : DateHelper.LocalTime.t)
  (date : DateInput) (maxYearsInPast maxYearsInFuture : Z) (w : World T) :
  exists b w',
    DateHelper.isValidFeedDate tz date maxYearsInPast maxYearsInFuture w = (Returned b, w')
    /\ sameFeed w w'
    /\ (throwsAt (DateHelper.formatDate date) w -> b = false /\ w' = w).
Proof.
  unfold DateHelper.isValidFeedDate, tryCatch, bind, throwsAt.
  pose proof (BadDateFacts.formatDate_sameFeed date w) as Hs.
  assert (Hthrow : forall e w1, DateHelper.formatDate date w = (Thrown e, w1) -> w1 = w).
  { unfold DateHelper.formatDate. intros e w1.
    destruct (DateHelper.falsy date); [discriminate|].
    destruct date as [[t|]|s|n]; try discriminate.
    - now intros [= _ <-].
    - unfold bind, parse. destruct (Host.dateParse (host w) s); [discriminate|].
      now intros [= _ <-].
    - destruct (DateHelper.dateOfNumber n); [discriminate|]. now intros [= _ <-]. }
  destruct (DateHelper.formatDate date w) as [[iso|e] w1] eqn:E.
  - cbn [parse now ret fst snd]. do 2 eexists. split; [reflexivity|].
    split; [|discriminate]. destruct Hs as [H1 H2]. split; assumption.
  - cbn [ret]. exists false, w1. split; [reflexivity|]. split; [exact Hs|].
    intros _. split; [reflexivity|]. exact (Hthrow e w1 eq_refl).
Qed.

(** ** The default limits *)

(** X23.  With the default limits (no [maxItems] and no [maxFileSize]
    given, or zero) it is the size estimate that decides: [shouldSplit]
    answers [true] exactly from 26214 items on, and the limit of 50000
    items is never what makes it answer so. *)
Theorem default_limits_split_from_26214_items (w : World Feed.t) :
  Config.maxItems (Feed.config (this w)) = 50000%Z ->
  Config.maxFileSize (Feed.config (this w)) = (50 * 1024 * 1024)%Z ->
  Feed.shouldSplit w
  = (Returned (26214 <=? Z.of_nat (List.length (Feed.items (this w))))%Z, w).
Proof.
  intros Hi Hs. unfold Feed.shouldSplit, bind, getThis, ret, Feed.estimateSize.
  rewrite Hi, Hs. f_equal. f_equal.
  destruct (26214 <=? Z.of_nat (List.length (Feed.items (this w))))%Z eqn:E.
  - apply Z.leb_le in E. apply orb_true_iff. right. apply Z.ltb_lt. lia.
  - apply Z.leb_gt in E. apply orb_false_iff. split; apply Z.ltb_ge; lia.
Qed.

(** The theorem at the feed of scenario (a), made with the defaults. *)
Lemma default_limits_witness :
  Config.maxItems (Feed.config (this Sample.scenarioFeed)) = 50000%Z
  /\ Config.maxFileSize (Feed.config (this Sample.scenarioFeed)) = (50 * 1024 * 1024)%Z
  /\ Feed.shouldSplit Sample.scenarioFeed = (Returned false, Sample.scenarioFeed).
Proof.
  split; [reflexivity|]. split; [reflexivity|].
  exact (default_limits_split_from_26214_items Sample.scenarioFeed eq_refl eq_refl).
Defined.
